(** * vscode-as-git-mergetool: settings snapshots, layout manager, file merger

    A shallow embedding of

    - [src/temporarySettingsManager.ts] (module [Settings]),
    - the layout manager [DiffLayouterManager] (module [Layouts]),
    - the command [ArbitraryFilesMerger.mergeArbitraryFiles] (module [Merger]),

    together with the [Monitor] they serialise themselves with.

    The extension runs on one JavaScript thread.  An [async] method is a
    sequence of atomic segments separated by [await]s; the embedding runs
    the awaited editor operations (configuration writes, storage updates,
    session calls) to completion in place and keeps two suspension points
    explicit: [await monitor.enter()] and the prompts the user answers.  A
    method [m] that starts with [enter()] comes in two parts, [m] (the
    call, which may park the caller in the monitor) and [m_granted] (the
    method from the moment its [enter()] resolved). *)

From Stdlib Require Import DecimalString.
From stdpp Require Import gmap strings list.
From Stdlib Require Import ZArith.

Set Default Proof Using "Type".

(** ** JavaScript values *)

(** Setting values are JSON values.  [undefined] is what reading a missing
    property or an unset setting gives.  Numbers appear as integers (no
    setting of the program is numeric); objects and arrays are opaque
    references, since [===] compares them by identity. *)
Inductive JsValue : Type :=
| JUndefined
| JNull
| JBool (b : bool)
| JNumber (n : Z)
| JString (s : string)
| JObject (ref : nat).

Global Instance JsValue_eq_dec : EqDecision JsValue.
Proof. solve_decision. Defined.

Global Instance JsValue_inhabited : Inhabited JsValue := populate JUndefined.

(** [a === b] *)
Definition strict_eq (a b : JsValue) : bool := bool_decide (a = b).

(** [typeof v === "string"] *)
Definition is_string (v : JsValue) : option string :=
  match v with JString s => Some s | _ => None end.

(** A plain object [{ [k: string]: unknown }]. *)
Abbreviation StorageState := (gmap string JsValue).

(** [o[k]]: a missing property reads as [undefined]. *)
Definition prop (o : StorageState) (k : string) : JsValue :=
  default JUndefined (o !! k).

(** [Object.keys(o)].  The keys come in the map's own order rather than in
    insertion order; every loop over them below touches a different
    setting per key. *)
Definition Object_keys (o : StorageState) : list string := elements (dom o).

(** ** Outcomes of a call *)

(** A call returns, is still parked at an [await] that has not resolved
    (a monitor somebody else holds, a prompt nobody answered), or
    rejects. *)
Inductive Outcome (S A : Type) : Type :=
| Returned (a : A) (s : S)
| Suspended (s : S)
| Thrown (e : string) (s : S).
Arguments Returned {S A} a s.
Arguments Suspended {S A} s.
Arguments Thrown {S A} e s.

Definition Task (S A : Type) : Type := S → Outcome S A.

Definition ret {S A} (a : A) : Task S A := λ s, Returned a s.

Definition bind {S A B} (t : Task S A) (k : A → Task S B) : Task S B :=
  λ s, match t s with
       | Returned a s' => k a s'
       | Suspended s' => Suspended s'
       | Thrown e s' => Thrown e s'
       end.

(** A synchronous state change. *)
Definition modify {S} (f : S → S) : Task S unit := λ s, Returned tt (f s).

(** [try { body } finally { cleanup }]: the cleanup runs when the body
    returns and when it throws; a throwing cleanup wins. *)
Definition try_finally {S A} (body : Task S A) (cleanup : Task S unit)
  : Task S A :=
  λ s, match body s with
       | Returned a s' =>
           match cleanup s' with
           | Returned _ s'' => Returned a s''
           | Suspended s'' => Suspended s''
           | Thrown e s'' => Thrown e s''
           end
       | Suspended s' => Suspended s'
       | Thrown e s' =>
           match cleanup s' with
           | Returned _ s'' => Thrown e s''
           | Suspended s'' => Suspended s''
           | Thrown e' s'' => Thrown e' s''
           end
       end.

Declare Scope task_scope.
Delimit Scope task_scope with task.
Notation "'let!' x ':=' t 'in' k" := (bind t (λ x, k))
  (at level 10, x pattern, t at level 100, k at level 200) : task_scope.
Notation "t ';;!' k" := (bind t (λ _, k))
  (at level 100, k at level 200, right associativity) : task_scope.

(** ** Monitor *)

Module Monitor.

(** A caller of [enter()], as the monitor's queue remembers it. *)
Definition Token := nat.

(** Modelled from the spec: the class [Monitor] of [./monitor] is not
    among the sources.  "[owned: bool], [waiters]: ordered queue of
    resumption tokens". *)
Record t : Type := Make { owned : bool; waiters : list Token }.

(** [new Monitor()] *)
Definition create : t := {| owned := false; waiters := [] |}.

(** Modelled from the spec: [Monitor.enter] is missing.  "[enter()]
    suspends the caller until it becomes the sole holder".  The boolean
    tells whether the caller got the monitor at once. *)
Definition enter (c : Token) (m : t) : t * bool :=
  if owned m
  then ({| owned := true; waiters := waiters m ++ [c] |}, false)
  else ({| owned := true; waiters := waiters m |}, true).

(** Modelled from the spec: [Monitor.leave] is missing.  "[leave()]
    releases and wakes the next waiter in FIFO order, or marks the lock
    free if no waiter exists"; without a matching [enter()] it is a
    programming error ([None]).  The token is the waiter woken up, who
    holds the monitor from then on. *)
Definition leave (m : t) : option (t * option Token) :=
  if owned m then
    match waiters m with
    | [] => Some ({| owned := false; waiters := [] |}, None)
    | c :: rest => Some ({| owned := true; waiters := rest |}, Some c)
    end
  else None.

(** Modelled from the spec: the getter [Monitor.someoneIsWaiting] is
    missing.  "true iff the waiter queue is non-empty at the instant of
    query". *)
Definition someoneIsWaiting (m : t) : bool :=
  match waiters m with [] => false | _ :: _ => true end.

(** Modelled from the spec: a history of [enter()] and [leave()] calls on
    one monitor by logical callers, as the properties of the monitor are
    worded.  Next to the monitor it keeps, from the callers' side: who is
    inside the critical section (their [enter()] has resolved and they have
    not called [leave()]), whose [enter()] is still suspended, and in which
    order callers were suspended ([queued]) and woken up ([resumed]) so
    far. *)
Record Callers : Type := MkCallers {
  mon : t;
  inside : list Token;
  suspended : list Token;
  queued : list Token;
  resumed : list Token;
}.

Inductive Call : Type :=
| Enter (c : Token)
| Leave (c : Token).

Definition start : Callers :=
  {| mon := create; inside := []; suspended := []; queued := [];
     resumed := [] |}.

(** One call.  [None] is a broken protocol: [enter()] by a caller that is
    inside already (re-entrancy) or still suspended, [leave()] by a caller
    that is not inside. *)
Definition call (s : Callers) (op : Call) : option Callers :=
  match op with
  | Enter c =>
      if bool_decide (c ∈ inside s ∨ c ∈ suspended s) then None
      else
        let '(m, granted) := enter c (mon s) in
        Some (if granted
              then {| mon := m; inside := c :: inside s;
                      suspended := suspended s; queued := queued s;
                      resumed := resumed s |}
              else {| mon := m; inside := inside s;
                      suspended := suspended s ++ [c];
                      queued := queued s ++ [c]; resumed := resumed s |})
  | Leave c =>
      if bool_decide (c ∈ inside s) then
        match leave (mon s) with
        | Some (m, None) =>
            Some {| mon := m; inside := filter (λ x, x ≠ c) (inside s);
                    suspended := suspended s; queued := queued s;
                    resumed := resumed s |}
        | Some (m, Some next) =>
            Some {| mon := m;
                    inside := filter (λ x, x ≠ c) (inside s) ++ [next];
                    suspended := filter (λ x, x ≠ next) (suspended s);
                    queued := queued s; resumed := resumed s ++ [next] |}
        | None => None
        end
      else None
  end.

(** What every history keeps true: the monitor's queue is the list of
    suspended callers, who were queued after those woken up already; and
    the monitor is owned exactly when somebody is inside. *)
Definition consistent (s : Callers) : Prop :=
  waiters (mon s) = suspended s
  ∧ queued s = resumed s ++ suspended s
  ∧ NoDup (suspended s)
  ∧ if owned (mon s) then ∃ c, inside s = [c]
    else inside s = [] ∧ suspended s = [].

Fixpoint calls_from (s : Callers) (ops : list Call) : option Callers :=
  match ops with
  | [] => Some s
  | op :: rest =>
      match call s op with
      | Some s' => calls_from s' rest
      | None => None
      end
  end.

End Monitor.

(** ** Content locations *)

Record Uri : Type := MkUri { scheme : string; fsPath : string }.

Global Instance Uri_eq_dec : EqDecision Uri.
Proof. solve_decision. Defined.

(** [vscode.Uri.file(path)] *)
Definition Uri_file (path : string) : Uri :=
  {| scheme := "file"; fsPath := path |}.

(** [new DiffedURIs(base, local, remote, merged, backup?)] *)
Record DiffedURIs : Type := MkDiffedURIs {
  base : Uri;
  local : Uri;
  remote : Uri;
  merged : Uri;
  backup : option Uri;
}.

Global Instance DiffedURIs_eq_dec : EqDecision DiffedURIs.
Proof. solve_decision. Defined.

(** Modelled from the spec: [DiffedURIs.equalsWithoutBackup] ([./diffedURIs]
    is not among the sources).  "the same content tuple (ignoring
    backup-source identity)". *)
Definition equalsWithoutBackup (a b : DiffedURIs) : bool :=
  bool_decide (base a = base b ∧ local a = local b
               ∧ remote a = remote b ∧ merged a = merged b).

(** ** The temporary settings manager *)

Module Settings.

(** A call of the configuration facade, with the value read or written. *)
Inductive ConfiguratorCall : Type :=
| CfgGet (iD : string) (value : JsValue)
| CfgSet (iD : string) (value : JsValue).

Global Instance ConfiguratorCall_eq_dec : EqDecision ConfiguratorCall.
Proof. solve_decision. Defined.

(** Everything the manager reads and writes: the editor's configuration
    behind [vSCodeConfigurator], the memento [storageState], the manager's
    [monitor], and the calls made to the configurator so far, oldest
    first. *)
Record World : Type := MkWorld {
  configuration : StorageState;
  globalState : gmap string StorageState;
  monitor : Monitor.t;
  calls : list ConfiguratorCall;
}.

(** Modelled from the spec: [VSCodeConfigurator.get] ([./vSCodeConfigurator]
    is not among the sources).  "[get(key) -> Value]"; an unset setting
    reads as [undefined]. *)
Definition configurator_get (iD : string) (w : World) : JsValue * World :=
  let value := prop (configuration w) iD in
  (value,
   {| configuration := configuration w; globalState := globalState w;
      monitor := monitor w; calls := calls w ++ [CfgGet iD value] |}).

(** Modelled from the spec: [VSCodeConfigurator.set] is missing.
    "[set(key, Value)] ... must reflect overrides immediately to subsequent
    [get] calls". *)
Definition configurator_set (iD : string) (value : JsValue) (w : World)
  : World :=
  {| configuration := <[iD := value]> (configuration w);
     globalState := globalState w; monitor := monitor w;
     calls := calls w ++ [CfgSet iD value] |}.

Definition with_monitor (m : Monitor.t) (w : World) : World :=
  {| configuration := configuration w; globalState := globalState w;
     monitor := m; calls := calls w |}.

(** [await this.monitor.enter()] *)
Definition monitor_enter (me : Monitor.Token) : Task World unit :=
  λ w, let '(m, granted) := Monitor.enter me (monitor w) in
       if granted then Returned tt (with_monitor m w)
       else Suspended (with_monitor m w).

(** [await this.monitor.leave()] *)
Definition monitor_leave : Task World unit :=
  λ w, match Monitor.leave (monitor w) with
       | Some (m, _) => Returned tt (with_monitor m w)
       | None => Thrown "leave() without enter()" w
       end.

(** The configurator calls made between two worlds of one run. *)
Definition calls_since (w w' : World) : list ConfiguratorCall :=
  drop (length (calls w)) (calls w').

Section TemporarySideBySideSettingsManager.

(** [extensionID] of [./iDs], which is not among the sources. *)
Variable extensionID : string.

(** The constructor's [targetSettings]. *)
Variable targetSettings : StorageState.

Definition origActualKey : string :=
  extensionID +:+ ".temporarySettings.origActual".
Definition origTargetKey : string :=
  extensionID +:+ ".temporarySettings.origTarget".

(** [this.targetIDs = Object.keys(targetSettings)] *)
Definition targetIDs : list string := Object_keys targetSettings.

(** [getStorageState]: the memento is written by this class alone, so an
    entry is an object or absent, and absent reads as [{}]. *)
Definition getStorageState (key : string) (w : World) : StorageState :=
  default ∅ (globalState w !! key).

(** [setStorageState]: updating to [undefined] removes the entry. *)
Definition setStorageState (key : string) (value : option StorageState)
    (w : World) : World :=
  {| configuration := configuration w;
     globalState := match value with
                    | Some o => <[key := o]> (globalState w)
                    | None => delete key (globalState w)
                    end;
     monitor := monitor w; calls := calls w |}.

(** The locals of [activateSettings]. *)
Record ActivateLocals : Type := MkLocals {
  newOrigActual : StorageState;
  newOrigTarget : StorageState;
  obsoleteSettingKeys : gset string;
}.

(** One turn of [for (const iD of this.targetIDs)]. *)
Definition activate_iteration (oldOrigActual oldOrigTarget : StorageState)
    (acc : ActivateLocals * World) (iD : string) : ActivateLocals * World :=
  let '(locals, w) := acc in
  let newTarget := prop targetSettings iD in
  let '(newActual, w1) := configurator_get iD w in
  let w2 := if strict_eq newActual newTarget then w1
            else configurator_set iD newTarget w1 in
  ({| newOrigActual :=
        <[iD := if strict_eq newActual (prop oldOrigTarget iD)
                then prop oldOrigActual iD else newActual]>
          (newOrigActual locals);
      newOrigTarget := <[iD := newTarget]> (newOrigTarget locals);
      obsoleteSettingKeys := obsoleteSettingKeys locals ∖ {[iD]} |},
   w2).

(** The two halves of a turn, for reasoning about the loop: the world and
    the locals after the turn for [x]. *)
Definition turn_world (w : World) (x : string) : World :=
  if strict_eq (prop (configuration w) x) (prop targetSettings x)
  then (configurator_get x w).2
  else configurator_set x (prop targetSettings x) (configurator_get x w).2.

Definition turn_locals (oA oT : StorageState) (locals : ActivateLocals)
    (w : World) (x : string) : ActivateLocals :=
  {| newOrigActual :=
       <[x := if strict_eq (prop (configuration w) x) (prop oT x)
              then prop oA x else prop (configuration w) x]>
         (newOrigActual locals);
     newOrigTarget := <[x := prop targetSettings x]> (newOrigTarget locals);
     obsoleteSettingKeys := obsoleteSettingKeys locals ∖ {[x]} |}.

(** One turn of [for (const iD of obsoleteSettingKeys)]. *)
Definition restore_obsolete (oldOrigActual : StorageState) (w : World)
    (iD : string) : World :=
  configurator_set iD (prop oldOrigActual iD) w.

(** The [try] block of [activateSettings]. *)
Definition activateSettings_body (w : World) : World :=
  let oldOrigActual := getStorageState origActualKey w in
  let oldOrigTarget := getStorageState origTargetKey w in
  let locals0 := {| newOrigActual := ∅; newOrigTarget := ∅;
                    obsoleteSettingKeys := list_to_set (Object_keys oldOrigActual) |} in
  let '(locals, w1) :=
    foldl (activate_iteration oldOrigActual oldOrigTarget) (locals0, w)
      targetIDs in
  let w2 := foldl (restore_obsolete oldOrigActual) w1
              (elements (obsoleteSettingKeys locals)) in
  let w3 := setStorageState origActualKey (Some (newOrigActual locals)) w2 in
  setStorageState origTargetKey (Some (newOrigTarget locals)) w3.

(** [activateSettings] once [enter()] has resolved. *)
Definition activateSettings_granted : Task World unit :=
  try_finally (modify activateSettings_body) monitor_leave.

Definition activateSettings (me : Monitor.Token) : Task World unit :=
  (monitor_enter me ;;! activateSettings_granted)%task.

(** One turn of [for (const iD of origChangedIDs)]. *)
Definition reset_iteration (origActual origTarget : StorageState)
    (w : World) (iD : string) : World :=
  let '(newActual, w1) := configurator_get iD w in
  if strict_eq newActual (prop origTarget iD)
  then configurator_set iD (prop origActual iD) w1
  else w1.

(** The [try] block of [resetSettings]. *)
Definition resetSettings_body (w : World) : World :=
  let origActual := getStorageState origActualKey w in
  let origTarget := getStorageState origTargetKey w in
  let origChangedIDs := Object_keys origActual in
  let w1 := foldl (reset_iteration origActual origTarget) w origChangedIDs in
  let w2 := setStorageState origActualKey None w1 in
  setStorageState origTargetKey None w2.

(** [resetSettings] once [enter()] has resolved. *)
Definition resetSettings_granted : Task World unit :=
  try_finally (modify resetSettings_body) monitor_leave.

Definition resetSettings (me : Monitor.Token) : Task World unit :=
  (monitor_enter me ;;! resetSettings_granted)%task.

End TemporarySideBySideSettingsManager.

(** The default [targetSettings] of the constructor. *)
Definition defaultTargetSettings : StorageState :=
  <["diffEditor.renderSideBySide" := JBool false]>
  (<["editor.lineNumbers" := JString "none"]>
  (<["workbench.editor.showTabs" := JBool false]>
  (<["editor.glyphMargin" := JBool false]>
  (<["workbench.activityBar.visible" := JBool false]> ∅)))).

(** Sample instances, for running the model. *)
Definition sampleExtensionID : string := "vscode-as-git-mergetool".

(** A first start: two settings differ from their targets, nothing is
    persisted. *)
Definition fresh_world : World :=
  {| configuration :=
       <["diffEditor.renderSideBySide" := JBool true]>
       (<["editor.lineNumbers" := JString "on"]> ∅);
     globalState := ∅; monitor := Monitor.create; calls := [] |}.

(** What a session that was never reset leaves behind: the settings are at
    their targets, and the snapshots remember that side-by-side rendering
    was on.  [editor.minimap.enabled] was managed by an older version. *)
Definition interrupted_world : World :=
  {| configuration :=
       <["editor.minimap.enabled" := JBool false]> defaultTargetSettings;
     globalState :=
       <[origActualKey sampleExtensionID :=
           <["diffEditor.renderSideBySide" := JBool true]>
           (<["editor.minimap.enabled" := JBool true]> ∅)]>
       (<[origTargetKey sampleExtensionID :=
           <["diffEditor.renderSideBySide" := JBool false]>
           (<["editor.minimap.enabled" := JBool false]> ∅)]> ∅);
     monitor := Monitor.create; calls := [] |}.

(** A session that overrode the line numbers only, after the user set
    them to relative by hand. *)
Definition edited_world : World :=
  {| configuration :=
       <["editor.lineNumbers" := JString "relative"]> defaultTargetSettings;
     globalState :=
       <[origActualKey sampleExtensionID :=
           <["editor.lineNumbers" := JString "on"]> ∅]>
       (<[origTargetKey sampleExtensionID :=
           <["editor.lineNumbers" := JString "none"]> ∅]> ∅);
     monitor := Monitor.create; calls := [] |}.

End Settings.

(** ** The layout manager *)

Module Layouts.

(** The enum [Zoom] of [./zoom] is not among the sources; the manager
    names [Zoom.default] only and passes every other value through. *)
Inductive Zoom : Type :=
| ZoomDefault
| ZoomOther (n : nat).

(** A layout factory is an object with a [settingValue]; [factoryRef] is
    its identity, which is what [===] compares. *)
Record DiffLayouterFactory : Type := MkFactory {
  factoryRef : nat;
  settingValue : string;
}.

(** [f === g] on factories. *)
Definition same_factory (f g : DiffLayouterFactory) : bool :=
  bool_decide (factoryRef f = factoryRef g).

(** A session as the manager sees it: the object's identity, its content
    tuple, and the two flags the manager reads.  The implementations of
    [DiffLayouter] are not among the sources. *)
Record DiffLayouter : Type := MkLayouter {
  layouterRef : nat;
  diffedURIs : DiffedURIs;
  isActive : bool;
  isActivating : bool;
}.

(** The answers to "Diff layout setting has an unknown value." *)
Inductive RepairAnswer : Type :=
| RestoreDefault
| UseDefaultOnce
| Cancel
| Dismissed.

(** What the manager does to the editor and to its sessions, oldest first
    in [effects]. *)
Inductive Effect : Type :=
| ShowErrorMessage (message : string)
| AskUnknownLayout (answer : RepairAnswer)
| ShowQuickPick (items : list string) (picked : option string)
| ConfigSet (iD : string) (value : JsValue)
| CloseActiveEditor
| Deactivate (layouter : nat) (byManager : bool)
| Create (factory : DiffLayouterFactory) (layouter : nat) (uris : DiffedURIs)
| OnDidDeactivate (layouter : nat)
| TryActivate (layouter : nat) (zoom : Zoom) (isSwitch : bool)
| SetLayout (layouter : nat) (zoom : Zoom)
| OnDidLayoutDeactivate (handler : nat)
| FireDidLayoutActivate (layouter : nat).

(** The fields of [DiffLayouterManager], the configuration behind its
    [vSCodeConfigurator], the effects so far, and the next free object
    identity. *)
Record Manager : Type := MkManager {
  factories : list DiffLayouterFactory;
  defaultFactory : DiffLayouterFactory;
  layouterFactory : option DiffLayouterFactory;
  layouter : option DiffLayouter;
  layouterManagerMonitor : Monitor.t;
  switchLayoutStatusBarItem : bool;
  configuration : StorageState;
  effects : list Effect;
  nextRef : nat;
}.

Definition with_managerMonitor (m : Monitor.t) (st : Manager) : Manager :=
  {| factories := factories st; defaultFactory := defaultFactory st;
     layouterFactory := layouterFactory st; layouter := layouter st;
     layouterManagerMonitor := m;
     switchLayoutStatusBarItem := switchLayoutStatusBarItem st;
     configuration := configuration st; effects := effects st;
     nextRef := nextRef st |}.

Definition with_configuration (c : StorageState) (st : Manager) : Manager :=
  {| factories := factories st; defaultFactory := defaultFactory st;
     layouterFactory := layouterFactory st; layouter := layouter st;
     layouterManagerMonitor := layouterManagerMonitor st;
     switchLayoutStatusBarItem := switchLayoutStatusBarItem st;
     configuration := c; effects := effects st; nextRef := nextRef st |}.

(** Append to the effects. *)
Definition log (e : list Effect) (st : Manager) : Manager :=
  {| factories := factories st; defaultFactory := defaultFactory st;
     layouterFactory := layouterFactory st; layouter := layouter st;
     layouterManagerMonitor := layouterManagerMonitor st;
     switchLayoutStatusBarItem := switchLayoutStatusBarItem st;
     configuration := configuration st; effects := effects st ++ e;
     nextRef := nextRef st |}.

(** The effects between two states of one run. *)
Definition effects_since (st st' : Manager) : list Effect :=
  drop (length (effects st)) (effects st').

(** [await this.layouterManagerMonitor.enter()] *)
Definition managerMonitor_enter (me : Monitor.Token) : Task Manager unit :=
  λ st, let '(m, granted) := Monitor.enter me (layouterManagerMonitor st) in
        if granted then Returned tt (with_managerMonitor m st)
        else Suspended (with_managerMonitor m st).

(** [await this.layouterManagerMonitor.leave()] *)
Definition managerMonitor_leave : Task Manager unit :=
  λ st, match Monitor.leave (layouterManagerMonitor st) with
        | Some (m, _) => Returned tt (with_managerMonitor m st)
        | None => Thrown "leave() without enter()" st
        end.

(** The constructor: it throws for an empty registry and for a registry
    without the default kind.  [defaultSettingValue] stands for
    [new FourTransferRightLayouterFactory().settingValue]; the factories
    are not among the sources. *)
Definition new_DiffLayouterManager (defaultSettingValue : string)
    (configuration : StorageState) (factories : list DiffLayouterFactory)
  : string + Manager :=
  match factories with
  | [] => inl "internal error: no factory registered"
  | _ :: _ =>
      match find (λ f, bool_decide (settingValue f = defaultSettingValue))
                 factories with
      | None => inl "could not find default factory"
      | Some d =>
          inr {| factories := factories; defaultFactory := d;
                 layouterFactory := None; layouter := None;
                 layouterManagerMonitor := Monitor.create;
                 switchLayoutStatusBarItem := false;
                 configuration := configuration; effects := [];
                 nextRef := 0 |}
      end
  end.

(** Modelled from the spec: [DiffLayouterFactory.create] (the factories
    are not among the sources).  "[create(context) -> Session]"; a session
    is neither activating nor active when it is created. *)
Definition create (ref : nat) (uris : DiffedURIs) : DiffLayouter :=
  {| layouterRef := ref; diffedURIs := uris; isActive := false;
     isActivating := false |}.

(** Modelled from the spec: [DiffLayouter.tryActivate] (the sessions are
    not among the sources).  "Activating → Active: once the chosen factory
    constructs the session and its own internal activation completes". *)
Definition tryActivate (l : DiffLayouter) : DiffLayouter :=
  {| layouterRef := layouterRef l; diffedURIs := diffedURIs l;
     isActive := true; isActivating := false |}.

(** [activateLayouter]: the old session, if any, is told to deactivate;
    the new one is created, subscribed to and activated; the status bar
    item is created unless it exists. *)
Definition activateLayouter (uris : DiffedURIs)
    (newLayouterFactory : DiffLayouterFactory) (st : Manager) : Manager :=
  let oldLayouter := layouter st in
  let ref := nextRef st in
  {| factories := factories st; defaultFactory := defaultFactory st;
     layouterFactory := Some newLayouterFactory;
     layouter := Some (tryActivate (create ref uris));
     layouterManagerMonitor := layouterManagerMonitor st;
     switchLayoutStatusBarItem := true;
     configuration := configuration st;
     effects :=
       effects st
       ++ match oldLayouter with
          | Some old => [Deactivate (layouterRef old) true]
          | None => []
          end
       ++ [Create newLayouterFactory ref uris; OnDidDeactivate ref;
           TryActivate ref ZoomDefault (bool_decide (is_Some oldLayouter))];
     nextRef := S ref |}.

Section DiffLayouterManager.

(** [extensionID] of [./ids], which is not among the sources. *)
Variable extensionID : string.

Definition layoutSettingID : string := extensionID +:+ ".layout".

(** The [for] loop of [getLayoutFactory]: the first factory whose
    [settingValue] is the setting. *)
Definition factory_for (layoutSetting : JsValue) (st : Manager)
  : option DiffLayouterFactory :=
  find (λ f, strict_eq (JString (settingValue f)) layoutSetting)
       (factories st).

(** The [while (true)] loop of [getLayoutFactory], one answer of the user
    per turn that has to ask. *)
Fixpoint getLayoutFactory_loop (answers : list RepairAnswer)
    (layoutSetting : JsValue) (st : Manager) {struct answers}
  : Outcome Manager (option DiffLayouterFactory) :=
  match factory_for layoutSetting st with
  | Some factory => Returned (Some factory) st
  | None =>
      match answers with
      | [] => Suspended st
      | selectedItem :: rest =>
          let st1 := log [AskUnknownLayout selectedItem] st in
          let default := JString (settingValue (defaultFactory st)) in
          match selectedItem with
          | Cancel | Dismissed => Returned None st1
          | RestoreDefault =>
              getLayoutFactory_loop rest default
                (log [ConfigSet layoutSettingID default]
                   (with_configuration
                      (<[layoutSettingID := default]> (configuration st1))
                      st1))
          | UseDefaultOnce => getLayoutFactory_loop rest default st1
          end
      end
  end.

Definition getLayoutFactory (answers : list RepairAnswer)
  : Task Manager (option DiffLayouterFactory) :=
  λ st, getLayoutFactory_loop answers
          (prop (configuration st) layoutSettingID) st.

(** The first test of [openDiffedURIs]: a session for the same content is
    active or activating. *)
Definition already_open (uris : DiffedURIs) (st : Manager) : bool :=
  match layouter st with
  | Some l => (isActivating l || isActive l)
              && equalsWithoutBackup uris (diffedURIs l)
  | None => false
  end.

(** The [try] block of [openDiffedURIs]; [Some b] is a [return b] from
    inside the block. *)
Definition openDiffedURIs_try (uris : DiffedURIs) (closeActiveEditor : bool)
    (deactivationHandler : option nat) (answers : list RepairAnswer)
  : Task Manager (option bool) :=
  λ st,
    if already_open uris st then Returned (Some true) st
    else
      (let! newLayouterFactory := getLayoutFactory answers in
       match newLayouterFactory with
       | None => ret (Some false)
       | Some factory =>
           modify (λ st, if closeActiveEditor
                         then log [CloseActiveEditor] st else st) ;;!
           modify (activateLayouter uris factory) ;;!
           modify (λ st, match deactivationHandler with
                         | Some h => log [OnDidLayoutDeactivate h] st
                         | None => st
                         end) ;;!
           ret None
       end)%task st.

(** [if (this.layouter !== undefined) this.didLayoutActivate.fire(...)] *)
Definition fire_didLayoutActivate (st : Manager) : Manager :=
  match layouter st with
  | Some l => log [FireDidLayoutActivate (layouterRef l)] st
  | None => st
  end.

(** [openDiffedURIs] once [enter()] has resolved. *)
Definition openDiffedURIs_granted (uris : DiffedURIs)
    (closeActiveEditor : bool) (deactivationHandler : option nat)
    (answers : list RepairAnswer) : Task Manager bool :=
  (let! returned :=
     try_finally
       (openDiffedURIs_try uris closeActiveEditor deactivationHandler answers)
       managerMonitor_leave in
   match returned with
   | Some result => ret result
   | None => modify fire_didLayoutActivate ;;! ret true
   end)%task.

Definition openDiffedURIs (me : Monitor.Token) (uris : DiffedURIs)
    (closeActiveEditor : bool) (deactivationHandler : option nat)
    (answers : list RepairAnswer) : Task Manager bool :=
  (managerMonitor_enter me ;;!
   openDiffedURIs_granted uris closeActiveEditor deactivationHandler
     answers)%task.

(** [switchLayout] once [enter()] has resolved.  [this.layouter.diffedURIs]
    throws when the session is gone by then. *)
Definition switchLayout_granted (targetFactory : DiffLayouterFactory)
  : Task Manager unit :=
  (try_finally
     (λ st, match layouter st with
            | Some l =>
                Returned tt (activateLayouter (diffedURIs l) targetFactory st)
            | None => Thrown "TypeError: this.layouter is undefined" st
            end)
     managerMonitor_leave ;;!
   modify fire_didLayoutActivate)%task.

(** [targetFactory === this.layouterFactory] *)
Definition is_current_factory (f : DiffLayouterFactory) (st : Manager)
  : bool :=
  match layouterFactory st with
  | Some g => same_factory f g
  | None => false
  end.

(** [switchLayout] from the second test on, with the target resolved. *)
Definition switchLayout_resolved (me : Monitor.Token)
    (targetFactory : DiffLayouterFactory) : Task Manager unit :=
  (modify (λ st,
     if is_current_factory targetFactory st
        || bool_decide (layouter st = None)
     then log [ShowErrorMessage
                 "The situation has changed meanwhile. Please try again."] st
     else st) ;;!
   managerMonitor_enter me ;;!
   switchLayout_granted targetFactory)%task.

(** [switchLayout(layoutName)]; [pickResult] is the user's answer to the
    quick pick, should it be shown ([None]: dismissed). *)
Definition switchLayout (me : Monitor.Token) (layoutName : JsValue)
    (pickResult : option string) : Task Manager unit :=
  λ st,
    match layouter st with
    | None =>
        Returned tt
          (log [ShowErrorMessage "This requires the diff layout to be active"]
             st)
    | Some _ =>
        let named :=
          match is_string layoutName with
          | Some name =>
              find (λ f, bool_decide (settingValue f = name)) (factories st)
          | None => None
          end in
        match named with
        | Some targetFactory => switchLayout_resolved me targetFactory st
        | None =>
            let items :=
              settingValue
                <$> filter (λ f, is_current_factory f st = false)
                      (factories st) in
            let st1 := log [ShowQuickPick items pickResult] st in
            match pickResult with
            | None => Returned tt st1
            | Some picked =>
                match find (λ f, bool_decide (settingValue f = picked))
                           (factories st1) with
                | None => Returned tt st1
                | Some targetFactory =>
                    switchLayout_resolved me targetFactory st1
                end
            end
        end
    end.

(** The [try] block of [handleWasZoomRequested]. *)
Definition handleWasZoomRequested_try (zoom : Zoom) : Task Manager unit :=
  λ st,
    if Monitor.someoneIsWaiting (layouterManagerMonitor st)
    then Returned tt st
    else
      match layouter st with
      | Some l =>
          if isActive l
          then Returned tt (log [SetLayout (layouterRef l) zoom] st)
          else Returned tt
                 (log [ShowErrorMessage
                         "Diff layout must be active to use zoom commands."]
                    st)
      | None =>
          Returned tt
            (log [ShowErrorMessage
                    "Diff layout must be active to use zoom commands."] st)
      end.

(** [handleWasZoomRequested] once [enter()] has resolved. *)
Definition handleWasZoomRequested_granted (zoom : Zoom)
  : Task Manager unit :=
  try_finally (handleWasZoomRequested_try zoom) managerMonitor_leave.

Definition handleWasZoomRequested (me : Monitor.Token) (zoom : Zoom)
  : Task Manager unit :=
  (managerMonitor_enter me ;;! handleWasZoomRequested_granted zoom)%task.

End DiffLayouterManager.

(** Sample instances, for running the model. *)
Definition threeDiffToBase : DiffLayouterFactory :=
  {| factoryRef := 1; settingValue := "3DiffToBase" |}.
Definition fourTransferRight : DiffLayouterFactory :=
  {| factoryRef := 4; settingValue := "4TransferRight" |}.

Definition sample_uris : DiffedURIs :=
  {| base := MkUri "readonly-file" "/repo/a.base";
     local := MkUri "readonly-file" "/repo/a.local";
     remote := MkUri "readonly-file" "/repo/a.remote";
     merged := Uri_file "/repo/a"; backup := None |}.

(** A manager with an active four-pane session and a free monitor. *)
Definition active_manager : Manager :=
  {| factories := [threeDiffToBase; fourTransferRight];
     defaultFactory := fourTransferRight;
     layouterFactory := Some fourTransferRight;
     layouter := Some {| layouterRef := 0; diffedURIs := sample_uris;
                         isActive := true; isActivating := false |};
     layouterManagerMonitor := Monitor.create;
     switchLayoutStatusBarItem := true;
     configuration := ∅; effects := []; nextRef := 1 |}.

(** The same while a transition holds the monitor and another one, with
    token 7, waits for it. *)
Definition contended_manager : Manager :=
  with_managerMonitor {| Monitor.owned := true; Monitor.waiters := [7] |}
    active_manager.

(** The same with a layout setting no factory answers to, seen by a
    caller that holds the monitor. *)
Definition misconfigured_manager : Manager :=
  with_managerMonitor {| Monitor.owned := true; Monitor.waiters := [] |}
    (with_configuration
       (<[layoutSettingID "vscode-as-git-mergetool" := JString "5Panes"]> ∅)
       active_manager).

Definition other_uris : DiffedURIs :=
  {| base := MkUri "readonly-file" "/repo/b.base";
     local := MkUri "readonly-file" "/repo/b.local";
     remote := MkUri "readonly-file" "/repo/b.remote";
     merged := Uri_file "/repo/b"; backup := None |}.

End Layouts.

(** ** Merging arbitrary files *)

Module Merger.

(** What [DiffFileSelector.doSelection] resolves to ([./diffFileSelector]
    is not among the sources): four files, each with its path and, for
    the merged one, whether the location is still empty. *)
Record ValidationResult : Type := MkValidation { emptyLoc : option bool }.

Record SelectedFile : Type := MkSelected {
  selectedPath : string;
  validationResult : option ValidationResult;
}.

Record SelectionResult : Type := MkSelection {
  selBase : SelectedFile;
  selLocal : SelectedFile;
  selRemote : SelectedFile;
  selMerged : SelectedFile;
}.

(** The argument and the result of [execFilePromise]
    ([./childProcessHandy] is not among the sources). *)
Record ExecOptions : Type := MkExecOptions {
  cwd : string;
  timeout : Z;
  windowsHide : bool;
}.

Record ExecArguments : Type := MkExecArguments {
  filePath : string;
  arguments_ : list string;
  options : ExecOptions;
}.

(** [error.code] as [child_process] reports it: the exit code, a number;
    the name of a system error, a string ("ENOENT" when the program could
    not be started); [null] when the process was killed by a signal, as
    after the timeout; or nothing. *)
Inductive ErrorCode : Type :=
| CodeUndefined
| CodeNull
| CodeNumber (n : Z)
| CodeString (s : string).

Record ExecError : Type := MkExecError { code : ErrorCode }.

Record ExecResult : Type := MkExecResult {
  error : option ExecError;
  stdout : string;
  stderr : string;
}.

(** What the command does besides returning, oldest first. *)
Inductive MergerEffect : Type :=
| ExecFile (call : ExecArguments)
| ErrorMessage (message : string)
| WriteFile (path data : string)
| OpenDiffedURIs (uris : DiffedURIs) (closeActiveEditor : bool).

(** What the collaborators answer during one run of the command: the
    files the user selects, the path of Git, the result of running Git,
    and whether writing a file succeeds. *)
Record Environment : Type := MkEnvironment {
  doSelection : option SelectionResult;
  getVSCGitPathInteractively : option string;
  execFilePromise : ExecArguments → ExecResult;
  writeFile : string → string → bool;
}.

(** [selected.validationResult?.emptyLoc === true] *)
Definition has_emptyLoc (f : SelectedFile) : bool :=
  match validationResult f with
  | Some v => bool_decide (emptyLoc v = Some true)
  | None => false
  end.

Section ArbitraryFilesMerger.

(** The injected [diffLayouterManager], of which the command uses
    [openDiffedURIs] only, with the state it works on. *)
Variable ManagerState : Type.
Variable openDiffedURIs : DiffedURIs → bool → Task ManagerState bool.

(** [path.dirname], and [readonlyFileURI] of [./readonlyDocumentProvider],
    which is not among the sources. *)
Variable dirname : string → string.
Variable readonlyFileURI : string → Uri.

(** [StringToNumber] of ECMAScript, by which [<] and [>] read an operand
    that is a string; [None] is [NaN]. *)
Variable StringToNumber : string → option Z.

(** The number [<] and [>] read [error.code] as: [null] reads as 0, and
    [undefined] and a string that is no numeric literal as [NaN], for
    which both comparisons are false. *)
Definition code_number (c : ErrorCode) : option Z :=
  match c with
  | CodeUndefined => None
  | CodeNull => Some 0%Z
  | CodeNumber n => Some n
  | CodeString s => StringToNumber s
  end.

(** [error !== null && (error.code === undefined || error.code < 0 ||
    error.code > 127)] *)
Definition git_failed (gitResult : ExecResult) : bool :=
  match error gitResult with
  | None => false
  | Some e =>
      match code e with CodeUndefined => true | _ => false end
      || match code_number (code e) with
         | Some c => (c <? 0)%Z || (127 <? c)%Z
         | None => false
         end
  end.

Record MergerWorld : Type := MkMergerWorld {
  manager : ManagerState;
  mergerEffects : list MergerEffect;
}.

Definition record (e : list MergerEffect) (w : MergerWorld) : MergerWorld :=
  {| manager := manager w; mergerEffects := mergerEffects w ++ e |}.

(** [await this.diffLayouterManager.openDiffedURIs(uris, false)] *)
Definition call_openDiffedURIs (uris : DiffedURIs) (closeActiveEditor : bool)
  : Task MergerWorld bool :=
  λ w,
    let mergerEffects' := mergerEffects w ++ [OpenDiffedURIs uris closeActiveEditor] in
    match openDiffedURIs uris closeActiveEditor (manager w) with
    | Returned result m => Returned result {| manager := m; mergerEffects := mergerEffects' |}
    | Suspended m => Suspended {| manager := m; mergerEffects := mergerEffects' |}
    | Thrown e m => Thrown e {| manager := m; mergerEffects := mergerEffects' |}
    end.

Definition merge_file_call (gitPath : string) (selectionResult : SelectionResult)
  : ExecArguments :=
  {| filePath := gitPath;
     arguments_ := ["merge-file"; "--stdout";
                    selectedPath (selLocal selectionResult);
                    selectedPath (selBase selectionResult);
                    selectedPath (selRemote selectionResult)];
     options := {| cwd := dirname (selectedPath (selMerged selectionResult));
                   timeout := 10000; windowsHide := true |} |}.

Definition selected_uris (selectionResult : SelectionResult) : DiffedURIs :=
  {| base := readonlyFileURI (selectedPath (selBase selectionResult));
     local := readonlyFileURI (selectedPath (selLocal selectionResult));
     remote := readonlyFileURI (selectedPath (selRemote selectionResult));
     merged := Uri_file (selectedPath (selMerged selectionResult));
     backup := None |}.

Definition mergeArbitraryFiles (env : Environment) : Task MergerWorld bool :=
  match doSelection env with
  | None => ret false
  | Some selectionResult =>
      match getVSCGitPathInteractively env with
      | None => ret false
      | Some gitPath =>
          let mergedPath := selectedPath (selMerged selectionResult) in
          let open :=
            call_openDiffedURIs (selected_uris selectionResult) false in
          if has_emptyLoc (selMerged selectionResult) then
            let call := merge_file_call gitPath selectionResult in
            let gitResult := execFilePromise env call in
            (modify (record [ExecFile call]) ;;!
             if git_failed gitResult then
               modify (record [ErrorMessage
                              ("Error when merging files by Git: "
                               +:+ stderr gitResult +:+ ".")]) ;;!
               ret false
             else
               modify (record [WriteFile mergedPath (stdout gitResult)]) ;;!
               if writeFile env mergedPath (stdout gitResult)
               then open else ret false)%task
          else open
      end
  end.

(** A precondition step of the command fails in [env]: the selection is
    cancelled, no path of Git is found, or, where the merged location is
    empty and Git is run, Git ends with an error whose code is missing or
    reads as a number that is negative or above 127, or its output cannot
    be written. *)
Inductive PreconditionFails (env : Environment) : Prop :=
| selection_cancelled :
    doSelection env = None → PreconditionFails env
| no_git_path :
    getVSCGitPathInteractively env = None → PreconditionFails env
| git_error selectionResult gitPath e :
    doSelection env = Some selectionResult →
    getVSCGitPathInteractively env = Some gitPath →
    has_emptyLoc (selMerged selectionResult) = true →
    error (execFilePromise env (merge_file_call gitPath selectionResult))
    = Some e →
    (code e = CodeUndefined
     ∨ ∃ c, code_number (code e) = Some c ∧ (c < 0 ∨ 127 < c)%Z) →
    PreconditionFails env
| write_error selectionResult gitPath :
    doSelection env = Some selectionResult →
    getVSCGitPathInteractively env = Some gitPath →
    has_emptyLoc (selMerged selectionResult) = true →
    writeFile env (selectedPath (selMerged selectionResult))
      (stdout (execFilePromise env (merge_file_call gitPath selectionResult)))
    = false →
    PreconditionFails env.

(** The mergerEffects between two worlds of one run. *)
Definition mergerEffects_since (w w' : MergerWorld) : list MergerEffect :=
  drop (length (mergerEffects w)) (mergerEffects w').

(** The effect is a call of [openDiffedURIs]. *)
Definition opens (e : MergerEffect) : Prop :=
  match e with OpenDiffedURIs _ _ => True | _ => False end.

End ArbitraryFilesMerger.

(** Sample instances, for running the model: the user picks four files,
    the merged one not existing yet, and Git ends with exit code 255. *)
Definition sample_selection : SelectionResult :=
  {| selBase := MkSelected "/repo/a.base" None;
     selLocal := MkSelected "/repo/a.local" None;
     selRemote := MkSelected "/repo/a.remote" None;
     selMerged := MkSelected "/repo/a" (Some (MkValidation (Some true))) |}.

Definition failing_git : Environment :=
  {| doSelection := Some sample_selection;
     getVSCGitPathInteractively := Some "/usr/bin/git";
     execFilePromise :=
       λ _, {| error := Some {| code := CodeNumber 255 |}; stdout := "";
               stderr := "fatal: not a file" |};
     writeFile := λ _ _, true |}.

Definition sample_dirname (path : string) : string := "/repo".

(** A reading of strings for the samples: the empty string reads as 0, a
    string of decimal digits as its number, and every other string, the
    names of system errors among them, as no number. *)
Definition sample_StringToNumber (s : string) : option Z :=
  Z.of_uint <$> NilEmpty.uint_of_string s.

Definition sample_readonlyFileURI (path : string) : Uri :=
  {| scheme := "readonly-file"; fsPath := path |}.

End Merger.

(** ** More of the settings manager's surroundings *)

Module SettingsMore.
Import Settings.

(** The user changes a setting by hand, outside of the manager. *)
Definition user_sets (iD : string) (value : JsValue) (w : World) : World :=
  {| configuration := <[iD := value]> (configuration w);
     globalState := globalState w; monitor := monitor w;
     calls := calls w |}.

End SettingsMore.

(** The state a call ends in or is parked in. *)
Definition outcome_state {S A} (o : Outcome S A) : S :=
  match o with
  | Returned _ s => s
  | Suspended s => s
  | Thrown _ s => s
  end.

(** The monitor after its holder has left: the first waiter, if any, is
    woken up and holds it. *)
Definition after_leave (m : Monitor.t) : Monitor.t :=
  {| Monitor.owned := bool_decide (Monitor.waiters m ≠ []);
     Monitor.waiters := tail (Monitor.waiters m) |}.

(** ** More of the layout manager *)

Module LayoutsMore.
Import Layouts.

(** The enum [SearchType] of [./layouters/diffLayouter], which is not
    among the sources; the manager registers one command for each of
    [previous] and [next]. *)
Inductive SearchType : Type :=
| previous
| next.

(** What the methods below do to the editor and to the session, where
    [Layouts.Effect] has no name for it; oldest first in [notices].  The
    error messages of these methods go to the manager's [effects]. *)
Inductive Notice : Type :=
| SessionDeactivate (layouter : nat)
| SessionFocusMergeConflict (layouter : nat) (type : SearchType)
| ShowInformationMessage (message : string)
| ShowWarningMessage (message : string) (items : list string)
    (answer : option string)
| FireDidLayoutDeactivate (layouter : nat)
| ReadFile (path : string)
| CopyFile (source destination : string).

Record Editor : Type := MkEditor {
  manager : Manager;
  notices : list Notice;
}.

Definition note (n : list Notice) (e : Editor) : Editor :=
  {| manager := manager e; notices := notices e ++ n |}.

Definition with_manager (st : Manager) (e : Editor) : Editor :=
  {| manager := st; notices := notices e |}.

(** The notices between two states of one run. *)
Definition notices_since (e e' : Editor) : list Notice :=
  drop (length (notices e)) (notices e').

(** A method of the manager, run where the notices are kept too. *)
Definition on_manager {A} (t : Task Manager A) : Task Editor A :=
  λ e, match t (manager e) with
       | Returned a st => Returned a (with_manager st e)
       | Suspended st => Suspended (with_manager st e)
       | Thrown err st => Thrown err (with_manager st e)
       end.

(** [window.showErrorMessage(message)] *)
Definition show_error (message : string) (e : Editor) : Editor :=
  with_manager (log [ShowErrorMessage message] (manager e)) e.

(** [get diffedURIs()] *)
Definition manager_diffedURIs (st : Manager) : option DiffedURIs :=
  match layouter st with
  | Some l =>
      if isActivating l || isActive l then Some (diffedURIs l) else None
  | None => None
  end.

(** [this.layouter = undefined; this.layouterFactory = undefined] *)
Definition forget_session (st : Manager) : Manager :=
  {| factories := factories st; defaultFactory := defaultFactory st;
     layouterFactory := None; layouter := None;
     layouterManagerMonitor := layouterManagerMonitor st;
     switchLayoutStatusBarItem := switchLayoutStatusBarItem st;
     configuration := configuration st; effects := effects st;
     nextRef := nextRef st |}.

(** The [try] block of [deactivateLayout]; the session's [deactivate] is
    called without an argument. *)
Definition deactivateLayout_try (e : Editor) : Editor :=
  let e1 := match layouter (manager e) with
            | Some l => note [SessionDeactivate (layouterRef l)] e
            | None => e
            end in
  with_manager (forget_session (manager e1)) e1.

(** [deactivateLayout] once [enter()] has resolved. *)
Definition deactivateLayout_granted : Task Editor unit :=
  try_finally (modify deactivateLayout_try) (on_manager managerMonitor_leave).

Definition deactivateLayout (me : Monitor.Token) : Task Editor unit :=
  (on_manager (managerMonitor_enter me) ;;! deactivateLayout_granted)%task.

(** [focusMergeConflict(type)].  A [UIError] is its message ([./uIError] is
    not among the sources); [sessionResult] is what the session answers
    when it is asked. *)
Definition focusMergeConflict (type : SearchType)
    (sessionResult : string + bool) (e : Editor) : (string + bool) * Editor :=
  match layouter (manager e) with
  | Some l =>
      if isActive l
      then (sessionResult,
            note [SessionFocusMergeConflict (layouterRef l) type] e)
      else (inl "No diff layout active.", e)
  | None => (inl "No diff layout active.", e)
  end.

(** [focusMergeConflictInteractively(type)]; [None] is [undefined]. *)
Definition focusMergeConflictInteractively (type : SearchType)
    (sessionResult : string + bool) (e : Editor) : option bool * Editor :=
  let '(result, e1) := focusMergeConflict type sessionResult e in
  match result with
  | inl message => (None, show_error message e1)
  | inr false =>
      (Some false, note [ShowInformationMessage "No merge conflict found."] e1)
  | inr true => (Some true, e1)
  end.

(** [resetMergedFile()]; [copy] is the helper of [./fsHandy], which is not
    among the sources: it answers with an error message or with
    nothing. *)
Definition resetMergedFile (copy : string → string → option string)
    (e : Editor) : Editor :=
  let uris := manager_diffedURIs (manager e) in
  match layouter (manager e), uris with
  | Some _, Some uris =>
      match backup uris with
      | None => show_error "Backup file is unknown." e
      | Some backupURI =>
          let e1 := note [CopyFile (fsPath backupURI) (fsPath (merged uris))]
                      e in
          match copy (fsPath backupURI) (fsPath (merged uris)) with
          | Some message =>
              show_error ("Resetting the merged file failed: " +:+ message) e1
          | None => e1
          end
      end
  | _, _ => show_error "Reset not applicable; no merge situation opened." e
  end.

(** [this.layouter = undefined; this.deactivateSwitchLayoutStatusBarItem()] *)
Definition session_ended (st : Manager) : Manager :=
  {| factories := factories st; defaultFactory := defaultFactory st;
     layouterFactory := layouterFactory st; layouter := None;
     layouterManagerMonitor := layouterManagerMonitor st;
     switchLayoutStatusBarItem := false;
     configuration := configuration st; effects := effects st;
     nextRef := nextRef st |}.

(** Two states of the manager that differ in the configuration and the
    effects at most. *)
Definition same_session (st st' : Manager) : Prop :=
  layouter st' = layouter st
  ∧ layouterFactory st' = layouterFactory st
  ∧ layouterManagerMonitor st' = layouterManagerMonitor st
  ∧ factories st' = factories st
  ∧ defaultFactory st' = defaultFactory st
  ∧ switchLayoutStatusBarItem st' = switchLayoutStatusBarItem st
  ∧ nextRef st' = nextRef st.

(** The effect is the repair prompt or a write of the setting [iD]. *)
Definition repair_effect (iD : string) (e : Effect) : Prop :=
  match e with
  | AskUnknownLayout _ => True
  | ConfigSet iD' _ => iD' = iD
  | _ => False
  end.

(** The kinds the quick pick of [switchLayout] offers. *)
Definition offered (st : Manager) : list string :=
  settingValue <$> filter (λ f, is_current_factory f st = false)
                     (factories st).

Section Notification.

(** [extensionID] of [./ids] and [containsMergeConflictIndicators] of
    [./mergeConflictIndicatorDetector], which are not among the
    sources. *)
Variable extensionID : string.
Variable containsMergeConflictIndicators : string → bool.

(** Whether [handleLayouterDidDeactivate] gets to its warning: the deactivation did not come
    from the merge tool, and the merged file could be read and has
    conflict markers. *)
Definition asks_to_reopen (wasInitiatedByMergetool : bool)
    (text : option string) : bool :=
  negb wasInitiatedByMergetool
  && match text with
     | Some data => containsMergeConflictIndicators data
     | None => false
     end.

(** [handleLayouterDidDeactivate(layouter)].  [wasInitiatedByMergetool] is
    the session's flag, [text] what reading the merged file gives
    ([None]: the read failed), [result] the item the user picks in the
    warning ([None]: dismissed), [answers] the user's answers should
    reopening have to ask for the layout kind. *)
Definition handleLayouterDidDeactivate (me : Monitor.Token)
    (l : DiffLayouter) (wasInitiatedByMergetool : bool)
    (text : option string) (result : option string)
    (answers : list RepairAnswer) : Task Editor unit :=
  λ e,
    let e1 := note [FireDidLayoutDeactivate (layouterRef l)]
                (with_manager (session_ended (manager e)) e) in
    if wasInitiatedByMergetool then Returned tt e1
    else
      let e2 := note [ReadFile (fsPath (merged (diffedURIs l)))] e1 in
      match text with
      | Some data =>
          if containsMergeConflictIndicators data then
            let e3 :=
              note [ShowWarningMessage
                      "Merge conflict markers are included in closed file."
                      ["Reopen"; "Keep closed"] result] e2 in
            if bool_decide (result = Some "Reopen") then
              (let! opened :=
                 on_manager
                   (openDiffedURIs extensionID me (diffedURIs l) false None
                      answers) in
               if (opened : bool) then ret tt
               else modify
                      (show_error
                         "Opening failed, probably because one of the files was removed."))%task
                e3
            else Returned tt e3
          else Returned tt e2
      | None => Returned tt e2
      end.

End Notification.

(** Sample instances, for running the model: the manager of
    [active_manager] with the three-pane kind configured, the same seen
    by a caller that holds the monitor, and an editor around the first
    that has noticed nothing yet. *)
Definition configured_manager : Manager :=
  with_configuration
    (<[layoutSettingID "vscode-as-git-mergetool" := JString "3DiffToBase"]> ∅)
    active_manager.

Definition entered_manager : Manager :=
  with_managerMonitor {| Monitor.owned := true; Monitor.waiters := [] |}
    configured_manager.

Definition sample_editor : Editor :=
  {| manager := configured_manager; notices := [] |}.

(** The session of [active_manager]. *)
Definition sample_layouter : DiffLayouter :=
  {| layouterRef := 0; diffedURIs := sample_uris;
     isActive := true; isActivating := false |}.

End LayoutsMore.

(** ** More on the merge of arbitrary files *)

Module MergerMore.
Import Merger.

(** Sample instances, for running the model: the user picks the four
    files of another merge, the merged one not existing yet; Git ends
    with exit code 1, which is how [git merge-file] reports one
    conflict, and its output can be written. *)
Definition other_selection : SelectionResult :=
  {| selBase := MkSelected "/repo/b.base" None;
     selLocal := MkSelected "/repo/b.local" None;
     selRemote := MkSelected "/repo/b.remote" None;
     selMerged := MkSelected "/repo/b" (Some (MkValidation (Some true))) |}.

Definition conflicting_git : Environment :=
  {| doSelection := Some other_selection;
     getVSCGitPathInteractively := Some "/usr/bin/git";
     execFilePromise :=
       λ _, {| error := Some {| code := CodeNumber 1 |};
               stdout := "<<<<<<< /repo/b.local"; stderr := "" |};
     writeFile := λ _ _, true |}.

End MergerMore.

(** * Properties *)

(** ** Facts on the settings manager *)

Module SettingsFacts.
Import Settings.

Lemma calls_since_app w w' new :
  calls w' = calls w ++ new → calls_since w w' = new.
Proof. intros E. unfold calls_since. rewrite E. apply drop_app_length. Qed.

Lemma strict_eq_true a b : strict_eq a b = true ↔ a = b.
Proof. unfold strict_eq. apply bool_decide_eq_true. Qed.

Lemma strict_eq_false a b : strict_eq a b = false ↔ a ≠ b.
Proof. unfold strict_eq. apply bool_decide_eq_false. Qed.

Lemma strict_eq_refl a : strict_eq a a = true.
Proof. by apply strict_eq_true. Qed.

Lemma prop_insert_eq (o : StorageState) k v : prop (<[k := v]> o) k = v.
Proof. unfold prop. by rewrite lookup_insert_eq. Qed.

Lemma elem_of_Object_keys (o : StorageState) k :
  k ∈ Object_keys o ↔ is_Some (o !! k).
Proof. unfold Object_keys. by rewrite elem_of_elements, elem_of_dom. Qed.

Lemma NoDup_Object_keys (o : StorageState) : NoDup (Object_keys o).
Proof. unfold Object_keys. apply NoDup_elements. Qed.

Section Facts.

Variable extensionID : string.
Variable targetSettings : StorageState.

#[local] Abbreviation aKey := (origActualKey extensionID).
#[local] Abbreviation tKey := (origTargetKey extensionID).
#[local] Abbreviation step := (activate_iteration targetSettings).
#[local] Abbreviation turn_world := (Settings.turn_world targetSettings).
#[local] Abbreviation turn_locals := (Settings.turn_locals targetSettings).

Lemma storage_keys_differ : aKey ≠ tKey.
Proof.
  unfold origActualKey, origTargetKey. intros E.
  apply (inj (String.app extensionID)) in E. discriminate E.
Qed.

(** *** The loop over the managed keys *)

Lemma step_turn oA oT locals w x :
  step oA oT (locals, w) x = (turn_locals oA oT locals w x, turn_world w x).
Proof. reflexivity. Qed.

Lemma turn_world_configuration w x :
  configuration (turn_world w x)
  = if strict_eq (prop (configuration w) x) (prop targetSettings x)
    then configuration w
    else <[x := prop targetSettings x]> (configuration w).
Proof. unfold turn_world. by destruct (strict_eq _ _). Qed.

Lemma turn_world_prop_eq w x :
  prop (configuration (turn_world w x)) x = prop targetSettings x.
Proof.
  rewrite turn_world_configuration.
  destruct (strict_eq _ _) eqn:E; [by apply strict_eq_true in E|].
  apply prop_insert_eq.
Qed.

Lemma turn_world_lookup_ne w x k :
  x ≠ k → configuration (turn_world w x) !! k = configuration w !! k.
Proof.
  intros. rewrite turn_world_configuration.
  destruct (strict_eq _ _); [done|]. by rewrite lookup_insert_ne.
Qed.

Lemma turn_world_calls w x :
  calls (turn_world w x)
  = calls w ++ CfgGet x (prop (configuration w) x)
      :: (if strict_eq (prop (configuration w) x) (prop targetSettings x)
          then [] else [CfgSet x (prop targetSettings x)]).
Proof.
  unfold turn_world. destruct (strict_eq _ _); cbn; [done|].
  by rewrite <- app_assoc.
Qed.

Lemma turn_world_frame w x :
  globalState (turn_world w x) = globalState w
  ∧ monitor (turn_world w x) = monitor w.
Proof. unfold turn_world. by destruct (strict_eq _ _). Qed.

Lemma activate_loop_frame oA oT ids locals w :
  let r := foldl (step oA oT) (locals, w) ids in
  globalState r.2 = globalState w ∧ monitor r.2 = monitor w.
Proof.
  revert locals w. induction ids as [|x xs IH]; intros locals w; [done|].
  cbn [foldl]. rewrite step_turn.
  destruct (IH (turn_locals oA oT locals w x) (turn_world w x)) as [-> ->].
  apply turn_world_frame.
Qed.

(** Keys the loop does not visit keep their setting, and get no entry in
    the new snapshots. *)
Lemma activate_loop_other oA oT ids locals w k :
  k ∉ ids →
  let r := foldl (step oA oT) (locals, w) ids in
  configuration r.2 !! k = configuration w !! k
  ∧ newOrigActual r.1 !! k = newOrigActual locals !! k
  ∧ newOrigTarget r.1 !! k = newOrigTarget locals !! k.
Proof.
  revert locals w. induction ids as [|x xs IH]; intros locals w Hk; [done|].
  apply not_elem_of_cons in Hk as [Hne Hk].
  cbn [foldl]. rewrite step_turn.
  destruct (IH (turn_locals oA oT locals w x) (turn_world w x) Hk)
    as (-> & -> & ->).
  rewrite turn_world_lookup_ne by done. cbn.
  by rewrite !lookup_insert_ne.
Qed.

(** A visited key ends at its target, and the snapshots remember what the
    code decided for it from the setting it had when the loop began. *)
Lemma activate_loop_key oA oT ids locals w k :
  NoDup ids → k ∈ ids →
  let r := foldl (step oA oT) (locals, w) ids in
  let live := prop (configuration w) k in
  prop (configuration r.2) k = prop targetSettings k
  ∧ newOrigActual r.1 !! k
    = Some (if strict_eq live (prop oT k) then prop oA k else live)
  ∧ newOrigTarget r.1 !! k = Some (prop targetSettings k).
Proof.
  revert locals w. induction ids as [|x xs IH]; intros locals w Hnd Hk.
  { by apply elem_of_nil in Hk. }
  apply NoDup_cons in Hnd as [Hx Hnd].
  cbn [foldl]. rewrite step_turn.
  destruct (decide (k = x)) as [->|Hne].
  - destruct (activate_loop_other oA oT xs (turn_locals oA oT locals w x)
                (turn_world w x) x Hx) as (E1 & -> & ->).
    cbn zeta in *. split; [|cbn; by rewrite !lookup_insert_eq].
    rewrite <- (turn_world_prop_eq w x). unfold prop. by rewrite E1.
  - apply elem_of_cons in Hk as [?|Hk]; [done|].
    assert (prop (configuration (turn_world w x)) k
            = prop (configuration w) k) as Hlive.
    { unfold prop. by rewrite turn_world_lookup_ne. }
    destruct (IH (turn_locals oA oT locals w x) (turn_world w x) Hnd Hk)
      as (E1 & E2 & E3).
    cbn zeta in *. by rewrite Hlive in E2.
Qed.

Lemma activate_loop_obsolete oA oT ids locals w :
  obsoleteSettingKeys (foldl (step oA oT) (locals, w) ids).1
  = obsoleteSettingKeys locals ∖ list_to_set ids.
Proof.
  revert locals w. induction ids as [|x xs IH]; intros locals w.
  { cbn. apply set_eq. intros k.
    rewrite elem_of_difference, elem_of_empty. tauto. }
  cbn [foldl]. rewrite step_turn, IH. cbn. apply set_eq. intros k.
  rewrite !elem_of_difference, elem_of_union, elem_of_singleton. tauto.
Qed.

(** The loop only appends calls; it reads each visited key once, and what
    it reads is the setting the key had when the loop began. *)
Lemma activate_loop_calls oA oT ids locals w :
  NoDup ids →
  ∃ new, calls (foldl (step oA oT) (locals, w) ids).2 = calls w ++ new
    ∧ (∀ k v, CfgGet k v ∈ new ↔ k ∈ ids ∧ v = prop (configuration w) k)
    ∧ (∀ k v, CfgSet k v ∈ new → k ∈ ids).
Proof.
  revert locals w. induction ids as [|x xs IH]; intros locals w Hnd.
  { exists []. cbn. rewrite app_nil_r. split; [done|].
    split; [|by intros k v Hin%elem_of_nil].
    intros k v. split; [by intros Hin%elem_of_nil|].
    by intros [Hin%elem_of_nil _]. }
  apply NoDup_cons in Hnd as [Hx Hnd].
  cbn [foldl]. rewrite step_turn.
  destruct (IH (turn_locals oA oT locals w x) (turn_world w x) Hnd)
    as (new & -> & Hget & Hset).
  rewrite turn_world_calls, <- app_assoc. eexists. split; [done|].
  split.
  - intros k v. rewrite elem_of_app, elem_of_cons, Hget, elem_of_cons.
    assert (k ∈ xs → prop (configuration (turn_world w x)) k
                     = prop (configuration w) k) as Hlive.
    { intros Hin. unfold prop. rewrite turn_world_lookup_ne; [done|].
      by intros ->. }
    split.
    + intros [[E|Hin]|[Hin ->]].
      * injection E as -> ->. split; [by left|done].
      * destruct (strict_eq _ _); [by apply elem_of_nil in Hin|].
        by apply list_elem_of_singleton in Hin.
      * split; [by right|by apply Hlive].
    + intros [[->|Hin] ->]; [by left; left|].
      right. split; [done|]. symmetry. by apply Hlive.
  - intros k v. rewrite elem_of_app, elem_of_cons, elem_of_cons.
    intros [[E|Hin]|Hin]; [done| |right; by eapply Hset].
    destruct (strict_eq _ _); [by apply elem_of_nil in Hin|].
    apply list_elem_of_singleton in Hin. injection Hin as -> _. by left.
Qed.

(** A key that is at its target already is not written. *)
Lemma activate_loop_at_target oA oT ids locals w k :
  prop (configuration w) k = prop targetSettings k →
  configuration (foldl (step oA oT) (locals, w) ids).2 !! k
  = configuration w !! k.
Proof.
  revert locals w. induction ids as [|x xs IH]; intros locals w Hk; [done|].
  cbn [foldl]. rewrite step_turn.
  assert (configuration (turn_world w x) !! k = configuration w !! k) as E.
  { rewrite turn_world_configuration.
    destruct (strict_eq _ _) eqn:Hx; [done|].
    apply strict_eq_false in Hx. rewrite lookup_insert_ne; [done|].
    by intros ->. }
  rewrite IH; [done|]. unfold prop. by rewrite E.
Qed.

(** *** The loop over the obsolete keys *)

Lemma obsolete_loop_frame oA ids w :
  let w' := foldl (restore_obsolete oA) w ids in
  globalState w' = globalState w ∧ monitor w' = monitor w.
Proof.
  revert w. induction ids as [|x xs IH]; intros w; [done|].
  cbn [foldl]. by destruct (IH (restore_obsolete oA w x)) as [-> ->].
Qed.

Lemma obsolete_loop_other oA ids w k :
  k ∉ ids →
  configuration (foldl (restore_obsolete oA) w ids) !! k
  = configuration w !! k.
Proof.
  revert w. induction ids as [|x xs IH]; intros w Hk; [done|].
  apply not_elem_of_cons in Hk as [Hne Hk].
  cbn [foldl]. rewrite IH by done. cbn. by rewrite lookup_insert_ne.
Qed.

Lemma obsolete_loop_key oA ids w k :
  k ∈ ids →
  configuration (foldl (restore_obsolete oA) w ids) !! k
  = Some (prop oA k).
Proof.
  revert w. induction ids as [|x xs IH]; intros w Hk.
  { by apply elem_of_nil in Hk. }
  cbn [foldl]. destruct (decide (k ∈ xs)) as [Hin|Hout]; [by apply IH|].
  apply elem_of_cons in Hk as [->|?]; [|done].
  rewrite obsolete_loop_other by done. cbn. by rewrite lookup_insert_eq.
Qed.

Lemma obsolete_loop_calls oA ids w :
  calls (foldl (restore_obsolete oA) w ids)
  = calls w ++ map (λ iD, CfgSet iD (prop oA iD)) ids.
Proof.
  revert w. induction ids as [|x xs IH]; intros w.
  { cbn. by rewrite app_nil_r. }
  cbn [foldl]. rewrite IH. cbn. by rewrite <- app_assoc.
Qed.

(** *** The loop of [resetSettings] *)

Lemma reset_iteration_configuration oA oT w x :
  configuration (reset_iteration oA oT w x)
  = if strict_eq (prop (configuration w) x) (prop oT x)
    then <[x := prop oA x]> (configuration w) else configuration w.
Proof. unfold reset_iteration. cbn. by destruct (strict_eq _ _). Qed.

Lemma reset_iteration_calls oA oT w x :
  calls (reset_iteration oA oT w x)
  = calls w ++ CfgGet x (prop (configuration w) x)
      :: (if strict_eq (prop (configuration w) x) (prop oT x)
          then [CfgSet x (prop oA x)] else []).
Proof.
  unfold reset_iteration. cbn. destruct (strict_eq _ _); cbn; [|done].
  by rewrite <- app_assoc.
Qed.

Lemma reset_iteration_frame oA oT w x :
  globalState (reset_iteration oA oT w x) = globalState w
  ∧ monitor (reset_iteration oA oT w x) = monitor w.
Proof. unfold reset_iteration. cbn. by destruct (strict_eq _ _). Qed.

Lemma reset_iteration_lookup_ne oA oT w x k :
  x ≠ k →
  configuration (reset_iteration oA oT w x) !! k = configuration w !! k.
Proof.
  intros. rewrite reset_iteration_configuration.
  destruct (strict_eq _ _); [|done]. by rewrite lookup_insert_ne.
Qed.

Lemma reset_loop_frame oA oT ids w :
  let w' := foldl (reset_iteration oA oT) w ids in
  globalState w' = globalState w ∧ monitor w' = monitor w.
Proof.
  revert w. induction ids as [|x xs IH]; intros w; [done|].
  cbn [foldl]. destruct (IH (reset_iteration oA oT w x)) as [-> ->].
  apply reset_iteration_frame.
Qed.

Lemma reset_loop_other oA oT ids w k :
  k ∉ ids →
  configuration (foldl (reset_iteration oA oT) w ids) !! k
  = configuration w !! k.
Proof.
  revert w. induction ids as [|x xs IH]; intros w Hk; [done|].
  apply not_elem_of_cons in Hk as [Hne Hk].
  cbn [foldl]. rewrite IH by done. by apply reset_iteration_lookup_ne.
Qed.

(** A key of the snapshot goes back to its remembered value exactly when
    its setting is still the remembered target. *)
Lemma reset_loop_key oA oT ids w k :
  NoDup ids → k ∈ ids →
  prop (configuration (foldl (reset_iteration oA oT) w ids)) k
  = if strict_eq (prop (configuration w) k) (prop oT k)
    then prop oA k else prop (configuration w) k.
Proof.
  revert w. induction ids as [|x xs IH]; intros w Hnd Hk.
  { by apply elem_of_nil in Hk. }
  apply NoDup_cons in Hnd as [Hx Hnd]. cbn [foldl].
  destruct (decide (k = x)) as [->|Hne].
  - unfold prop at 1. rewrite reset_loop_other by done.
    rewrite reset_iteration_configuration.
    destruct (strict_eq _ _); [|done]. by rewrite lookup_insert_eq.
  - apply elem_of_cons in Hk as [?|Hk]; [done|].
    rewrite IH by done. unfold prop at 1 3 4.
    by rewrite reset_iteration_lookup_ne.
Qed.

(** A key whose setting is not the remembered target is never written,
    however often the loop meets it. *)
Lemma reset_loop_preserves oA oT ids w k :
  prop (configuration w) k ≠ prop oT k →
  let w' := foldl (reset_iteration oA oT) w ids in
  configuration w' !! k = configuration w !! k
  ∧ ∃ new, calls w' = calls w ++ new ∧ ∀ v, CfgSet k v ∉ new.
Proof.
  revert w. induction ids as [|x xs IH]; intros w Hk.
  { split; [done|]. exists []. cbn. rewrite app_nil_r. split; [done|].
    intros v. apply not_elem_of_nil. }
  cbn [foldl].
  assert (configuration (reset_iteration oA oT w x) !! k
          = configuration w !! k) as Hsame.
  { rewrite reset_iteration_configuration.
    destruct (strict_eq _ _) eqn:E; [|done].
    apply strict_eq_true in E. rewrite lookup_insert_ne; [done|].
    by intros ->. }
  destruct (IH (reset_iteration oA oT w x)) as (E1 & new & E2 & Hnew).
  { unfold prop. by rewrite Hsame. }
  cbn zeta in *. split; [by rewrite E1|].
  rewrite E2, reset_iteration_calls, <- app_assoc.
  eexists. split; [done|]. intros v.
  rewrite elem_of_app, elem_of_cons. intros [[?|Hin]|Hin]; [done| |by eapply Hnew].
  destruct (strict_eq _ _) eqn:E; [|by apply elem_of_nil in Hin].
  apply strict_eq_true in E. apply list_elem_of_singleton in Hin.
  injection Hin as -> _. done.
Qed.

(** *** The two methods *)

#[local] Abbreviation activateSettings :=
  (Settings.activateSettings extensionID targetSettings).
#[local] Abbreviation activateSettings_body :=
  (Settings.activateSettings_body extensionID targetSettings).
#[local] Abbreviation resetSettings := (Settings.resetSettings extensionID).
#[local] Abbreviation resetSettings_body :=
  (Settings.resetSettings_body extensionID).
#[local] Abbreviation targetIDs := (Settings.targetIDs targetSettings).

(** The monitor as its holder sees it when nobody else waits. *)
#[local] Abbreviation held := (Monitor.Make true []).

Lemma activateSettings_body_eq w :
  let oA := getStorageState aKey w in
  let oT := getStorageState tKey w in
  let r := foldl (step oA oT)
             (MkLocals ∅ ∅ (list_to_set (Object_keys oA)), w) targetIDs in
  activateSettings_body w
  = setStorageState tKey (Some (newOrigTarget r.1))
      (setStorageState aKey (Some (newOrigActual r.1))
         (foldl (restore_obsolete oA) r.2
            (elements (obsoleteSettingKeys r.1)))).
Proof.
  unfold Settings.activateSettings_body. cbn zeta.
  by destruct (foldl _ _ _).
Qed.

(** What one run of the [try] block of [activateSettings] does. *)
Lemma activateSettings_body_spec w :
  let oA := getStorageState aKey w in
  let oT := getStorageState tKey w in
  let w' := activateSettings_body w in
  let remembered k :=
    if strict_eq (prop (configuration w) k) (prop oT k)
    then prop oA k else prop (configuration w) k in
  monitor w' = monitor w
  ∧ (∀ k, k ∈ targetIDs →
       prop (configuration w') k = prop targetSettings k
       ∧ (prop (configuration w) k = prop targetSettings k →
          configuration w' !! k = configuration w !! k))
  ∧ (∀ k, k ∉ targetIDs → k ∈ Object_keys oA →
       configuration w' !! k = Some (prop oA k))
  ∧ (∀ k, k ∉ targetIDs → k ∉ Object_keys oA →
       configuration w' !! k = configuration w !! k)
  ∧ (∀ k, getStorageState aKey w' !! k
          = if decide (k ∈ targetIDs) then Some (remembered k) else None)
  ∧ (∀ k, getStorageState tKey w' !! k
          = if decide (k ∈ targetIDs) then Some (prop targetSettings k)
            else None)
  ∧ (∃ nA nT, globalState w' = <[tKey := nT]> (<[aKey := nA]> (globalState w)))
  ∧ ∃ new, calls w' = calls w ++ new
      ∧ (∀ k v, CfgGet k v ∈ new
                ↔ k ∈ targetIDs ∧ v = prop (configuration w) k)
      ∧ (∀ k, k ∉ targetIDs → k ∈ Object_keys oA →
           CfgSet k (prop oA k) ∈ new).
Proof.
  intros oA oT w' remembered. subst w'. rewrite activateSettings_body_eq.
  fold oA oT.
  set (locals0 := MkLocals ∅ ∅ (list_to_set (Object_keys oA))).
  set (r := foldl (step oA oT) (locals0, w) targetIDs).
  set (obs := elements (obsoleteSettingKeys r.1)).
  pose proof (NoDup_Object_keys targetSettings) as Hnd.
  assert (∀ k, k ∈ obs ↔ k ∈ Object_keys oA ∧ k ∉ targetIDs) as Hobs.
  { intros k. unfold obs, r. rewrite elem_of_elements, activate_loop_obsolete.
    cbn. rewrite elem_of_difference, !elem_of_list_to_set. done. }
  destruct (activate_loop_frame oA oT targetIDs locals0 w) as [Hg Hm].
  destruct (obsolete_loop_frame oA obs r.2) as [Hg' Hm'].
  fold r in Hg, Hm. cbn zeta in *.
  split; [cbn; congruence|].
  split.
  { intros k Hk. cbn. unfold prop at 1.
    rewrite obsolete_loop_other by (rewrite Hobs; tauto).
    split; [|by apply activate_loop_at_target].
    by destruct (activate_loop_key oA oT targetIDs locals0 w k Hnd Hk)
      as (? & _). }
  split.
  { intros k Hk1 Hk2. cbn. apply obsolete_loop_key. by apply Hobs. }
  split.
  { intros k Hk1 Hk2. cbn.
    rewrite obsolete_loop_other by (rewrite Hobs; tauto).
    by destruct (activate_loop_other oA oT targetIDs locals0 w k Hk1)
      as (? & _). }
  split.
  { intros k. unfold getStorageState, setStorageState. cbn.
    rewrite lookup_insert_ne by (apply not_eq_sym, storage_keys_differ).
    rewrite lookup_insert_eq. cbn. case_decide as Hk.
    - by destruct (activate_loop_key oA oT targetIDs locals0 w k Hnd Hk)
        as (_ & ? & _).
    - destruct (activate_loop_other oA oT targetIDs locals0 w k Hk)
        as (_ & E & _). fold r in E. by rewrite E. }
  split.
  { intros k. unfold getStorageState, setStorageState. cbn.
    rewrite lookup_insert_eq. cbn. case_decide as Hk.
    - by destruct (activate_loop_key oA oT targetIDs locals0 w k Hnd Hk)
        as (_ & _ & ?).
    - destruct (activate_loop_other oA oT targetIDs locals0 w k Hk)
        as (_ & _ & E). fold r in E. by rewrite E. }
  split.
  { exists (newOrigActual r.1), (newOrigTarget r.1). cbn.
    by rewrite Hg', Hg. }
  destruct (activate_loop_calls oA oT targetIDs locals0 w Hnd)
    as (new & Hnew & Hget & Hset).
  fold r in Hnew. cbn. rewrite obsolete_loop_calls, Hnew, <- app_assoc.
  eexists. split; [done|]. split.
  - intros k v. rewrite elem_of_app, Hget, list_elem_of_fmap.
    split; [|tauto]. intros [?|(? & ? & _)]; done.
  - intros k Hk1 Hk2. apply elem_of_app. right.
    apply list_elem_of_fmap. exists k. split; [done|]. by apply Hobs.
Qed.

Lemma resetSettings_body_spec w :
  let oA := getStorageState aKey w in
  let oT := getStorageState tKey w in
  let w' := resetSettings_body w in
  monitor w' = monitor w
  ∧ globalState w' = delete tKey (delete aKey (globalState w))
  ∧ (∀ k, k ∈ Object_keys oA →
       prop (configuration w') k
       = if strict_eq (prop (configuration w) k) (prop oT k)
         then prop oA k else prop (configuration w) k)
  ∧ (∀ k, k ∉ Object_keys oA →
       configuration w' !! k = configuration w !! k)
  ∧ (∀ k, prop (configuration w) k ≠ prop oT k →
       configuration w' !! k = configuration w !! k
       ∧ ∃ new, calls w' = calls w ++ new ∧ ∀ v, CfgSet k v ∉ new).
Proof.
  intros oA oT w'. subst w'. unfold Settings.resetSettings_body.
  fold oA oT. cbn.
  destruct (reset_loop_frame oA oT (Object_keys oA) w) as [Hg Hm].
  cbn zeta in *.
  split; [done|]. split; [by rewrite Hg|].
  split; [intros k Hk; by apply reset_loop_key, Hk; apply NoDup_Object_keys|].
  split; [intros k Hk; by apply reset_loop_other|].
  intros k Hk. by apply reset_loop_preserves.
Qed.

(** A call on a free monitor runs its [try] block and frees the monitor
    again. *)
Lemma activateSettings_free me w :
  monitor w = Monitor.create →
  activateSettings me w
  = Returned tt
      (with_monitor Monitor.create
         (activateSettings_body (with_monitor held w))).
Proof.
  intros Hfree.
  unfold Settings.activateSettings, bind, monitor_enter. rewrite Hfree. cbn.
  unfold activateSettings_granted, try_finally, modify, monitor_leave.
  destruct (activateSettings_body_spec (with_monitor held w)) as (-> & _).
  reflexivity.
Qed.

Lemma resetSettings_free me w :
  monitor w = Monitor.create →
  resetSettings me w
  = Returned tt
      (with_monitor Monitor.create
         (resetSettings_body (with_monitor held w))).
Proof.
  intros Hfree.
  unfold Settings.resetSettings, bind, monitor_enter. rewrite Hfree. cbn.
  unfold resetSettings_granted, try_finally, modify, monitor_leave.
  destruct (resetSettings_body_spec (with_monitor held w)) as (-> & _).
  reflexivity.
Qed.

(** *** Claims on [activateSettings] and [resetSettings] *)

(** C6.  For a managed key [k], [activateSettings] reads the setting once,
    and the value it reads is the one that was live when the call began;
    the new [origActual[k]] is the old [origActual[k]] when that value is
    the old [origTarget[k]], and the value read otherwise.  Nothing in
    this depends on whether [k] had to be overridden. *)
Theorem activateSettings_original_value me w k :
  monitor w = Monitor.create →
  k ∈ targetIDs →
  ∃ w', activateSettings me w = Returned tt w'
    ∧ let live := prop (configuration w) k in
      let oldOrigActual := getStorageState aKey w in
      let oldOrigTarget := getStorageState tKey w in
      (∀ v, CfgGet k v ∈ calls_since w w' ↔ v = live)
      ∧ getStorageState aKey w' !! k
        = Some (if strict_eq live (prop oldOrigTarget k)
                then prop oldOrigActual k else live).
Proof.
  intros Hfree Hk. eexists. split; [by apply activateSettings_free|].
  destruct (activateSettings_body_spec (with_monitor held w))
    as (_ & _ & _ & _ & HA & _ & _ & new & Hnew & Hget & _).
  cbn zeta. split.
  - intros v. rewrite (calls_since_app _ _ new) by exact Hnew.
    rewrite Hget. cbn. tauto.
  - specialize (HA k). rewrite decide_True in HA by done. exact HA.
Qed.

(** C4.  A key of the old [origActual] snapshot that is no longer managed
    is written back to its remembered value by [activateSettings], and
    the new snapshots have no entry for it. *)
Theorem activateSettings_restores_obsolete me w k :
  monitor w = Monitor.create →
  k ∈ Object_keys (getStorageState aKey w) →
  k ∉ targetIDs →
  ∃ w', activateSettings me w = Returned tt w'
    ∧ let oldOrigActual := getStorageState aKey w in
      CfgSet k (prop oldOrigActual k) ∈ calls_since w w'
      ∧ configuration w' !! k = Some (prop oldOrigActual k)
      ∧ getStorageState aKey w' !! k = None
      ∧ getStorageState tKey w' !! k = None.
Proof.
  intros Hfree Hold Hk. eexists. split; [by apply activateSettings_free|].
  destruct (activateSettings_body_spec (with_monitor held w))
    as (_ & _ & Hobs & _ & HA & HT & _ & new & Hnew & _ & Hset).
  cbn zeta. split; [|split; [|split]].
  - rewrite (calls_since_app _ _ new) by exact Hnew. by apply Hset.
  - by apply Hobs.
  - specialize (HA k). by rewrite decide_False in HA.
  - specialize (HT k). by rewrite decide_False in HT.
Qed.

(** C3.  A key whose live setting differs from the remembered target
    [origTarget[k]] when [resetSettings] runs is not written by it, and
    keeps the value the user gave it.  This holds for every key, in the
    [origActual] snapshot or not. *)
Theorem resetSettings_keeps_manual_edit me w k :
  monitor w = Monitor.create →
  prop (configuration w) k ≠ prop (getStorageState tKey w) k →
  ∃ w', resetSettings me w = Returned tt w'
    ∧ (∀ v, CfgSet k v ∉ calls_since w w')
    ∧ configuration w' !! k = configuration w !! k.
Proof.
  intros Hfree Hk. eexists. split; [by apply resetSettings_free|].
  destruct (resetSettings_body_spec (with_monitor held w))
    as (_ & _ & _ & _ & Hkeep).
  destruct (Hkeep k Hk) as (Hcfg & new & Hnew & Hnone).
  split; [|exact Hcfg].
  intros v. by rewrite (calls_since_app _ _ new) by exact Hnew.
Qed.

(** Two activations in a row, and an activation followed by a reset,
    spelled out on the [try] blocks. *)
Lemma getStorageState_ext key w w' :
  globalState w' = globalState w →
  getStorageState key w' = getStorageState key w.
Proof. unfold getStorageState. by intros ->. Qed.

Lemma activate_twice_body w w1' :
  let w1 := activateSettings_body w in
  configuration w1' = configuration w1 →
  globalState w1' = globalState w1 →
  let w2 := activateSettings_body w1' in
  configuration w2 = configuration w1 ∧ globalState w2 = globalState w1.
Proof.
  intros w1 Ec Eg w2.
  destruct (activateSettings_body_spec w)
    as (_ & Hman & _ & _ & HA & HT & (nA & nT & Hg) & _).
  destruct (activateSettings_body_spec w1')
    as (_ & Hman' & Hobs' & Hoth' & HA' & HT' & (nA' & nT' & Hg') & _).
  fold w1 in Hman, HA, HT, Hg. fold w2 in Hman', Hobs', Hoth', HA', HT', Hg'.
  cbn zeta in *.
  rewrite !(getStorageState_ext _ w1 w1') in * by done.
  rewrite Ec, Eg in *.
  assert (∀ k, k ∉ targetIDs → k ∉ Object_keys (getStorageState aKey w1))
    as Hdom.
  { intros k Hk. rewrite elem_of_Object_keys, HA, decide_False by done.
    by intros [? ?]. }
  split.
  - apply map_eq. intros k. destruct (decide (k ∈ targetIDs)) as [Hk|Hk].
    + apply Hman'; [done|]. by apply Hman.
    + apply Hoth'; [done|]. by apply Hdom.
  - assert (getStorageState aKey w2 = getStorageState aKey w1) as EA.
    { apply map_eq. intros k. rewrite HA', HA. case_decide as Hk; [|done].
      destruct (Hman k Hk) as [-> _]. unfold prop at 2. rewrite HT.
      rewrite decide_True by done. cbn. rewrite strict_eq_refl.
      unfold prop at 1. rewrite HA, decide_True by done. done. }
    assert (getStorageState tKey w2 = getStorageState tKey w1) as ET.
    { apply map_eq. intros k. by rewrite HT', HT. }
    assert (nA' = nA ∧ nT' = nT) as [-> ->].
    { unfold getStorageState in EA, ET. rewrite Hg', Hg in EA, ET.
      pose proof storage_keys_differ as Hne.
      rewrite !lookup_insert_eq in ET.
      rewrite !(lookup_insert_ne _ tKey aKey), !lookup_insert_eq in EA
        by done.
      by cbn in *. }
    rewrite Hg', Hg. apply map_eq. intros key.
    rewrite !lookup_insert. repeat case_decide; done.
Qed.

Lemma activate_reset_body w w1' :
  let oA := getStorageState aKey w in
  let oT := getStorageState tKey w in
  let w1 := activateSettings_body w in
  configuration w1' = configuration w1 →
  globalState w1' = globalState w1 →
  let w2 := resetSettings_body w1' in
  globalState w2 !! aKey = None ∧ globalState w2 !! tKey = None
  ∧ ∀ k, k ∈ targetIDs →
      prop (configuration w2) k
      = if strict_eq (prop (configuration w) k) (prop oT k)
        then prop oA k else prop (configuration w) k.
Proof.
  intros oA oT w1 Ec Eg w2. subst w2.
  destruct (activateSettings_body_spec w)
    as (_ & Hman & _ & _ & HA & HT & _).
  destruct (resetSettings_body_spec w1') as (_ & Hg & Hkey & _).
  fold w1 in Hman, HA, HT. cbn zeta in *.
  rewrite !(getStorageState_ext _ w1 w1') in * by done.
  rewrite Ec in *. rewrite Hg.
  split; [by rewrite lookup_delete_ne, lookup_delete_eq
            by apply not_eq_sym, storage_keys_differ|].
  split; [by rewrite lookup_delete_eq|].
  intros k Hk. rewrite Hkey.
  2: { rewrite elem_of_Object_keys, HA, decide_True by done. by eexists. }
  destruct (Hman k Hk) as [-> _].
  unfold prop at 2 3. rewrite HT, HA, !decide_True by done. cbn.
  by rewrite strict_eq_refl.
Qed.

(** C5.  A second [activateSettings] right after a first one changes
    neither the configuration nor the persisted snapshots. *)
Theorem activateSettings_idempotent me me' w :
  monitor w = Monitor.create →
  ∃ w1 w2, activateSettings me w = Returned tt w1
    ∧ activateSettings me' w1 = Returned tt w2
    ∧ configuration w2 = configuration w1
    ∧ globalState w2 = globalState w1
    ∧ getStorageState aKey w2 = getStorageState aKey w1
    ∧ getStorageState tKey w2 = getStorageState tKey w1.
Proof.
  intros Hfree. eexists _, _.
  split; [by apply activateSettings_free|].
  split; [by apply activateSettings_free|].
  destruct (activate_twice_body (with_monitor held w)
              (with_monitor held
                 (with_monitor Monitor.create
                    (activateSettings_body (with_monitor held w)))))
    as [Hc Hg]; [done..|].
  cbn zeta in *. unfold getStorageState. cbn. by rewrite Hg.
Qed.

(** C1, as the code has it.  After [activateSettings] and then
    [resetSettings], both snapshot entries are absent, and a managed key
    is back at the value it had before the activation, unless that value
    was the old [origTarget[k]]: then the key is at the old
    [origActual[k]].  When nothing was persisted before the activation,
    every managed key is back at its value. *)
Theorem activate_then_reset me me' w :
  monitor w = Monitor.create →
  ∃ w1 w2, activateSettings me w = Returned tt w1
    ∧ resetSettings me' w1 = Returned tt w2
    ∧ globalState w2 !! aKey = None
    ∧ globalState w2 !! tKey = None
    ∧ (∀ k, k ∈ targetIDs →
         let live := prop (configuration w) k in
         prop (configuration w2) k
         = if strict_eq live (prop (getStorageState tKey w) k)
           then prop (getStorageState aKey w) k else live)
    ∧ (globalState w !! aKey = None → globalState w !! tKey = None →
       ∀ k, k ∈ targetIDs →
         prop (configuration w2) k = prop (configuration w) k).
Proof.
  intros Hfree. eexists _, _.
  split; [by apply activateSettings_free|].
  split; [by apply resetSettings_free|].
  destruct (activate_reset_body (with_monitor held w)
              (with_monitor held
                 (with_monitor Monitor.create
                    (activateSettings_body (with_monitor held w))))
              eq_refl eq_refl) as (HA & HT & Hkeys).
  split_and!; [done..|].
  intros EA ET k Hk. etrans; [exact (Hkeys k Hk)|].
  unfold getStorageState. cbn. rewrite EA, ET. cbn.
  destruct (strict_eq _ _) eqn:E; [|done].
  by apply strict_eq_true in E.
Qed.

End Facts.

(** *** The claims at sample worlds *)

#[local] Abbreviation eID := sampleExtensionID.
#[local] Abbreviation tS := defaultTargetSettings.

Lemma activateSettings_original_value_witness :
  ∃ w', activateSettings eID tS 1 fresh_world = Returned tt w'
    ∧ (∀ v, CfgGet "editor.lineNumbers" v ∈ calls_since fresh_world w'
            ↔ v = JString "on")
    ∧ getStorageState (origActualKey eID) w' !! "editor.lineNumbers"
      = Some (JString "on").
Proof.
  apply (activateSettings_original_value eID tS 1 fresh_world
           "editor.lineNumbers").
  - reflexivity.
  - apply (bool_decide_unpack _). vm_compute. exact I.
Defined.

Lemma activateSettings_restores_obsolete_witness :
  ∃ w', activateSettings eID tS 1 interrupted_world = Returned tt w'
    ∧ CfgSet "editor.minimap.enabled" (JBool true)
        ∈ calls_since interrupted_world w'
    ∧ configuration w' !! "editor.minimap.enabled" = Some (JBool true)
    ∧ getStorageState (origActualKey eID) w' !! "editor.minimap.enabled"
      = None
    ∧ getStorageState (origTargetKey eID) w' !! "editor.minimap.enabled"
      = None.
Proof.
  apply (activateSettings_restores_obsolete eID tS 1 interrupted_world
           "editor.minimap.enabled").
  - reflexivity.
  - apply (bool_decide_unpack _). vm_compute. exact I.
  - apply (bool_decide_unpack _). vm_compute. exact I.
Defined.

Lemma resetSettings_keeps_manual_edit_witness :
  ∃ w', resetSettings eID 1 edited_world = Returned tt w'
    ∧ (∀ v, CfgSet "editor.lineNumbers" v ∉ calls_since edited_world w')
    ∧ configuration w' !! "editor.lineNumbers"
      = configuration edited_world !! "editor.lineNumbers".
Proof.
  apply (resetSettings_keeps_manual_edit eID 1 edited_world
           "editor.lineNumbers").
  - reflexivity.
  - vm_compute. discriminate.
Defined.

Lemma activateSettings_idempotent_witness :
  ∃ w1 w2, activateSettings eID tS 1 fresh_world = Returned tt w1
    ∧ activateSettings eID tS 2 w1 = Returned tt w2
    ∧ configuration w2 = configuration w1
    ∧ globalState w2 = globalState w1
    ∧ getStorageState (origActualKey eID) w2
      = getStorageState (origActualKey eID) w1
    ∧ getStorageState (origTargetKey eID) w2
      = getStorageState (origTargetKey eID) w1.
Proof.
  apply (activateSettings_idempotent eID tS 1 2 fresh_world). reflexivity.
Defined.

Lemma activate_then_reset_witness :
  ∃ w1 w2, activateSettings eID tS 1 fresh_world = Returned tt w1
    ∧ resetSettings eID 2 w1 = Returned tt w2
    ∧ globalState w2 !! origActualKey eID = None
    ∧ globalState w2 !! origTargetKey eID = None
    ∧ (∀ k, k ∈ targetIDs tS →
         let live := prop (configuration fresh_world) k in
         prop (configuration w2) k
         = if strict_eq live
                (prop (getStorageState (origTargetKey eID) fresh_world) k)
           then prop (getStorageState (origActualKey eID) fresh_world) k
           else live)
    ∧ (globalState fresh_world !! origActualKey eID = None →
       globalState fresh_world !! origTargetKey eID = None →
       ∀ k, k ∈ targetIDs tS →
         prop (configuration w2) k = prop (configuration fresh_world) k).
Proof.
  apply (activate_then_reset eID tS 1 2 fresh_world). reflexivity.
Defined.

(** The example of the specification: managed keys [A] and [B], of which
    [A] has to be overridden.  Both keys get an entry in [origActual]. *)
Example activate_then_reset_example :
  let tS := <["A" := JBool false]> (<["B" := JString "none"]> ∅) in
  let w := {| configuration :=
                <["A" := JBool true]> (<["B" := JString "none"]> ∅);
              globalState := ∅; monitor := Monitor.create; calls := [] |} in
  ∃ w1 w2, activateSettings eID tS 1 w = Returned tt w1
    ∧ configuration w1 = tS
    ∧ getStorageState (origActualKey eID) w1 = configuration w
    ∧ getStorageState (origTargetKey eID) w1 = tS
    ∧ resetSettings eID 2 w1 = Returned tt w2
    ∧ configuration w2 = configuration w
    ∧ globalState w2 = ∅.
Proof.
  cbn zeta. eexists _, _.
  split; [by apply activateSettings_free|].
  split; [by vm_compute|]. split; [by vm_compute|]. split; [by vm_compute|].
  split; [by apply resetSettings_free|].
  split; by vm_compute.
Qed.

(** C1 as the specification states it fails at [interrupted_world]:
    side-by-side rendering is off before the activation and on after the
    reset, because the persisted snapshot of the earlier session says that
    it was on originally. *)
Lemma round_trip_counterexample :
  ∃ w1 w2,
    monitor interrupted_world = Monitor.create
    ∧ "diffEditor.renderSideBySide" ∈ targetIDs tS
    ∧ activateSettings eID tS 1 interrupted_world = Returned tt w1
    ∧ resetSettings eID 2 w1 = Returned tt w2
    ∧ prop (configuration interrupted_world) "diffEditor.renderSideBySide"
      = JBool false
    ∧ prop (configuration w2) "diffEditor.renderSideBySide" = JBool true.
Proof.
  eexists _, _. split; [reflexivity|].
  split; [apply (bool_decide_unpack _); vm_compute; exact I|].
  split; [by apply activateSettings_free|].
  split; [by apply resetSettings_free|].
  split; vm_compute; reflexivity.
Qed.

End SettingsFacts.

(** ** Facts on the monitor *)

Module MonitorFacts.
Import Monitor.

Lemma consistent_start : consistent start.
Proof. repeat split; [constructor]. Qed.

Lemma filter_ne_singleton (c : Token) : filter (λ x, x ≠ c) [c] = [].
Proof. cbn. by rewrite decide_False by (intros ?; done). Qed.

Lemma filter_ne_head (c : Token) (l : list Token) :
  c ∉ l → filter (λ x, x ≠ c) (c :: l) = l.
Proof.
  intros Hc. rewrite filter_cons_False by (intros ?; done).
  induction l as [|x l IH]; [done|].
  apply not_elem_of_cons in Hc as [Hne Hc].
  rewrite filter_cons_True by done. by rewrite IH.
Qed.

Lemma consistent_call s op s' :
  consistent s → call s op = Some s' → consistent s'.
Proof.
  intros (Hw & Hq & Hnd & Hin) Hcall. destruct op as [c|c]; cbn in Hcall.
  - case_bool_decide as Hfresh; [done|].
    unfold enter in Hcall. destruct (owned (mon s)) eqn:Ho.
    + injection Hcall as <-. unfold consistent. cbn.
      rewrite Hw, Hq, app_assoc.
      split_and!; [done..| |done].
      apply NoDup_app. split_and!; [done| |apply NoDup_singleton].
      intros x Hx ->%list_elem_of_singleton. apply Hfresh. by right.
    + injection Hcall as <-. unfold consistent. cbn.
      destruct Hin as [-> Hs]. split_and!; [done..|by exists c].
  - case_bool_decide as Hc; [|done].
    unfold leave in Hcall. destruct (owned (mon s)) eqn:Ho; [|done].
    destruct Hin as [c' Hin]. rewrite Hin in Hc.
    apply list_elem_of_singleton in Hc as ->.
    destruct (waiters (mon s)) as [|next rest] eqn:Hwait.
    + injection Hcall as <-. unfold consistent. cbn.
      rewrite Hin, filter_ne_singleton. by split_and!.
    + injection Hcall as <-. unfold consistent. cbn.
      rewrite <- Hw in *. apply NoDup_cons in Hnd as [Hnext Hnd].
      rewrite Hin, filter_ne_singleton, filter_ne_head by done.
      rewrite Hq, <- app_assoc. split_and!; [done..|by exists next].
Qed.

Lemma consistent_calls_from ops s s' :
  consistent s → calls_from s ops = Some s' → consistent s'.
Proof.
  revert s. induction ops as [|op ops IH]; intros s Hs Hrun; cbn in Hrun.
  - by injection Hrun as <-.
  - destruct (call s op) as [s1|] eqn:Hcall; [|done].
    eapply IH; [|done]. by eapply consistent_call.
Qed.

Lemma calls_from_app s ops ops' :
  calls_from s (ops ++ ops') = calls_from s ops ≫= λ s1, calls_from s1 ops'.
Proof.
  revert s. induction ops as [|op ops IH]; intros s; cbn; [done|].
  by destruct (call s op).
Qed.

(** C2.  Take any history of [enter()] and [leave()] calls that keeps to
    the protocol (no [enter()] by a caller that is inside or suspended, no
    [leave()] by a caller that is not inside), and any instant of it, that
    is, the state [s] after a prefix [ops] of it.  Then at most one caller
    is inside the critical section; the callers woken up so far, followed
    by those still suspended, are the callers that were suspended, in the
    order of their [enter()] calls; and [someoneIsWaiting] is true exactly
    when some [enter()] is suspended. *)
Theorem monitor_invariant ops ops' s' :
  calls_from start (ops ++ ops') = Some s' →
  ∃ s, calls_from start ops = Some s
    ∧ length (inside s) ≤ 1
    ∧ queued s = resumed s ++ suspended s
    ∧ (someoneIsWaiting (mon s) = true ↔ suspended s ≠ []).
Proof.
  rewrite calls_from_app. intros Hrun.
  destruct (calls_from start ops) as [s|] eqn:Hs; [|done].
  exists s. split; [done|].
  destruct (consistent_calls_from ops start s consistent_start Hs)
    as (Hw & Hq & _ & Hin).
  split_and!; [|done|].
  - destruct (owned (mon s)); [destruct Hin as [c ->]|destruct Hin as [-> _]];
      cbn; lia.
  - unfold someoneIsWaiting. rewrite Hw. by destruct (suspended s).
Qed.

(** Three callers: 1 gets the monitor, 2 and 3 queue up; when 1 leaves, 2
    is let in and 3 still waits. *)
Lemma monitor_invariant_witness :
  ∃ s, calls_from start [Enter 1; Enter 2; Enter 3; Leave 1] = Some s
    ∧ length (inside s) ≤ 1
    ∧ queued s = resumed s ++ suspended s
    ∧ (someoneIsWaiting (mon s) = true ↔ suspended s ≠ []).
Proof.
  apply (monitor_invariant [Enter 1; Enter 2; Enter 3; Leave 1] [Leave 2]
           {| mon := {| owned := true; waiters := [] |}; inside := [3];
              suspended := []; queued := [2; 3]; resumed := [2; 3] |}).
  reflexivity.
Defined.

End MonitorFacts.

(** ** Facts on the layout manager *)

Module LayoutsFacts.
Import Layouts.

(** *** Zoom requests *)

#[local] Abbreviation zoom_error :=
  (ShowErrorMessage "Diff layout must be active to use zoom commands.").

(** A request made while the monitor is held waits in its queue. *)
Lemma zoom_request_waits me zoom st :
  Monitor.owned (layouterManagerMonitor st) = true →
  handleWasZoomRequested me zoom st
  = Suspended
      (with_managerMonitor
         {| Monitor.owned := true;
            Monitor.waiters :=
              Monitor.waiters (layouterManagerMonitor st) ++ [me] |} st).
Proof.
  intros Howned.
  unfold handleWasZoomRequested, bind, managerMonitor_enter, Monitor.enter.
  by rewrite Howned.
Qed.

(** C7, as the code has it.  Let the monitor be held.  A zoom request
    made now is queued like any other caller.  A zoom request let into the
    monitor now returns and hands the monitor on without queueing anybody,
    and leaves the manager's session untouched: if somebody waits for the
    monitor at that moment, the request has no effect at all; if nobody
    waits and no session is active, its one effect is the error message;
    otherwise its one effect is [setLayout(zoom)] on the active
    session. *)
Theorem zoom_request_outcome me zoom st :
  Monitor.owned (layouterManagerMonitor st) = true →
  handleWasZoomRequested me zoom st
  = Suspended
      (with_managerMonitor
         {| Monitor.owned := true;
            Monitor.waiters :=
              Monitor.waiters (layouterManagerMonitor st) ++ [me] |} st)
  ∧ ∃ st', handleWasZoomRequested_granted zoom st = Returned tt st'
    ∧ layouter st' = layouter st
    ∧ layouterFactory st' = layouterFactory st
    ∧ Monitor.waiters (layouterManagerMonitor st')
      = tail (Monitor.waiters (layouterManagerMonitor st))
    ∧ (Monitor.someoneIsWaiting (layouterManagerMonitor st) = true →
       effects_since st st' = [])
    ∧ (Monitor.someoneIsWaiting (layouterManagerMonitor st) = false →
       (∀ l, layouter st = Some l → isActive l = false) →
       effects_since st st' = [zoom_error])
    ∧ (Monitor.someoneIsWaiting (layouterManagerMonitor st) = false →
       ∀ l, layouter st = Some l → isActive l = true →
       effects_since st st' = [SetLayout (layouterRef l) zoom]).
Proof.
  intros Howned. split; [by apply zoom_request_waits|].
  unfold handleWasZoomRequested_granted, try_finally,
    handleWasZoomRequested_try, managerMonitor_leave, Monitor.leave,
    Monitor.someoneIsWaiting.
  destruct st as [fs df lf l [o ws] bar cfg eff ref]. cbn in *. subst o.
  destruct ws as [|w ws]; cbn.
  - destruct l as [[r u [] ing]|]; cbn; eexists; split; try reflexivity;
      cbn; unfold effects_since; cbn; rewrite ?drop_app_length, ?drop_all;
      split_and!; try done.
    + intros _ H. by specialize (H _ eq_refl).
    + intros _ ? [= <-] ?. done.
    + intros _ ? [= <-] ?. done.
  - eexists. split; [reflexivity|]. cbn. unfold effects_since. cbn.
    rewrite drop_all. by split_and!.
Qed.

Lemma zoom_request_outcome_witness :
  handleWasZoomRequested 9 (ZoomOther 2) contended_manager
  = Suspended
      (with_managerMonitor
         {| Monitor.owned := true; Monitor.waiters := [7; 9] |}
         contended_manager)
  ∧ ∃ st', handleWasZoomRequested_granted (ZoomOther 2) contended_manager
           = Returned tt st'
    ∧ layouter st' = layouter contended_manager
    ∧ layouterFactory st' = layouterFactory contended_manager
    ∧ Monitor.waiters (layouterManagerMonitor st') = []
    ∧ (true = true → effects_since contended_manager st' = [])
    ∧ (true = false →
       (∀ l, layouter contended_manager = Some l → isActive l = false) →
       effects_since contended_manager st' = [zoom_error])
    ∧ (true = false →
       ∀ l, layouter contended_manager = Some l → isActive l = true →
       effects_since contended_manager st'
       = [SetLayout (layouterRef l) (ZoomOther 2)]).
Proof.
  apply (zoom_request_outcome 9 (ZoomOther 2) contended_manager).
  reflexivity.
Defined.

(** C7 as the specification states it fails at [contended_manager].
    Request 9 arrives while a transition holds the monitor and transition
    7 waits, so [someoneIsWaiting] is true.  The request is not dropped:
    it is queued behind 7.  The holder leaves; 7, an [openDiffedURIs] for
    the content that is open already, runs and leaves; then 9 runs, finds
    nobody waiting, and changes the layout. *)
Lemma zoom_request_counterexample :
  let zoom := ZoomOther 2 in
  let eID := "vscode-as-git-mergetool" in
  ∃ st1 st2 st3 st4,
    Monitor.someoneIsWaiting (layouterManagerMonitor contended_manager)
    = true
    ∧ handleWasZoomRequested 9 zoom contended_manager = Suspended st1
    ∧ Monitor.waiters (layouterManagerMonitor st1) = [7; 9]
    ∧ managerMonitor_leave st1 = Returned tt st2
    ∧ openDiffedURIs_granted eID sample_uris false None [] st2
      = Returned true st3
    ∧ handleWasZoomRequested_granted zoom st3 = Returned tt st4
    ∧ effects_since contended_manager st4 = [SetLayout 0 zoom].
Proof.
  cbn zeta. eexists _, _, _, _.
  split; [reflexivity|].
  split; [reflexivity|].
  split; [reflexivity|].
  split; [reflexivity|].
  split; [reflexivity|].
  split; reflexivity.
Qed.

(** *** Switching the layout *)

#[local] Abbreviation stale_error :=
  (ShowErrorMessage "The situation has changed meanwhile. Please try again.").

(** Without a session, [switchLayout] shows its message and does nothing
    else. *)
Lemma switchLayout_no_session me layoutName pick st :
  layouter st = None →
  switchLayout me layoutName pick st
  = Returned tt
      (log [ShowErrorMessage "This requires the diff layout to be active"] st).
Proof. intros E. unfold switchLayout. by rewrite E. Qed.

(** C8, where the code departs from it.  Asked for the kind of the active
    session, [switchLayout] shows "The situation has changed meanwhile"
    and then goes on all the same: the session is deactivated and a new
    one of the same kind is created and activated in its place. *)
Theorem switchLayout_same_kind_proceeds me pick st l f :
  layouterManagerMonitor st = Monitor.create →
  layouter st = Some l →
  layouterFactory st = Some f →
  find (λ g, bool_decide (settingValue g = settingValue f)) (factories st)
  = Some f →
  ∃ st', switchLayout me (JString (settingValue f)) pick st = Returned tt st'
    ∧ effects_since st st'
      = [stale_error; Deactivate (layouterRef l) true;
         Create f (nextRef st) (diffedURIs l); OnDidDeactivate (nextRef st);
         TryActivate (nextRef st) ZoomDefault true;
         FireDidLayoutActivate (nextRef st)]
    ∧ layouter st'
      = Some {| layouterRef := nextRef st; diffedURIs := diffedURIs l;
                isActive := true; isActivating := false |}.
Proof.
  intros Hfree Hl Hf Hfind.
  unfold switchLayout. rewrite Hl. cbn [is_string]. rewrite Hfind.
  unfold switchLayout_resolved, bind, modify, is_current_factory.
  rewrite Hf. unfold same_factory. rewrite bool_decide_eq_true_2 by done.
  cbn [orb]. unfold managerMonitor_enter. cbn. rewrite Hfree. cbn.
  unfold switchLayout_granted, bind, try_finally. cbn. rewrite Hl. cbn.
  eexists. split; [reflexivity|]. cbn. split; [|done].
  unfold effects_since. cbn. rewrite Hl.
  rewrite bool_decide_eq_true_2 by by eexists.
  by rewrite <- !app_assoc, drop_app_length.
Qed.

Lemma switchLayout_same_kind_proceeds_witness :
  ∃ st', switchLayout 1 (JString "4TransferRight") None active_manager
         = Returned tt st'
    ∧ effects_since active_manager st'
      = [stale_error; Deactivate 0 true;
         Create fourTransferRight 1 sample_uris; OnDidDeactivate 1;
         TryActivate 1 ZoomDefault true; FireDidLayoutActivate 1]
    ∧ layouter st'
      = Some {| layouterRef := 1; diffedURIs := sample_uris;
                isActive := true; isActivating := false |}.
Proof.
  apply (switchLayout_same_kind_proceeds 1 None active_manager
           {| layouterRef := 0; diffedURIs := sample_uris;
              isActive := true; isActivating := false |}
           fourTransferRight); reflexivity.
Defined.

(** *** A cancelled repair of the layout kind *)

Section Repair.

Variable extensionID : string.

#[local] Abbreviation getLayoutFactory :=
  (Layouts.getLayoutFactory extensionID).
#[local] Abbreviation openDiffedURIs_granted :=
  (Layouts.openDiffedURIs_granted extensionID).
#[local] Abbreviation layoutSettingID := (Layouts.layoutSettingID extensionID).

(** A manager that the constructor built finds its default factory under
    the default kind. *)
Lemma new_DiffLayouterManager_default defaultSettingValue cfg fs st :
  new_DiffLayouterManager defaultSettingValue cfg fs = inr st →
  factory_for (JString (settingValue (defaultFactory st))) st
  = Some (defaultFactory st).
Proof.
  unfold new_DiffLayouterManager, factory_for.
  destruct fs as [|f0 fs0]; [done|]. generalize (f0 :: fs0). clear f0 fs0.
  intros fs Hnew.
  destruct (find _ fs) as [d|] eqn:Hfind; [|done].
  injection Hnew as <-. cbn.
  assert (settingValue d = defaultSettingValue) as Hd.
  { apply find_some in Hfind as [_ Hd]. by apply bool_decide_eq_true in Hd. }
  rewrite <- Hfind, Hd. clear Hfind Hd.
  induction fs as [|f fs IH]; [done|]. cbn. rewrite IH.
  unfold strict_eq.
  destruct (decide (settingValue f = defaultSettingValue)) as [E|E].
  - by rewrite !bool_decide_eq_true_2 by congruence.
  - by rewrite !bool_decide_eq_false_2 by congruence.
Qed.

(** With the default kind registered, [getLayoutFactory] asks the user at
    most once, and returns as soon as the user has answered. *)
Lemma getLayoutFactory_asks_once a rest st :
  is_Some (factory_for (JString (settingValue (defaultFactory st))) st) →
  ∃ r st', getLayoutFactory (a :: rest) st = Returned r st'
    ∧ (effects_since st st' = []
       ∨ effects_since st st' = [AskUnknownLayout a]
       ∨ effects_since st st'
         = [AskUnknownLayout a;
            ConfigSet layoutSettingID
              (JString (settingValue (defaultFactory st)))]).
Proof.
  intros [d Hd]. unfold Layouts.getLayoutFactory. cbn.
  destruct (factory_for (prop (configuration st) layoutSettingID) st)
    as [f|] eqn:Hf.
  { eexists _, _. split; [done|]. left. apply drop_all. }
  assert (∀ st2, factories st2 = factories st →
            getLayoutFactory_loop extensionID rest
              (JString (settingValue (defaultFactory st))) st2
            = Returned (Some d) st2) as Hloop.
  { intros st2 E. unfold factory_for in Hd. rewrite <- E in Hd.
    destruct rest; cbn; unfold factory_for; by rewrite Hd. }
  destruct a; cbn; rewrite ?Hloop by done;
    eexists _, _; (split; [done|]); unfold effects_since; cbn;
    rewrite <- ?app_assoc, drop_app_length; auto.
Qed.

(** C9.  Let [openDiffedURIs] be past [enter()] and not be for the content
    that is open already, so that the layout kind is resolved; let no
    factory answer to the configured kind, and let the user cancel or
    dismiss the repair prompt.  Then [getLayoutFactory] yields no factory
    and [openDiffedURIs] returns [false]; its only effect is the prompt,
    and the session, its factory, and the configuration are what they
    were. *)
Theorem openDiffedURIs_cancelled uris closeActiveEditor handler a rest st :
  Monitor.owned (layouterManagerMonitor st) = true →
  already_open uris st = false →
  factory_for (prop (configuration st) layoutSettingID) st = None →
  a = Cancel ∨ a = Dismissed →
  getLayoutFactory (a :: rest) st
  = Returned None (log [AskUnknownLayout a] st)
  ∧ ∃ st', openDiffedURIs_granted uris closeActiveEditor handler (a :: rest)
             st = Returned false st'
      ∧ effects_since st st' = [AskUnknownLayout a]
      ∧ layouter st' = layouter st
      ∧ layouterFactory st' = layouterFactory st
      ∧ configuration st' = configuration st
      ∧ switchLayoutStatusBarItem st' = switchLayoutStatusBarItem st
      ∧ nextRef st' = nextRef st.
Proof.
  intros Howned Hopen Hkind Ha.
  assert (getLayoutFactory (a :: rest) st
          = Returned None (log [AskUnknownLayout a] st)) as Hget.
  { unfold Layouts.getLayoutFactory. cbn. rewrite Hkind.
    by destruct Ha as [-> | ->]. }
  split; [exact Hget|].
  unfold Layouts.openDiffedURIs_granted, bind, try_finally,
    openDiffedURIs_try.
  rewrite Hopen. unfold bind. rewrite Hget. cbn.
  unfold managerMonitor_leave, Monitor.leave. cbn. rewrite Howned.
  destruct (Monitor.waiters (layouterManagerMonitor st)); cbn;
    (eexists; split; [reflexivity|]; cbn; split_and!; try done;
     unfold effects_since; cbn; by rewrite drop_app_length).
Qed.

End Repair.

Lemma openDiffedURIs_cancelled_witness :
  let eID := "vscode-as-git-mergetool" in
  getLayoutFactory eID [Cancel] misconfigured_manager
  = Returned None (log [AskUnknownLayout Cancel] misconfigured_manager)
  ∧ ∃ st', openDiffedURIs_granted eID other_uris true None [Cancel]
             misconfigured_manager = Returned false st'
      ∧ effects_since misconfigured_manager st' = [AskUnknownLayout Cancel]
      ∧ layouter st' = layouter misconfigured_manager
      ∧ layouterFactory st' = layouterFactory misconfigured_manager
      ∧ configuration st' = configuration misconfigured_manager
      ∧ switchLayoutStatusBarItem st'
        = switchLayoutStatusBarItem misconfigured_manager
      ∧ nextRef st' = nextRef misconfigured_manager.
Proof.
  apply (openDiffedURIs_cancelled "vscode-as-git-mergetool" other_uris true
           None Cancel [] misconfigured_manager).
  - reflexivity.
  - reflexivity.
  - vm_compute. reflexivity.
  - by left.
Defined.

End LayoutsFacts.

(** ** Facts on merging arbitrary files *)

Module MergerFacts.
Import Merger.

Section Facts.

Variable ManagerState : Type.
Variable openDiffedURIs : DiffedURIs → bool → Task ManagerState bool.
Variable dirname : string → string.
Variable readonlyFileURI : string → Uri.
Variable StringToNumber : string → option Z.

#[local] Abbreviation World := (Merger.MergerWorld ManagerState).
#[local] Abbreviation mergeArbitraryFiles :=
  (Merger.mergeArbitraryFiles ManagerState openDiffedURIs dirname
     readonlyFileURI StringToNumber).
#[local] Abbreviation PreconditionFails :=
  (Merger.PreconditionFails dirname StringToNumber).
#[local] Abbreviation merge_file_call := (Merger.merge_file_call dirname).
#[local] Abbreviation selected_uris := (Merger.selected_uris readonlyFileURI).
#[local] Abbreviation mergerEffects_since := (Merger.mergerEffects_since ManagerState).
#[local] Abbreviation record := (Merger.record ManagerState).
#[local] Abbreviation git_failed := (Merger.git_failed StringToNumber).
#[local] Abbreviation code_number := (Merger.code_number StringToNumber).

#[local] Ltac no_open :=
  repeat (apply List.Forall_cons; [cbn; tauto|]); apply List.Forall_nil.

Lemma git_failed_spec gitResult :
  git_failed gitResult = true
  ↔ ∃ e, error gitResult = Some e
      ∧ (code e = CodeUndefined
         ∨ ∃ c, code_number (code e) = Some c ∧ (c < 0 ∨ 127 < c)%Z).
Proof.
  unfold Merger.git_failed. destruct (error gitResult) as [[c]|].
  2: { split; [done|]. by intros (? & ? & _). }
  assert (match code_number c with
          | Some n => (n <? 0)%Z || (127 <? n)%Z
          | None => false
          end = true
          ↔ ∃ n, code_number c = Some n ∧ (n < 0 ∨ 127 < n)%Z) as Hnum.
  { destruct (code_number c) as [n|].
    - rewrite orb_true_iff, Z.ltb_lt, Z.ltb_lt. split.
      + intros H. by exists n.
      + by intros (n' & [= <-] & H).
    - split; [done|]. by intros (? & ? & _). }
  cbn [code]. rewrite orb_true_iff, Hnum. split.
  - intros [Hu|Hn].
    + eexists. split; [done|]. left. by destruct c.
    + eexists. split; [done|]. by right.
  - intros (e & [= <-] & H). cbn [code] in H. destruct H as [->|Hn].
    + by left.
    + by right.
Qed.

(** C10.  When a precondition step fails, [mergeArbitraryFiles] returns
    [false], leaves the layout manager alone and never calls
    [openDiffedURIs].  When none fails, it calls [openDiffedURIs(uris,
    false)] for the selected files, once and as its last step, on the
    manager as nobody has touched it before; whatever that call returns
    or throws is what the command returns or throws, it waits where the
    call waits, and the manager is left as the call leaves it. *)
Theorem mergeArbitraryFiles_preconditions env (w : World) :
  (PreconditionFails env →
   ∃ w', mergeArbitraryFiles env w = Returned false w'
     ∧ manager _ w' = manager _ w
     ∧ Forall (λ e, ¬ opens e) (mergerEffects_since w w'))
  ∧ (¬ PreconditionFails env →
     ∃ selectionResult before,
       doSelection env = Some selectionResult
       ∧ Forall (λ e, ¬ opens e) before
       ∧ let uris := selected_uris selectionResult in
         let done :=
           mergerEffects _ w ++ before ++ [OpenDiffedURIs uris false] in
         mergeArbitraryFiles env w
         = match openDiffedURIs uris false (manager _ w) with
           | Returned result m =>
               Returned result {| manager := m; mergerEffects := done |}
           | Suspended m =>
               Suspended {| manager := m; mergerEffects := done |}
           | Thrown e m =>
               Thrown e {| manager := m; mergerEffects := done |}
           end).
Proof.
  assert (mergerEffects_since w w = []) as Hnil.
  { unfold Merger.mergerEffects_since. apply drop_all. }
  unfold Merger.mergeArbitraryFiles.
  destruct (doSelection env) as [sel|] eqn:Hsel.
  2: { split.
       - intros _. exists w. by rewrite Hnil.
       - intros H. destruct H. by apply selection_cancelled. }
  destruct (getVSCGitPathInteractively env) as [gitPath|] eqn:Hgit.
  2: { split.
       - intros _. exists w. by rewrite Hnil.
       - intros H. destruct H. by apply no_git_path. }
  destruct (has_emptyLoc (selMerged sel)) eqn:Hempty.
  2: { split.
       - intros [?|?|sel' ? ? ? ? Hempty' _ _|sel' ? ? ? Hempty' _]; try congruence.
       - intros _. exists sel, []. split; [done|]. split; [no_open|].
         cbn zeta. unfold Merger.call_openDiffedURIs. by rewrite app_nil_l. }
  set (call := merge_file_call gitPath sel).
  set (gitResult := execFilePromise env call).
  unfold bind, modify. cbn.
  destruct (git_failed gitResult) eqn:Hfail; cbn.
  { split.
    - intros _. eexists. split; [done|]. split; [done|].
      unfold Merger.mergerEffects_since. cbn.
      rewrite <- app_assoc, drop_app_length. no_open.
    - intros H. destruct H. apply git_failed_spec in Hfail as (e & He & Hc).
      by eapply git_error. }
  destruct (writeFile env (selectedPath (selMerged sel)) (stdout gitResult))
    eqn:Hwrite; cbn.
  - split.
    + intros [?|?|sel' gitPath' e ? ? _ He Hc|sel' gitPath' ? ? _ Hw];
        try congruence.
      * assert (sel' = sel) as -> by congruence.
        assert (gitPath' = gitPath) as -> by congruence.
        assert (git_failed gitResult = true) as Hyes
          by (apply git_failed_spec; by exists e).
        congruence.
      * assert (sel' = sel) as -> by congruence.
        assert (gitPath' = gitPath) as -> by congruence.
        fold call gitResult in Hw. congruence.
    + intros _.
      exists sel, [ExecFile call;
                   WriteFile (selectedPath (selMerged sel)) (stdout gitResult)].
      split; [done|]. split; [no_open|].
      cbn zeta. unfold Merger.call_openDiffedURIs. cbn.
      by rewrite <- !app_assoc.
  - split.
    + intros _. eexists. split; [done|]. split; [done|].
      unfold Merger.mergerEffects_since. cbn.
      rewrite <- app_assoc, drop_app_length. no_open.
    + intros H. destruct H. by eapply write_error.
Qed.

End Facts.

(** The claim with the layout manager of this extension as the injected
    manager: at a run of Git that fails, and at a run that gets as far as
    opening the layout. *)
Lemma mergeArbitraryFiles_preconditions_witness :
  let open uris closeActiveEditor :=
    Layouts.openDiffedURIs "vscode-as-git-mergetool" 1 uris closeActiveEditor
      None [] in
  let command :=
    mergeArbitraryFiles Layouts.Manager open sample_dirname
      sample_readonlyFileURI sample_StringToNumber in
  let w := {| manager := Layouts.active_manager; mergerEffects := [] |} in
  (∃ w', command failing_git w = Returned false w'
     ∧ manager _ w' = manager _ w
     ∧ Forall (λ e, ¬ opens e) (mergerEffects_since _ w w'))
  ∧ ∃ selectionResult before,
      doSelection MergerMore.conflicting_git = Some selectionResult
      ∧ Forall (λ e, ¬ opens e) before
      ∧ let uris := selected_uris sample_readonlyFileURI selectionResult in
        let done :=
          mergerEffects _ w ++ before ++ [OpenDiffedURIs uris false] in
        command MergerMore.conflicting_git w
        = match open uris false (manager _ w) with
          | Returned result m =>
              Returned result {| manager := m; mergerEffects := done |}
          | Suspended m =>
              Suspended {| manager := m; mergerEffects := done |}
          | Thrown e m =>
              Thrown e {| manager := m; mergerEffects := done |}
          end.
Proof.
  intros open command w. split.
  - apply (proj1 (mergeArbitraryFiles_preconditions Layouts.Manager open
                    sample_dirname sample_readonlyFileURI
                    sample_StringToNumber failing_git w)).
    eapply (git_error _ _ _ sample_selection "/usr/bin/git"
              {| code := CodeNumber 255 |}); try reflexivity.
    right. exists 255%Z. split; [reflexivity|]. right. reflexivity.
  - apply (proj2 (mergeArbitraryFiles_preconditions Layouts.Manager open
                    sample_dirname sample_readonlyFileURI
                    sample_StringToNumber MergerMore.conflicting_git w)).
    intros [H|H|sel gitPath e _ _ _ He Hc|sel gitPath _ _ _ Hw];
      [discriminate H | discriminate H | | discriminate Hw].
    injection He as <-.
    destruct Hc as [Hc|(c & Hc & Hr)]; [discriminate Hc|].
    injection Hc as <-. lia.
Defined.

End MergerFacts.

(** ** More facts on the settings manager *)

Module SettingsMoreFacts.
Import Settings SettingsFacts SettingsMore.

Section Facts.

Variable extensionID : string.
Variable targetSettings : StorageState.

#[local] Abbreviation aKey := (origActualKey extensionID).
#[local] Abbreviation tKey := (origTargetKey extensionID).
#[local] Abbreviation step := (activate_iteration targetSettings).
#[local] Abbreviation turn_world := (Settings.turn_world targetSettings).
#[local] Abbreviation turn_locals := (Settings.turn_locals targetSettings).
#[local] Abbreviation activateSettings :=
  (Settings.activateSettings extensionID targetSettings).
#[local] Abbreviation activateSettings_body :=
  (Settings.activateSettings_body extensionID targetSettings).
#[local] Abbreviation activateSettings_granted :=
  (Settings.activateSettings_granted extensionID targetSettings).
#[local] Abbreviation resetSettings := (Settings.resetSettings extensionID).
#[local] Abbreviation resetSettings_body :=
  (Settings.resetSettings_body extensionID).
#[local] Abbreviation resetSettings_granted :=
  (Settings.resetSettings_granted extensionID).
#[local] Abbreviation targetIDs := (Settings.targetIDs targetSettings).
#[local] Abbreviation held := (Monitor.Make true []).

(** *** Which settings the loops write *)

(** The loop over the managed keys writes a key exactly when its setting
    is not the target, and then it writes the target. *)
Lemma activate_loop_writes oA oT ids locals w :
  NoDup ids →
  ∃ new, calls (foldl (step oA oT) (locals, w) ids).2 = calls w ++ new
    ∧ (∀ k v, CfgGet k v ∈ new ↔ k ∈ ids ∧ v = prop (configuration w) k)
    ∧ (∀ k v, CfgSet k v ∈ new
              ↔ k ∈ ids ∧ v = prop targetSettings k
                ∧ prop (configuration w) k ≠ prop targetSettings k).
Proof.
  revert locals w. induction ids as [|x xs IH]; intros locals w Hnd.
  { exists []. cbn. rewrite app_nil_r. split; [done|].
    split; intros k v; (split; [by intros Hin%elem_of_nil|]);
      by intros [Hin%elem_of_nil _]. }
  apply NoDup_cons in Hnd as [Hx Hnd].
  cbn [foldl]. rewrite step_turn.
  destruct (IH (turn_locals oA oT locals w x) (turn_world w x) Hnd)
    as (new & -> & Hget & Hset).
  rewrite turn_world_calls, <- app_assoc. eexists. split; [done|].
  assert (∀ k, k ∈ xs → prop (configuration (turn_world w x)) k
                        = prop (configuration w) k) as Hlive.
  { intros k Hin. unfold prop. rewrite turn_world_lookup_ne; [done|].
    by intros ->. }
  split.
  - intros k v. rewrite elem_of_app, elem_of_cons, Hget, elem_of_cons.
    split.
    + intros [[E|Hin]|[Hin ->]].
      * injection E as -> ->. split; [by left|done].
      * destruct (strict_eq _ _); [by apply elem_of_nil in Hin|].
        by apply list_elem_of_singleton in Hin.
      * split; [by right|by apply Hlive].
    + intros [[->|Hin] ->]; [by left; left|].
      right. split; [done|]. symmetry. by apply Hlive.
  - intros k v. rewrite elem_of_app, elem_of_cons, Hset, elem_of_cons.
    split.
    + intros [[E|Hin]|(Hin & -> & Hne)]; [done| |].
      * destruct (strict_eq _ _) eqn:E; [by apply elem_of_nil in Hin|].
        apply strict_eq_false in E.
        apply list_elem_of_singleton in Hin. injection Hin as -> ->.
        split; [by left|done].
      * split; [by right|]. split; [done|]. by rewrite <- Hlive.
    + intros [[->|Hin] [-> Hne]].
      * left. right. apply strict_eq_false in Hne. rewrite Hne.
        by apply list_elem_of_singleton.
      * right. split; [done|]. split; [done|]. by rewrite Hlive.
Qed.

Lemma activateSettings_body_calls w :
  let oA := getStorageState aKey w in
  let w' := activateSettings_body w in
  ∃ new, calls w' = calls w ++ new
    ∧ (∀ k v, CfgGet k v ∈ new
              ↔ k ∈ targetIDs ∧ v = prop (configuration w) k)
    ∧ (∀ k v, CfgSet k v ∈ new
              ↔ ((k ∈ targetIDs ∧ v = prop targetSettings k
                  ∧ prop (configuration w) k ≠ prop targetSettings k)
                 ∨ ((k ∉ targetIDs) ∧ k ∈ Object_keys oA ∧ v = prop oA k))).
Proof.
  intros oA w'. subst w'. rewrite activateSettings_body_eq. fold oA.
  set (oT := getStorageState tKey w).
  set (locals0 := MkLocals ∅ ∅ (list_to_set (Object_keys oA))).
  set (r := foldl (step oA oT) (locals0, w) targetIDs).
  set (obs := elements (obsoleteSettingKeys r.1)).
  pose proof (NoDup_Object_keys targetSettings) as Hnd.
  assert (∀ k, k ∈ obs ↔ k ∈ Object_keys oA ∧ k ∉ targetIDs) as Hobs.
  { intros k. unfold obs, r. rewrite elem_of_elements, activate_loop_obsolete.
    cbn. rewrite elem_of_difference, !elem_of_list_to_set. done. }
  destruct (activate_loop_writes oA oT targetIDs locals0 w Hnd)
    as (new & Hnew & Hget & Hset).
  fold r in Hnew. cbn. rewrite obsolete_loop_calls, Hnew, <- app_assoc.
  eexists. split; [done|]. split.
  - intros k v. rewrite elem_of_app, Hget, list_elem_of_fmap.
    split; [|tauto]. intros [?|(? & ? & _)]; done.
  - intros k v. rewrite elem_of_app, Hset, list_elem_of_fmap. split.
    + intros [?|(y & E & Hy)]; [by left|]. injection E as -> ->.
      apply Hobs in Hy. right. tauto.
    + intros [?|(? & ? & ->)]; [by left|]. right. exists k.
      split; [done|]. apply Hobs. tauto.
Qed.

(** *** What [activateSettings] reads and writes *)

(** X1.  [activateSettings] reads exactly the managed keys, each with the
    value it had when the call began; it overrides exactly the managed
    keys that are not at their target; it writes back exactly the keys of
    the old [origActual] snapshot that are no longer managed; and a
    setting that is neither managed nor in the old snapshot keeps its
    value. *)
Theorem activateSettings_calls me w :
  monitor w = Monitor.create →
  ∃ w', activateSettings me w = Returned tt w'
    ∧ let oldOrigActual := getStorageState aKey w in
      (∀ k v, CfgGet k v ∈ calls_since w w'
              ↔ k ∈ targetIDs ∧ v = prop (configuration w) k)
      ∧ (∀ k v, CfgSet k v ∈ calls_since w w'
                ↔ ((k ∈ targetIDs ∧ v = prop targetSettings k
                    ∧ prop (configuration w) k ≠ prop targetSettings k)
                   ∨ ((k ∉ targetIDs) ∧ k ∈ Object_keys oldOrigActual
                      ∧ v = prop oldOrigActual k)))
      ∧ (∀ k, k ∉ targetIDs → k ∉ Object_keys oldOrigActual →
           configuration w' !! k = configuration w !! k).
Proof.
  intros Hfree. eexists. split; [by apply activateSettings_free|].
  destruct (activateSettings_body_calls (with_monitor held w))
    as (new & Hnew & Hget & Hset).
  destruct (activateSettings_body_spec extensionID targetSettings
              (with_monitor held w)) as (_ & _ & _ & Hother & _).
  cbn zeta in *.
  rewrite (calls_since_app _ _ new) by exact Hnew.
  split_and!; [exact Hget|exact Hset|exact Hother].
Qed.

(** X2.  After [activateSettings] every managed key reads its target, the
    persisted [origTarget] is the table of targets itself, [origActual]
    has an entry for every managed key and for no other, the other
    entries of the memento are untouched, and the monitor is free
    again. *)
Theorem activateSettings_postcondition me w :
  monitor w = Monitor.create →
  ∃ w', activateSettings me w = Returned tt w'
    ∧ (∀ k, k ∈ targetIDs →
         prop (configuration w') k = prop targetSettings k)
    ∧ globalState w' !! tKey = Some targetSettings
    ∧ (∃ newOrigActual, globalState w' !! aKey = Some newOrigActual
         ∧ dom newOrigActual = dom targetSettings)
    ∧ (∀ key, key ≠ aKey → key ≠ tKey →
         globalState w' !! key = globalState w !! key)
    ∧ monitor w' = Monitor.create.
Proof.
  intros Hfree. eexists. split; [by apply activateSettings_free|].
  destruct (activateSettings_body_spec extensionID targetSettings
              (with_monitor held w))
    as (_ & Hman & _ & _ & HA & HT & (nA & nT & Hg) & _).
  cbn zeta in *.
  pose proof (storage_keys_differ extensionID) as Hne.
  unfold getStorageState in HA, HT. rewrite Hg in HA, HT.
  rewrite lookup_insert_eq in HT.
  rewrite lookup_insert_ne, lookup_insert_eq in HA by done.
  cbn in HA, HT.
  split_and!.
  - intros k Hk. by apply Hman.
  - cbn. rewrite Hg, lookup_insert_eq. f_equal. apply map_eq. intros k.
    rewrite HT. case_decide as Hk.
    + apply elem_of_Object_keys in Hk as [v Hv]. unfold prop.
      by rewrite Hv.
    + destruct (targetSettings !! k) eqn:E; [|done].
      destruct Hk. apply elem_of_Object_keys. by eexists.
  - exists nA. cbn. rewrite Hg.
    rewrite lookup_insert_ne, lookup_insert_eq by done. split; [done|].
    apply set_eq. intros k. rewrite !elem_of_dom, HA.
    rewrite <- (elem_of_Object_keys targetSettings k).
    case_decide; split; try done; by intros [? ?].
  - intros key H1 H2. cbn. rewrite Hg.
    by rewrite !lookup_insert_ne.
  - reflexivity.
Qed.

(** *** What [resetSettings] reads and writes *)

Lemma reset_loop_writes oA oT ids w :
  NoDup ids →
  ∃ new, calls (foldl (reset_iteration oA oT) w ids) = calls w ++ new
    ∧ (∀ k v, CfgGet k v ∈ new ↔ k ∈ ids ∧ v = prop (configuration w) k)
    ∧ (∀ k v, CfgSet k v ∈ new
              ↔ k ∈ ids ∧ prop (configuration w) k = prop oT k
                ∧ v = prop oA k).
Proof.
  revert w. induction ids as [|x xs IH]; intros w Hnd.
  { exists []. cbn. rewrite app_nil_r. split; [done|].
    split; intros k v; (split; [by intros Hin%elem_of_nil|]);
      by intros [Hin%elem_of_nil _]. }
  apply NoDup_cons in Hnd as [Hx Hnd]. cbn [foldl].
  destruct (IH (reset_iteration oA oT w x) Hnd) as (new & -> & Hget & Hset).
  rewrite reset_iteration_calls, <- app_assoc. eexists. split; [done|].
  assert (∀ k, k ∈ xs → prop (configuration (reset_iteration oA oT w x)) k
                        = prop (configuration w) k) as Hlive.
  { intros k Hin. unfold prop. rewrite reset_iteration_lookup_ne; [done|].
    by intros ->. }
  split.
  - intros k v. rewrite elem_of_app, elem_of_cons, Hget, elem_of_cons.
    split.
    + intros [[E|Hin]|[Hin ->]].
      * injection E as -> ->. split; [by left|done].
      * destruct (strict_eq _ _); [|by apply elem_of_nil in Hin].
        by apply list_elem_of_singleton in Hin.
      * split; [by right|by apply Hlive].
    + intros [[->|Hin] ->]; [by left; left|].
      right. split; [done|]. symmetry. by apply Hlive.
  - intros k v. rewrite elem_of_app, elem_of_cons, Hset, elem_of_cons.
    split.
    + intros [[E|Hin]|(Hin & E & ->)]; [done| |].
      * destruct (strict_eq _ _) eqn:E; [|by apply elem_of_nil in Hin].
        apply strict_eq_true in E.
        apply list_elem_of_singleton in Hin. injection Hin as -> ->.
        split; [by left|done].
      * split; [by right|]. split; [|done]. by rewrite <- Hlive.
    + intros [[->|Hin] [E ->]].
      * left. right. apply strict_eq_true in E. rewrite E.
        by apply list_elem_of_singleton.
      * right. split; [done|]. split; [|done]. by rewrite Hlive.
Qed.

Lemma reset_loop_lookup oA oT ids w k :
  NoDup ids → k ∈ ids →
  configuration (foldl (reset_iteration oA oT) w ids) !! k
  = if strict_eq (prop (configuration w) k) (prop oT k)
    then Some (prop oA k) else configuration w !! k.
Proof.
  revert w. induction ids as [|x xs IH]; intros w Hnd Hk.
  { by apply elem_of_nil in Hk. }
  apply NoDup_cons in Hnd as [Hx Hnd]. cbn [foldl].
  destruct (decide (k = x)) as [->|Hne].
  - rewrite reset_loop_other by done.
    rewrite reset_iteration_configuration.
    destruct (strict_eq _ _); [|done]. by rewrite lookup_insert_eq.
  - apply elem_of_cons in Hk as [?|Hk]; [done|].
    rewrite IH by done. unfold prop.
    by rewrite reset_iteration_lookup_ne.
Qed.

(** X3.  [resetSettings] reads exactly the keys of the persisted
    [origActual]; it writes [origActual[k]] back for exactly those keys
    whose setting is still [origTarget[k]], and leaves every other setting
    as it is; it removes both snapshot entries from the memento, and these
    two only. *)
Theorem resetSettings_calls me w :
  monitor w = Monitor.create →
  ∃ w', resetSettings me w = Returned tt w'
    ∧ let origActual := getStorageState aKey w in
      let origTarget := getStorageState tKey w in
      let restored k :=
        k ∈ Object_keys origActual
        ∧ prop (configuration w) k = prop origTarget k in
      (∀ k v, CfgGet k v ∈ calls_since w w'
              ↔ k ∈ Object_keys origActual ∧ v = prop (configuration w) k)
      ∧ (∀ k v, CfgSet k v ∈ calls_since w w'
                ↔ restored k ∧ v = prop origActual k)
      ∧ (∀ k, restored k →
           configuration w' !! k = Some (prop origActual k))
      ∧ (∀ k, ¬ restored k → configuration w' !! k = configuration w !! k)
      ∧ globalState w' = delete tKey (delete aKey (globalState w)).
Proof.
  intros Hfree. eexists. split; [by apply resetSettings_free|].
  cbn zeta. unfold Settings.resetSettings_body.
  set (oA := getStorageState aKey w). set (oT := getStorageState tKey w).
  change (getStorageState aKey (with_monitor held w)) with oA.
  change (getStorageState tKey (with_monitor held w)) with oT.
  pose proof (NoDup_Object_keys oA) as Hnd.
  destruct (reset_loop_writes oA oT (Object_keys oA) (with_monitor held w)
              Hnd) as (new & Hnew & Hget & Hset).
  destruct (reset_loop_frame oA oT (Object_keys oA) (with_monitor held w))
    as [Hg _].
  cbn zeta in *. unfold calls_since. cbn. rewrite Hnew, Hg. cbn.
  rewrite drop_app_length.
  split_and!; [exact Hget| | | |done].
  - intros k v. rewrite Hset. tauto.
  - intros k [Hk E]. rewrite reset_loop_lookup by done. cbn.
    apply strict_eq_true in E. by rewrite E.
  - intros k Hk. destruct (decide (k ∈ Object_keys oA)) as [Hin|Hout].
    + rewrite reset_loop_lookup by done. cbn.
      destruct (strict_eq _ _) eqn:E; [|done].
      apply strict_eq_true in E. tauto.
    + by rewrite reset_loop_other.
Qed.

(** Without an [origActual] entry the [try] block of [resetSettings] has
    nothing to go through. *)
Lemma resetSettings_body_no_snapshot w :
  globalState w !! aKey = None →
  let w' := resetSettings_body w in
  configuration w' = configuration w ∧ calls w' = calls w
  ∧ monitor w' = monitor w
  ∧ globalState w' = delete tKey (globalState w).
Proof.
  intros Habsent. unfold Settings.resetSettings_body, getStorageState.
  rewrite Habsent. cbn. unfold Object_keys.
  rewrite dom_empty_L, elements_empty. cbn.
  split_and!; [done..|]. by rewrite (delete_id _ aKey).
Qed.

(** X4.  Where nothing is remembered ([origActual] is absent, as on a
    first start), [resetSettings] calls the configurator not at all and
    leaves the configuration as it is. *)
Theorem resetSettings_nothing_to_restore me w :
  monitor w = Monitor.create →
  globalState w !! aKey = None →
  ∃ w', resetSettings me w = Returned tt w'
    ∧ calls_since w w' = []
    ∧ configuration w' = configuration w
    ∧ globalState w' = delete tKey (globalState w).
Proof.
  intros Hfree Habsent. eexists. split; [by apply resetSettings_free|].
  destruct (resetSettings_body_no_snapshot (with_monitor held w) Habsent)
    as (Hc & Hl & _ & Hg).
  cbn zeta in *. unfold calls_since.
  cbn [with_monitor calls configuration globalState].
  rewrite Hl, Hc, Hg. cbn [with_monitor calls configuration globalState].
  by rewrite drop_all.
Qed.

(** X5.  A second [resetSettings] right after a first one changes
    nothing and calls the configurator not at all. *)
Theorem resetSettings_idempotent me me' w :
  monitor w = Monitor.create →
  ∃ w1 w2, resetSettings me w = Returned tt w1
    ∧ resetSettings me' w1 = Returned tt w2
    ∧ calls_since w1 w2 = []
    ∧ configuration w2 = configuration w1
    ∧ globalState w2 = globalState w1.
Proof.
  intros Hfree. eexists _, _.
  split; [by apply resetSettings_free|].
  split; [by apply resetSettings_free|].
  destruct (resetSettings_body_spec extensionID (with_monitor held w))
    as (_ & Hg & _).
  set (w1 := resetSettings_body (with_monitor held w)) in *.
  clearbody w1. cbn [with_monitor globalState] in Hg.
  assert (globalState (with_monitor held (with_monitor Monitor.create w1))
            !! aKey = None) as Habsent.
  { cbn. rewrite Hg. rewrite lookup_delete_ne, lookup_delete_eq; [done|].
    apply not_eq_sym, storage_keys_differ. }
  destruct (resetSettings_body_no_snapshot _ Habsent) as (Hc & Hl & _ & Hg').
  cbn zeta in *. unfold calls_since.
  cbn [with_monitor calls configuration globalState] in *.
  rewrite Hl, Hc, Hg'. cbn [with_monitor calls configuration globalState].
  rewrite drop_all. split_and!; [done..|].
  rewrite Hg. by rewrite (delete_id _ tKey) by apply lookup_delete_eq.
Qed.

(** *** Sessions *)

(** X6.  Let the user change a managed key [k] by hand, away from its
    target, while the settings are activated.  The [resetSettings] that
    follows does not write [k], which keeps the user's value, and brings
    every other managed key back as it would have without the edit. *)
Theorem session_keeps_manual_edit me me' w k v :
  monitor w = Monitor.create →
  k ∈ targetIDs →
  v ≠ prop targetSettings k →
  ∃ w1 w2, activateSettings me w = Returned tt w1
    ∧ resetSettings me' (user_sets k v w1) = Returned tt w2
    ∧ configuration w2 !! k = Some v
    ∧ (∀ v', CfgSet k v' ∉ calls_since (user_sets k v w1) w2)
    ∧ ∀ k', k' ∈ targetIDs → k' ≠ k →
        let live := prop (configuration w) k' in
        prop (configuration w2) k'
        = if strict_eq live (prop (getStorageState tKey w) k')
          then prop (getStorageState aKey w) k' else live.
Proof.
  intros Hfree Hk Hv. eexists _, _.
  split; [by apply activateSettings_free|].
  split; [by apply resetSettings_free|].
  destruct (activateSettings_body_spec extensionID targetSettings
              (with_monitor held w)) as (_ & Hman & _ & _ & HA & HT & _).
  set (w1 := activateSettings_body (with_monitor held w)) in *.
  clearbody w1.
  set (we := with_monitor held (user_sets k v (with_monitor Monitor.create w1))).
  destruct (resetSettings_body_spec extensionID we)
    as (_ & _ & Hkey & _ & Hkeep).
  cbn zeta in *.
  change (getStorageState aKey we) with (getStorageState aKey w1) in *.
  change (getStorageState tKey we) with (getStorageState tKey w1) in *.
  change (configuration we) with (<[k := v]> (configuration w1)) in *.
  assert (prop (<[k := v]> (configuration w1)) k
          ≠ prop (getStorageState tKey w1) k) as Hedit.
  { rewrite prop_insert_eq. unfold prop at 1.
    rewrite HT, decide_True by done. done. }
  destruct (Hkeep k Hedit) as (Hcfg & new & Hnew & Hnone).
  split_and!.
  - cbn [with_monitor configuration]. rewrite Hcfg.
    by rewrite lookup_insert_eq.
  - intros v'. unfold calls_since. cbn [with_monitor calls user_sets].
    change (calls we) with (calls w1) in Hnew. rewrite Hnew.
    rewrite drop_app_length. apply Hnone.
  - intros k' Hk' Hne. cbn [with_monitor configuration]. rewrite Hkey.
    2: { rewrite elem_of_Object_keys, HA, decide_True by done. by eexists. }
    assert (prop (<[k := v]> (configuration w1)) k'
            = prop targetSettings k') as ->.
    { unfold prop at 1. rewrite lookup_insert_ne by done.
      by apply Hman. }
    unfold prop at 2 3. rewrite HT, HA, !decide_True by done. cbn.
    by rewrite strict_eq_refl.
Qed.

(** The settings a [try] block leaves depend on the settings and the
    memento it finds, and on nothing else. *)
Lemma reset_loop_agree oA oT ids w w' :
  configuration w = configuration w' →
  configuration (foldl (reset_iteration oA oT) w ids)
  = configuration (foldl (reset_iteration oA oT) w' ids).
Proof.
  revert w w'. induction ids as [|x xs IH]; intros w w' E; [done|].
  cbn [foldl]. apply IH. rewrite !reset_iteration_configuration.
  by rewrite E.
Qed.

Lemma resetSettings_body_agree w w' :
  configuration w = configuration w' →
  globalState w = globalState w' →
  configuration (resetSettings_body w) = configuration (resetSettings_body w')
  ∧ globalState (resetSettings_body w) = globalState (resetSettings_body w').
Proof.
  intros Ec Eg.
  destruct (resetSettings_body_spec extensionID w) as (_ & -> & _).
  destruct (resetSettings_body_spec extensionID w') as (_ & -> & _).
  split; [|by rewrite Eg].
  unfold Settings.resetSettings_body, getStorageState. cbn. rewrite Eg.
  by apply reset_loop_agree.
Qed.

(** X7.  Activating twice without a reset in between, as happens when
    the editor was closed during a session, and then resetting leaves the
    same settings and the same memento as activating once and
    resetting. *)
Theorem reset_after_repeated_activation me me' me'' w :
  monitor w = Monitor.create →
  ∃ w1 w2 w3 w3', activateSettings me w = Returned tt w1
    ∧ activateSettings me' w1 = Returned tt w2
    ∧ resetSettings me'' w2 = Returned tt w3
    ∧ resetSettings me'' w1 = Returned tt w3'
    ∧ configuration w3 = configuration w3'
    ∧ globalState w3 = globalState w3'.
Proof.
  intros Hfree. eexists _, _, _, _.
  split; [by apply activateSettings_free|].
  split; [by apply activateSettings_free|].
  split; [by apply resetSettings_free|].
  split; [by apply resetSettings_free|].
  set (w1 := activateSettings_body (with_monitor held w)).
  destruct (activate_twice_body extensionID targetSettings
              (with_monitor held w)
              (with_monitor held (with_monitor Monitor.create w1)))
    as [Hc Hg]; [done..|].
  cbn zeta in *. fold w1 in Hc, Hg.
  cbn [with_monitor configuration globalState].
  apply resetSettings_body_agree; [exact Hc|exact Hg].
Qed.

(** *** Calls that overlap *)

(** The [try] blocks do not look at the monitor. *)
Lemma activate_loop_with_monitor m oA oT ids locals w :
  foldl (step oA oT) (locals, with_monitor m w) ids
  = ((foldl (step oA oT) (locals, w) ids).1,
     with_monitor m (foldl (step oA oT) (locals, w) ids).2).
Proof.
  revert locals w. induction ids as [|x xs IH]; intros locals w; [done|].
  cbn [foldl]. rewrite !step_turn.
  assert (turn_world (with_monitor m w) x = with_monitor m (turn_world w x))
    as ->.
  { unfold Settings.turn_world. cbn. by destruct (strict_eq _ _). }
  apply IH.
Qed.

Lemma obsolete_loop_with_monitor m oA ids w :
  foldl (restore_obsolete oA) (with_monitor m w) ids
  = with_monitor m (foldl (restore_obsolete oA) w ids).
Proof.
  revert w. induction ids as [|x xs IH]; intros w; [done|].
  cbn [foldl]. by rewrite <- IH.
Qed.

Lemma reset_loop_with_monitor m oA oT ids w :
  foldl (reset_iteration oA oT) (with_monitor m w) ids
  = with_monitor m (foldl (reset_iteration oA oT) w ids).
Proof.
  revert w. induction ids as [|x xs IH]; intros w; [done|].
  cbn [foldl]. rewrite <- IH. f_equal.
  unfold reset_iteration. cbn. by destruct (strict_eq _ _).
Qed.

Lemma activateSettings_body_with_monitor m w :
  activateSettings_body (with_monitor m w)
  = with_monitor m (activateSettings_body w).
Proof.
  rewrite !activateSettings_body_eq. cbn zeta.
  change (getStorageState aKey (with_monitor m w))
    with (getStorageState aKey w).
  change (getStorageState tKey (with_monitor m w))
    with (getStorageState tKey w).
  rewrite activate_loop_with_monitor. cbn [fst snd].
  by rewrite obsolete_loop_with_monitor.
Qed.

Lemma resetSettings_body_with_monitor m w :
  resetSettings_body (with_monitor m w)
  = with_monitor m (resetSettings_body w).
Proof.
  unfold Settings.resetSettings_body.
  change (getStorageState aKey (with_monitor m w))
    with (getStorageState aKey w).
  change (getStorageState tKey (with_monitor m w))
    with (getStorageState tKey w).
  by rewrite reset_loop_with_monitor.
Qed.

(** X8.  Let [resetSettings] be called while an [activateSettings] holds
    the monitor.  The reset waits in the monitor; the activation runs to
    its end and hands the monitor on; the reset then runs and frees the
    monitor.  The world this ends in is the world of the two calls made
    one after the other. *)
Theorem overlapping_calls_are_serialised me me' w :
  monitor w = Monitor.create →
  ∃ wA wB w1 w2 s1 s2,
    monitor_enter me w = Returned tt wA
    ∧ resetSettings me' wA = Suspended wB
    ∧ activateSettings_granted wB = Returned tt w1
    ∧ Monitor.owned (monitor w1) = true
    ∧ resetSettings_granted w1 = Returned tt w2
    ∧ activateSettings me w = Returned tt s1
    ∧ resetSettings me' s1 = Returned tt s2
    ∧ w2 = s2.
Proof.
  intros Hfree.
  exists (with_monitor held w),
         (with_monitor (Monitor.Make true [me']) w),
         (with_monitor held (activateSettings_body w)),
         (with_monitor Monitor.create
            (resetSettings_body (activateSettings_body w))).
  eexists _, _.
  split. { unfold monitor_enter, Monitor.enter. by rewrite Hfree. }
  split. { reflexivity. }
  split.
  { unfold Settings.activateSettings_granted, try_finally, modify.
    rewrite activateSettings_body_with_monitor. reflexivity. }
  split; [reflexivity|].
  split.
  { unfold Settings.resetSettings_granted, try_finally, modify.
    rewrite resetSettings_body_with_monitor. reflexivity. }
  split; [by apply activateSettings_free|].
  split; [by apply resetSettings_free|].
  rewrite activateSettings_body_with_monitor.
  change (with_monitor held
            (with_monitor Monitor.create
               (with_monitor held (activateSettings_body w))))
    with (with_monitor held (activateSettings_body w)).
  by rewrite resetSettings_body_with_monitor.
Qed.

End Facts.

(** *** The facts at sample worlds *)

#[local] Abbreviation eID := sampleExtensionID.
#[local] Abbreviation tS := defaultTargetSettings.

Lemma activateSettings_calls_witness :
  ∃ w', activateSettings eID tS 1 interrupted_world = Returned tt w'
    ∧ let oldOrigActual :=
        getStorageState (origActualKey eID) interrupted_world in
      (∀ k v, CfgGet k v ∈ calls_since interrupted_world w'
              ↔ k ∈ targetIDs tS
                ∧ v = prop (configuration interrupted_world) k)
      ∧ (∀ k v, CfgSet k v ∈ calls_since interrupted_world w'
                ↔ ((k ∈ targetIDs tS ∧ v = prop tS k
                    ∧ prop (configuration interrupted_world) k ≠ prop tS k)
                   ∨ ((k ∉ targetIDs tS) ∧ k ∈ Object_keys oldOrigActual
                      ∧ v = prop oldOrigActual k)))
      ∧ (∀ k, k ∉ targetIDs tS → k ∉ Object_keys oldOrigActual →
           configuration w' !! k = configuration interrupted_world !! k).
Proof.
  apply (activateSettings_calls eID tS 1 interrupted_world). reflexivity.
Defined.

Lemma activateSettings_postcondition_witness :
  ∃ w', activateSettings eID tS 1 fresh_world = Returned tt w'
    ∧ (∀ k, k ∈ targetIDs tS → prop (configuration w') k = prop tS k)
    ∧ globalState w' !! origTargetKey eID = Some tS
    ∧ (∃ newOrigActual,
         globalState w' !! origActualKey eID = Some newOrigActual
         ∧ dom newOrigActual = dom tS)
    ∧ (∀ key, key ≠ origActualKey eID → key ≠ origTargetKey eID →
         globalState w' !! key = globalState fresh_world !! key)
    ∧ monitor w' = Monitor.create.
Proof.
  apply (activateSettings_postcondition eID tS 1 fresh_world). reflexivity.
Defined.

Lemma resetSettings_calls_witness :
  ∃ w', resetSettings eID 1 interrupted_world = Returned tt w'
    ∧ let origActual :=
        getStorageState (origActualKey eID) interrupted_world in
      let origTarget :=
        getStorageState (origTargetKey eID) interrupted_world in
      let restored k :=
        k ∈ Object_keys origActual
        ∧ prop (configuration interrupted_world) k = prop origTarget k in
      (∀ k v, CfgGet k v ∈ calls_since interrupted_world w'
              ↔ k ∈ Object_keys origActual
                ∧ v = prop (configuration interrupted_world) k)
      ∧ (∀ k v, CfgSet k v ∈ calls_since interrupted_world w'
                ↔ restored k ∧ v = prop origActual k)
      ∧ (∀ k, restored k →
           configuration w' !! k = Some (prop origActual k))
      ∧ (∀ k, ¬ restored k →
           configuration w' !! k = configuration interrupted_world !! k)
      ∧ globalState w'
        = delete (origTargetKey eID)
            (delete (origActualKey eID) (globalState interrupted_world)).
Proof.
  apply (resetSettings_calls eID 1 interrupted_world). reflexivity.
Defined.

Lemma resetSettings_nothing_to_restore_witness :
  ∃ w', resetSettings eID 1 fresh_world = Returned tt w'
    ∧ calls_since fresh_world w' = []
    ∧ configuration w' = configuration fresh_world
    ∧ globalState w' = delete (origTargetKey eID) (globalState fresh_world).
Proof.
  apply (resetSettings_nothing_to_restore eID 1 fresh_world); reflexivity.
Defined.

Lemma resetSettings_idempotent_witness :
  ∃ w1 w2, resetSettings eID 1 interrupted_world = Returned tt w1
    ∧ resetSettings eID 2 w1 = Returned tt w2
    ∧ calls_since w1 w2 = []
    ∧ configuration w2 = configuration w1
    ∧ globalState w2 = globalState w1.
Proof.
  apply (resetSettings_idempotent eID 1 2 interrupted_world). reflexivity.
Defined.

Lemma session_keeps_manual_edit_witness :
  ∃ w1 w2, activateSettings eID tS 1 fresh_world = Returned tt w1
    ∧ resetSettings eID 2
        (user_sets "editor.lineNumbers" (JString "relative") w1)
      = Returned tt w2
    ∧ configuration w2 !! "editor.lineNumbers" = Some (JString "relative")
    ∧ (∀ v', CfgSet "editor.lineNumbers" v'
               ∉ calls_since
                   (user_sets "editor.lineNumbers" (JString "relative") w1)
                   w2)
    ∧ ∀ k', k' ∈ targetIDs tS → k' ≠ "editor.lineNumbers" →
        let live := prop (configuration fresh_world) k' in
        prop (configuration w2) k'
        = if strict_eq live
               (prop (getStorageState (origTargetKey eID) fresh_world) k')
          then prop (getStorageState (origActualKey eID) fresh_world) k'
          else live.
Proof.
  apply (session_keeps_manual_edit eID tS 1 2 fresh_world
           "editor.lineNumbers" (JString "relative")).
  - reflexivity.
  - apply (bool_decide_unpack _). vm_compute. exact I.
  - vm_compute. discriminate.
Defined.

Lemma reset_after_repeated_activation_witness :
  ∃ w1 w2 w3 w3', activateSettings eID tS 1 fresh_world = Returned tt w1
    ∧ activateSettings eID tS 2 w1 = Returned tt w2
    ∧ resetSettings eID 3 w2 = Returned tt w3
    ∧ resetSettings eID 3 w1 = Returned tt w3'
    ∧ configuration w3 = configuration w3'
    ∧ globalState w3 = globalState w3'.
Proof.
  apply (reset_after_repeated_activation eID tS 1 2 3 fresh_world).
  reflexivity.
Defined.

Lemma overlapping_calls_are_serialised_witness :
  ∃ wA wB w1 w2 s1 s2,
    monitor_enter 1 fresh_world = Returned tt wA
    ∧ resetSettings eID 2 wA = Suspended wB
    ∧ activateSettings_granted eID tS wB = Returned tt w1
    ∧ Monitor.owned (monitor w1) = true
    ∧ resetSettings_granted eID w1 = Returned tt w2
    ∧ activateSettings eID tS 1 fresh_world = Returned tt s1
    ∧ resetSettings eID 2 s1 = Returned tt s2
    ∧ w2 = s2.
Proof.
  apply (overlapping_calls_are_serialised eID tS 1 2 fresh_world).
  reflexivity.
Defined.

End SettingsMoreFacts.

(** ** More facts on the layout manager *)

Module LayoutsMoreFacts.
Import Layouts LayoutsFacts LayoutsMore.

Lemma same_session_refl st : same_session st st.
Proof. by repeat split. Qed.

Lemma find_some_elem_of {A} (P : A → bool) (l : list A) (x : A) :
  find P l = Some x → x ∈ l ∧ P x = true.
Proof.
  intros H. apply find_some in H as [Hin HP].
  split; [by apply list_elem_of_In|done].
Qed.

Section Resolution.

Variable extensionID : string.

#[local] Abbreviation getLayoutFactory :=
  (Layouts.getLayoutFactory extensionID).
#[local] Abbreviation getLayoutFactory_loop :=
  (Layouts.getLayoutFactory_loop extensionID).
#[local] Abbreviation layoutSettingID := (Layouts.layoutSettingID extensionID).

#[local] Abbreviation repair_effect :=
  (LayoutsMore.repair_effect layoutSettingID).

Lemma getLayoutFactory_loop_frame answers layoutSetting st :
  match getLayoutFactory_loop answers layoutSetting st with
  | Returned r st' =>
      same_session st st'
      ∧ (∃ new, effects st' = effects st ++ new ∧ Forall repair_effect new)
      ∧ ∀ f, r = Some f →
          f ∈ factories st
          ∧ (JString (settingValue f) = layoutSetting
             ∨ settingValue f = settingValue (defaultFactory st))
  | Suspended st' =>
      same_session st st'
      ∧ ∃ new, effects st' = effects st ++ new ∧ Forall repair_effect new
  | Thrown _ _ => False
  end.
Proof.
  revert layoutSetting st.
  induction answers as [|a rest IH]; intros layoutSetting st; cbn.
  - destruct (factory_for layoutSetting st) as [f|] eqn:Hf.
    + split; [apply same_session_refl|]. split.
      { exists []. by rewrite app_nil_r. }
      intros f' [= <-]. apply find_some_elem_of in Hf as [Hin Hf].
      split; [done|]. left. by apply bool_decide_eq_true in Hf.
    + split; [apply same_session_refl|]. exists []. by rewrite app_nil_r.
  - destruct (factory_for layoutSetting st) as [f|] eqn:Hf.
    { split; [apply same_session_refl|]. split.
      { exists []. by rewrite app_nil_r. }
      intros f' [= <-]. apply find_some_elem_of in Hf as [Hin Hf].
      split; [done|]. left. by apply bool_decide_eq_true in Hf. }
    set (default := JString (settingValue (defaultFactory st))).
    assert (∀ st1 pre,
      same_session st st1 → effects st1 = effects st ++ pre →
      Forall repair_effect pre →
      match getLayoutFactory_loop rest default st1 with
      | Returned r st' =>
          same_session st st'
          ∧ (∃ new, effects st' = effects st ++ new
                    ∧ Forall repair_effect new)
          ∧ ∀ f, r = Some f →
              f ∈ factories st
              ∧ (JString (settingValue f) = layoutSetting
                 ∨ settingValue f = settingValue (defaultFactory st))
      | Suspended st' =>
          same_session st st'
          ∧ ∃ new, effects st' = effects st ++ new
                   ∧ Forall repair_effect new
      | Thrown _ _ => False
      end) as Hnext.
    { intros st1 pre Hs He Hpre. specialize (IH default st1).
      destruct Hs as (H1 & H2 & H3 & H4 & H5 & H6 & H7).
      destruct (getLayoutFactory_loop rest default st1) as [r st'|st'|];
        [| |done].
      - destruct IH as ((I1 & I2 & I3 & I4 & I5 & I6 & I7)
                        & (new & En & Hn) & Hr).
        split; [unfold same_session; by rewrite I1, I2, I3, I4, I5, I6, I7|].
        split.
        { exists (pre ++ new). rewrite En, He, <- app_assoc.
          split; [done|]. by apply Forall_app. }
        intros f Ef. destruct (Hr f Ef) as [Hin Hv]. rewrite H4 in Hin.
        split; [done|]. right. destruct Hv as [Hv|Hv].
        + unfold default in Hv. by injection Hv.
        + by rewrite H5 in Hv.
      - destruct IH as ((I1 & I2 & I3 & I4 & I5 & I6 & I7) & (new & En & Hn)).
        split; [unfold same_session; by rewrite I1, I2, I3, I4, I5, I6, I7|].
        exists (pre ++ new). rewrite En, He, <- app_assoc.
        split; [done|]. by apply Forall_app. }
    destruct a; cbn.
    + apply (Hnext _ [AskUnknownLayout RestoreDefault;
                      ConfigSet layoutSettingID default]).
      * by repeat split.
      * cbn. by rewrite <- app_assoc.
      * by repeat constructor.
    + apply (Hnext _ [AskUnknownLayout UseDefaultOnce]).
      * by repeat split.
      * done.
      * by repeat constructor.
    + split; [by repeat split|]. split; [|done].
      exists [AskUnknownLayout Cancel]. split; [done|]. by repeat constructor.
    + split; [by repeat split|]. split; [|done].
      exists [AskUnknownLayout Dismissed]. split; [done|].
      by repeat constructor.
Qed.

Lemma getLayoutFactory_loop_configuration answers layoutSetting st k :
  k ≠ layoutSettingID →
  configuration (outcome_state (getLayoutFactory_loop answers layoutSetting st))
    !! k
  = configuration st !! k.
Proof.
  intros Hk. revert layoutSetting st.
  induction answers as [|a rest IH]; intros layoutSetting st; cbn.
  - by destruct (factory_for layoutSetting st).
  - destruct (factory_for layoutSetting st); [done|].
    destruct a; cbn; rewrite ?IH; cbn; [|done..].
    by rewrite lookup_insert_ne.
Qed.

Lemma getLayoutFactory_frame answers st :
  match getLayoutFactory answers st with
  | Returned _ st' | Suspended st' =>
      same_session st st' ∧ Forall repair_effect (effects_since st st')
  | Thrown _ _ => False
  end.
Proof.
  unfold Layouts.getLayoutFactory.
  pose proof (getLayoutFactory_loop_frame answers
                (prop (configuration st) layoutSettingID) st) as H.
  destruct (getLayoutFactory_loop _ _ _) as [r st'|st'|]; [| |done].
  - destruct H as (Hs & (new & En & Hn) & Hr).
    unfold effects_since. by rewrite En, drop_app_length.
  - destruct H as (Hs & (new & En & Hn)).
    unfold effects_since. by rewrite En, drop_app_length.
Qed.

(** X9.  When [getLayoutFactory] returns, and while it waits for an
    answer, it has touched neither the session nor the monitor, whatever
    the user has answered so far: all it has done is to prompt and to
    write the layout setting.  A factory it yields is a registered one,
    and its kind is the configured kind or the default kind.  (Nothing is
    stated of a run that ends with a rejected configuration write.) *)
Theorem getLayoutFactory_result answers st :
  match getLayoutFactory answers st with
  | Returned r st' =>
      same_session st st'
      ∧ Forall repair_effect (effects_since st st')
      ∧ (∀ k, k ≠ layoutSettingID →
           configuration st' !! k = configuration st !! k)
      ∧ ∀ f, r = Some f →
          f ∈ factories st
          ∧ (JString (settingValue f)
             = prop (configuration st) layoutSettingID
             ∨ settingValue f = settingValue (defaultFactory st))
  | Suspended st' =>
      same_session st st'
      ∧ Forall repair_effect (effects_since st st')
      ∧ (∀ k, k ≠ layoutSettingID →
           configuration st' !! k = configuration st !! k)
  | Thrown _ _ => True
  end.
Proof.
  unfold Layouts.getLayoutFactory.
  pose proof (getLayoutFactory_loop_frame answers
                (prop (configuration st) layoutSettingID) st) as H.
  pose proof (λ k, getLayoutFactory_loop_configuration answers
                (prop (configuration st) layoutSettingID) st k) as Hc.
  destruct (getLayoutFactory_loop _ _ _) as [r st'|st'|]; [| |done].
  - destruct H as (Hs & (new & En & Hn) & Hr).
    unfold effects_since. rewrite En, drop_app_length. by split_and!.
  - destruct H as (Hs & (new & En & Hn)).
    unfold effects_since. rewrite En, drop_app_length. by split_and!.
Qed.

(** X10.  Let no factory answer to the configured kind, while one does to
    the default kind.  On "Restore default" the default factory is
    yielded and the default kind is written to the configuration, so that
    a later resolution yields it without asking; on "Use default once"
    the default factory is yielded and the configuration is left as it
    is, so that a later resolution asks again. *)
Theorem repair_answers rest st d :
  factory_for (prop (configuration st) layoutSettingID) st = None →
  factory_for (JString (settingValue (defaultFactory st))) st = Some d →
  let default := JString (settingValue (defaultFactory st)) in
  (∃ st', getLayoutFactory (RestoreDefault :: rest) st
          = Returned (Some d) st'
     ∧ effects_since st st'
       = [AskUnknownLayout RestoreDefault; ConfigSet layoutSettingID default]
     ∧ configuration st' = <[layoutSettingID := default]> (configuration st)
     ∧ ∀ answers, getLayoutFactory answers st' = Returned (Some d) st')
  ∧ (∃ st', getLayoutFactory (UseDefaultOnce :: rest) st
            = Returned (Some d) st'
       ∧ effects_since st st' = [AskUnknownLayout UseDefaultOnce]
       ∧ configuration st' = configuration st
       ∧ getLayoutFactory [] st' = Suspended st').
Proof.
  intros Hkind Hd default.
  assert (∀ answers st2 setting, factories st2 = factories st →
            setting = default →
            getLayoutFactory_loop answers setting st2
            = Returned (Some d) st2) as Hloop.
  { intros answers st2 setting E ->. unfold factory_for in Hd.
    rewrite <- E in Hd. unfold default.
    destruct answers; cbn; unfold factory_for; by rewrite Hd. }
  split.
  - eexists. unfold Layouts.getLayoutFactory. cbn. rewrite Hkind. cbn.
    rewrite Hloop by done. split; [done|]. cbn.
    split; [unfold effects_since; cbn;
            by rewrite <- app_assoc, drop_app_length|].
    split; [done|]. intros answers.
    unfold prop. rewrite lookup_insert_eq. cbn. by apply Hloop.
  - eexists. unfold Layouts.getLayoutFactory. cbn. rewrite Hkind. cbn.
    rewrite Hloop by done. split; [done|]. cbn.
    split; [unfold effects_since; cbn; by rewrite drop_app_length|].
    split; [done|]. unfold factory_for in *. cbn. by rewrite Hkind.
Qed.

(** X11.  The constructor succeeds exactly when a factory of the default
    kind is registered.  The manager it builds has no session and a free
    monitor, its default factory is the first registered factory of the
    default kind, and its [getLayoutFactory] returns as soon as the user
    has answered one prompt. *)
Theorem constructor_result defaultSettingValue cfg fs :
  ((∃ st, new_DiffLayouterManager defaultSettingValue cfg fs = inr st)
   ↔ ∃ f, f ∈ fs ∧ settingValue f = defaultSettingValue)
  ∧ ∀ st, new_DiffLayouterManager defaultSettingValue cfg fs = inr st →
      factories st = fs
      ∧ layouter st = None
      ∧ layouterManagerMonitor st = Monitor.create
      ∧ find (λ f, bool_decide (settingValue f = defaultSettingValue)) fs
        = Some (defaultFactory st)
      ∧ ∀ a rest, ∃ r st',
          getLayoutFactory (a :: rest) st = Returned r st'.
Proof.
  split.
  - unfold new_DiffLayouterManager. split.
    + intros [st H]. destruct fs as [|f0 fs0]; [done|].
      destruct (find _ _) as [d|] eqn:Hf; [|done].
      apply find_some_elem_of in Hf as [Hin Hd].
      exists d. split; [done|]. by apply bool_decide_eq_true in Hd.
    + intros (f & Hin & Hf). destruct fs as [|f0 fs0].
      { by apply elem_of_nil in Hin. }
      destruct (find _ _) as [d|] eqn:Hfind; [by eexists|].
      apply list_elem_of_In in Hin.
      eapply find_none in Hfind; [|exact Hin].
      by apply bool_decide_eq_false in Hfind.
  - intros st Hnew.
    pose proof (new_DiffLayouterManager_default _ _ _ _ Hnew) as Hdef.
    assert (∀ a rest, ∃ r st',
              getLayoutFactory (a :: rest) st = Returned r st') as Hret.
    { intros a rest.
      destruct (getLayoutFactory_asks_once extensionID a rest st)
        as (r & st' & E & _); [by eexists|]. by exists r, st'. }
    unfold new_DiffLayouterManager in Hnew.
    destruct fs as [|f0 fs0]; [done|].
    destruct (find _ _) as [d|] eqn:Hf; [|done].
    injection Hnew as <-. by split_and!.
Qed.

(** *** Opening content *)

#[local] Abbreviation openDiffedURIs_granted :=
  (Layouts.openDiffedURIs_granted extensionID).
#[local] Abbreviation openDiffedURIs_try :=
  (Layouts.openDiffedURIs_try extensionID).

Lemma managerMonitor_leave_owned st :
  Monitor.owned (layouterManagerMonitor st) = true →
  managerMonitor_leave st
  = Returned tt (with_managerMonitor (after_leave (layouterManagerMonitor st)) st).
Proof.
  intros Ho. unfold managerMonitor_leave, Monitor.leave, after_leave. rewrite Ho.
  by destruct (Monitor.waiters (layouterManagerMonitor st)).
Qed.

Lemma equalsWithoutBackup_refl uris : equalsWithoutBackup uris uris = true.
Proof. unfold equalsWithoutBackup. by apply bool_decide_eq_true. Qed.

(** X12.  Asked for the content that an active or activating session
    shows already, [openDiffedURIs] returns [true] and does nothing but
    pass through the monitor: no prompt, although the configured kind may
    be unknown, no closing of the active editor, although it may be asked
    for, no new session and no activation event. *)
Theorem openDiffedURIs_already_open uris closeActiveEditor handler answers
    st :
  Monitor.owned (layouterManagerMonitor st) = true →
  already_open uris st = true →
  openDiffedURIs_granted uris closeActiveEditor handler answers st
  = Returned true
      (with_managerMonitor (after_leave (layouterManagerMonitor st)) st).
Proof.
  intros Ho Hopen.
  unfold Layouts.openDiffedURIs_granted, bind, try_finally,
    Layouts.openDiffedURIs_try.
  rewrite Hopen. by rewrite managerMonitor_leave_owned.
Qed.

(** X13.  Asked for other content while a factory answers to the
    configured kind, [openDiffedURIs] returns [true] after this sequence:
    the active editor is closed if asked for; the old session, if any,
    is deactivated; the new session is created, subscribed to and
    activated, as a switch exactly if there was an old session; the
    caller's handler is subscribed; the monitor is left; the activation
    event is fired. *)
Theorem openDiffedURIs_replaces uris closeActiveEditor handler answers st f :
  Monitor.owned (layouterManagerMonitor st) = true →
  already_open uris st = false →
  factory_for (prop (configuration st) layoutSettingID) st = Some f →
  ∃ st', openDiffedURIs_granted uris closeActiveEditor handler answers st
         = Returned true st'
    ∧ effects_since st st'
      = (if closeActiveEditor then [CloseActiveEditor] else [])
        ++ match layouter st with
           | Some old => [Deactivate (layouterRef old) true]
           | None => []
           end
        ++ [Create f (nextRef st) uris; OnDidDeactivate (nextRef st);
            TryActivate (nextRef st) ZoomDefault
              (bool_decide (is_Some (layouter st)))]
        ++ match handler with
           | Some h => [OnDidLayoutDeactivate h]
           | None => []
           end
        ++ [FireDidLayoutActivate (nextRef st)]
    ∧ layouter st' = Some (tryActivate (create (nextRef st) uris))
    ∧ layouterFactory st' = Some f
    ∧ layouterManagerMonitor st' = after_leave (layouterManagerMonitor st)
    ∧ configuration st' = configuration st.
Proof.
  intros Ho Hopen Hf.
  unfold Layouts.openDiffedURIs_granted, bind, try_finally,
    Layouts.openDiffedURIs_try.
  rewrite Hopen. unfold bind, Layouts.getLayoutFactory.
  destruct st as [fs df lf l m bar cfg eff ref]. cbn in Ho, Hf |- *.
  destruct answers; cbn; rewrite Hf; cbn;
    (rewrite managerMonitor_leave_owned;
     [|by destruct closeActiveEditor, handler]);
    cbn; (eexists; split; [reflexivity|]);
    destruct closeActiveEditor, handler, l; cbn;
    unfold effects_since; cbn;
    rewrite <- ?app_assoc, drop_app_length; by split_and!.
Qed.

(** X14.  However [openDiffedURIs] returns once it is in the monitor,
    whatever the user answers: if it returns [true], the session the
    manager has then, if it has one, shows the content asked for; if it
    returns [false], session and factory are what they were and it has
    done nothing but prompt and write the layout setting; in both cases
    it has left the monitor.  While it waits for an answer of the user,
    it keeps the monitor, session and factory untouched.  (Nothing is
    stated of a run in which an awaited call is rejected.) *)
Theorem openDiffedURIs_outcome uris closeActiveEditor handler answers st :
  Monitor.owned (layouterManagerMonitor st) = true →
  match openDiffedURIs_granted uris closeActiveEditor handler answers st with
  | Returned true st' =>
      (∀ l, layouter st' = Some l →
            equalsWithoutBackup uris (diffedURIs l) = true)
      ∧ layouterManagerMonitor st' = after_leave (layouterManagerMonitor st)
  | Returned false st' =>
      layouter st' = layouter st
      ∧ layouterFactory st' = layouterFactory st
      ∧ Forall repair_effect (effects_since st st')
      ∧ layouterManagerMonitor st' = after_leave (layouterManagerMonitor st)
  | Suspended st' =>
      same_session st st' ∧ Forall repair_effect (effects_since st st')
  | Thrown _ _ => True
  end.
Proof.
  intros Ho.
  destruct (already_open uris st) eqn:Hopen.
  { unfold Layouts.openDiffedURIs_granted, bind, try_finally,
      Layouts.openDiffedURIs_try.
    rewrite Hopen, managerMonitor_leave_owned by done. cbn. split; [|done].
    intros l Hl. unfold already_open in Hopen. rewrite Hl in Hopen.
    by apply andb_true_iff in Hopen as [_ Hopen]. }
  unfold Layouts.openDiffedURIs_granted, bind, try_finally,
    Layouts.openDiffedURIs_try.
  rewrite Hopen. unfold bind.
  pose proof (getLayoutFactory_frame answers st) as H.
  destruct (getLayoutFactory answers st) as [[f|] st1|st1|]; [| | |done].
  - destruct H as ((H1 & H2 & H3 & _) & _). cbn.
    rewrite managerMonitor_leave_owned;
      [|destruct closeActiveEditor, handler; cbn; by rewrite H3].
    cbn. split.
    + intros l Hl.
      destruct closeActiveEditor, handler; cbn in Hl; injection Hl as <-;
        apply equalsWithoutBackup_refl.
    + destruct closeActiveEditor, handler; cbn; by rewrite H3.
  - destruct H as ((H1 & H2 & H3 & _) & Heff). cbn.
    rewrite managerMonitor_leave_owned by by rewrite H3.
    cbn. by rewrite H3.
  - destruct H as (Hs & Heff). done.
Qed.

End Resolution.

(** *** Switching *)

#[local] Abbreviation stale_error :=
  (ShowErrorMessage "The situation has changed meanwhile. Please try again.").

(** X15.  Asked by name for a registered kind other than the current one,
    [switchLayout] shows no message, deactivates the session and puts a
    session of the named kind for the same content in its place,
    activated as a switch, and then fires the activation event. *)
Theorem switchLayout_switches me pick st l g f :
  layouterManagerMonitor st = Monitor.create →
  layouter st = Some l →
  layouterFactory st = Some g →
  find (λ h, bool_decide (settingValue h = settingValue f)) (factories st)
  = Some f →
  same_factory f g = false →
  ∃ st', switchLayout me (JString (settingValue f)) pick st = Returned tt st'
    ∧ effects_since st st'
      = [Deactivate (layouterRef l) true;
         Create f (nextRef st) (diffedURIs l); OnDidDeactivate (nextRef st);
         TryActivate (nextRef st) ZoomDefault true;
         FireDidLayoutActivate (nextRef st)]
    ∧ layouter st' = Some (tryActivate (create (nextRef st) (diffedURIs l)))
    ∧ layouterFactory st' = Some f
    ∧ layouterManagerMonitor st' = Monitor.create.
Proof.
  intros Hfree Hl Hg Hfind Hother.
  unfold switchLayout. rewrite Hl. cbn [is_string]. rewrite Hfind.
  unfold switchLayout_resolved, bind, modify, is_current_factory.
  rewrite Hg, Hother, Hl. cbn.
  unfold managerMonitor_enter. rewrite Hfree. cbn.
  unfold switchLayout_granted, bind, try_finally. cbn. rewrite Hl. cbn.
  eexists. split; [reflexivity|]. cbn. split; [|done].
  unfold effects_since. cbn. rewrite Hl.
  rewrite bool_decide_eq_true_2 by by eexists.
  by rewrite <- !app_assoc, drop_app_length.
Qed.

Lemma NoDup_fmap_inj_on {A B} (f : A → B) (l : list A) x y :
  NoDup (f <$> l) → x ∈ l → y ∈ l → f x = f y → x = y.
Proof.
  induction l as [|a l IH]; intros Hnd Hx Hy E.
  { by apply elem_of_nil in Hx. }
  rewrite fmap_cons in Hnd. apply NoDup_cons in Hnd as [Ha Hnd].
  apply elem_of_cons in Hx as [->|Hx]; apply elem_of_cons in Hy as [->|Hy].
  - done.
  - destruct Ha. rewrite E. by apply list_elem_of_fmap_2.
  - destruct Ha. rewrite <- E. by apply list_elem_of_fmap_2.
  - by apply IH.
Qed.

(** X16.  Called without the name of a registered kind, [switchLayout]
    shows the quick pick.  Where the current factory is registered and
    the registered factories differ from one another in identity and in
    kind, every registered kind but the current one is offered, and the
    current one is not.  If the user dismisses the pick, nothing else
    happens: the monitor is not even entered. *)
Theorem switchLayout_quick_pick me layoutName st l g :
  layouter st = Some l →
  layouterFactory st = Some g →
  g ∈ factories st →
  NoDup (factoryRef <$> factories st) →
  NoDup (settingValue <$> factories st) →
  (∀ name, is_string layoutName = Some name →
     find (λ h, bool_decide (settingValue h = name)) (factories st) = None) →
  switchLayout me layoutName None st
  = Returned tt (log [ShowQuickPick (offered st) None] st)
  ∧ ∀ kind, kind ∈ offered st
            ↔ kind ∈ (settingValue <$> factories st)
              ∧ kind ≠ settingValue g.
Proof.
  intros Hl Hg Hin Hrefs Hkinds Hname. split.
  - unfold switchLayout. rewrite Hl.
    destruct (is_string layoutName) as [name|]; [|done].
    by rewrite (Hname name eq_refl).
  - intros kind. unfold offered, is_current_factory. rewrite Hg.
    rewrite !list_elem_of_fmap. split.
    + intros (f & -> & Hf). apply list_elem_of_filter in Hf as [Hf Hfin].
      split; [by exists f|]. intros E.
      assert (f = g) as ->
        by by apply (NoDup_fmap_inj_on settingValue (factories st)).
      unfold same_factory in Hf. by apply bool_decide_eq_false in Hf.
    + intros [(f & -> & Hfin) Hne]. exists f. split; [done|].
      apply list_elem_of_filter. split; [|done].
      unfold same_factory. apply bool_decide_eq_false. intros E.
      apply Hne. f_equal.
      by apply (NoDup_fmap_inj_on factoryRef (factories st)).
Qed.

(** X17.  Let the session be gone when a switch is let into the monitor
    (it ended while the switch waited).  Then [switchLayout] throws, but
    not before it has left the monitor; nothing else has changed. *)
Theorem switchLayout_session_gone targetFactory st :
  Monitor.owned (layouterManagerMonitor st) = true →
  layouter st = None →
  switchLayout_granted targetFactory st
  = Thrown "TypeError: this.layouter is undefined"
      (with_managerMonitor (after_leave (layouterManagerMonitor st)) st).
Proof.
  intros Ho Hl. unfold switchLayout_granted, bind, try_finally.
  rewrite Hl. by rewrite managerMonitor_leave_owned.
Qed.

(** *** Zoom requests in a row *)

(** X18.  Let two zoom requests be made in a row while the monitor is
    free and a session is active.  The first is let into the monitor and
    the second queues up; the first then finds the second waiting and
    does nothing; the second applies its zoom.  So the later request
    wins, and the monitor is free in the end. *)
Theorem zoom_requests_in_a_row me me' zoom zoom' st l :
  layouterManagerMonitor st = Monitor.create →
  layouter st = Some l →
  isActive l = true →
  ∃ st1 st2 st3 st4,
    managerMonitor_enter me st = Returned tt st1
    ∧ handleWasZoomRequested me' zoom' st1 = Suspended st2
    ∧ handleWasZoomRequested_granted zoom st2 = Returned tt st3
    ∧ effects_since st st3 = []
    ∧ handleWasZoomRequested_granted zoom' st3 = Returned tt st4
    ∧ effects_since st st4 = [SetLayout (layouterRef l) zoom']
    ∧ layouterManagerMonitor st4 = Monitor.create.
Proof.
  intros Hfree Hl Hactive.
  destruct st as [fs df lf ol m bar cfg eff ref]. cbn in *. subst m ol.
  eexists _, _, _, _.
  split; [reflexivity|]. split; [reflexivity|]. split; [reflexivity|].
  split; [unfold effects_since; cbn; by rewrite drop_all|].
  split.
  { unfold handleWasZoomRequested_granted, try_finally,
      handleWasZoomRequested_try. cbn. rewrite Hactive. reflexivity. }
  split; [|done]. unfold effects_since. cbn. by rewrite drop_app_length.
Qed.

#[local] Abbreviation eID := "vscode-as-git-mergetool" (only parsing).

Lemma repair_answers_witness :
  let st := misconfigured_manager in
  let default := JString (settingValue (defaultFactory st)) in
  (∃ st', getLayoutFactory eID [RestoreDefault] st
          = Returned (Some fourTransferRight) st'
     ∧ effects_since st st'
       = [AskUnknownLayout RestoreDefault;
          ConfigSet (layoutSettingID eID) default]
     ∧ configuration st' = <[layoutSettingID eID := default]> (configuration st)
     ∧ ∀ answers,
         getLayoutFactory eID answers st' = Returned (Some fourTransferRight) st')
  ∧ (∃ st', getLayoutFactory eID [UseDefaultOnce] st
            = Returned (Some fourTransferRight) st'
       ∧ effects_since st st' = [AskUnknownLayout UseDefaultOnce]
       ∧ configuration st' = configuration st
       ∧ getLayoutFactory eID [] st' = Suspended st').
Proof.
  apply (repair_answers eID [] misconfigured_manager fourTransferRight);
    vm_compute; reflexivity.
Defined.

Lemma openDiffedURIs_already_open_witness :
  openDiffedURIs_granted eID sample_uris true (Some 9) [] misconfigured_manager
  = Returned true
      (with_managerMonitor
         (after_leave (layouterManagerMonitor misconfigured_manager))
         misconfigured_manager).
Proof.
  apply (openDiffedURIs_already_open eID sample_uris true (Some 9) []
           misconfigured_manager); reflexivity.
Defined.

Lemma openDiffedURIs_replaces_witness :
  ∃ st', openDiffedURIs_granted eID other_uris true (Some 9) [] entered_manager
         = Returned true st'
    ∧ effects_since entered_manager st'
      = [CloseActiveEditor; Deactivate 0 true;
         Create threeDiffToBase 1 other_uris; OnDidDeactivate 1;
         TryActivate 1 ZoomDefault true; OnDidLayoutDeactivate 9;
         FireDidLayoutActivate 1]
    ∧ layouter st' = Some (tryActivate (create 1 other_uris))
    ∧ layouterFactory st' = Some threeDiffToBase
    ∧ layouterManagerMonitor st' = Monitor.create
    ∧ configuration st' = configuration entered_manager.
Proof.
  apply (openDiffedURIs_replaces eID other_uris true (Some 9) []
           entered_manager threeDiffToBase);
    [reflexivity | reflexivity | vm_compute; reflexivity].
Defined.

Lemma openDiffedURIs_outcome_witness :
  match openDiffedURIs_granted eID other_uris false None [Cancel]
          misconfigured_manager with
  | Returned true st' =>
      (∀ l, layouter st' = Some l →
            equalsWithoutBackup other_uris (diffedURIs l) = true)
      ∧ layouterManagerMonitor st'
        = after_leave (layouterManagerMonitor misconfigured_manager)
  | Returned false st' =>
      layouter st' = layouter misconfigured_manager
      ∧ layouterFactory st' = layouterFactory misconfigured_manager
      ∧ Forall (repair_effect (layoutSettingID eID))
          (effects_since misconfigured_manager st')
      ∧ layouterManagerMonitor st'
        = after_leave (layouterManagerMonitor misconfigured_manager)
  | Suspended st' =>
      same_session misconfigured_manager st'
      ∧ Forall (repair_effect (layoutSettingID eID))
          (effects_since misconfigured_manager st')
  | Thrown _ _ => True
  end.
Proof.
  apply (openDiffedURIs_outcome eID other_uris false None [Cancel]
           misconfigured_manager). reflexivity.
Defined.

Lemma switchLayout_switches_witness :
  ∃ st', switchLayout 1 (JString "3DiffToBase") None active_manager
         = Returned tt st'
    ∧ effects_since active_manager st'
      = [Deactivate 0 true; Create threeDiffToBase 1 sample_uris;
         OnDidDeactivate 1; TryActivate 1 ZoomDefault true;
         FireDidLayoutActivate 1]
    ∧ layouter st' = Some (tryActivate (create 1 sample_uris))
    ∧ layouterFactory st' = Some threeDiffToBase
    ∧ layouterManagerMonitor st' = Monitor.create.
Proof.
  apply (switchLayout_switches 1 None active_manager sample_layouter
           fourTransferRight threeDiffToBase); reflexivity.
Defined.

Lemma switchLayout_quick_pick_witness :
  switchLayout 1 JUndefined None active_manager
  = Returned tt (log [ShowQuickPick (offered active_manager) None]
                   active_manager)
  ∧ ∀ kind, kind ∈ offered active_manager
            ↔ kind ∈ (settingValue <$> factories active_manager)
              ∧ kind ≠ settingValue fourTransferRight.
Proof.
  apply (switchLayout_quick_pick 1 JUndefined active_manager sample_layouter
           fourTransferRight);
    [reflexivity | reflexivity
    | apply list_elem_of_further, list_elem_of_here
    | apply (bool_decide_unpack _); vm_compute; exact I
    | apply (bool_decide_unpack _); vm_compute; exact I
    | intros name H; discriminate H].
Defined.

Lemma switchLayout_session_gone_witness :
  let st := session_ended entered_manager in
  switchLayout_granted threeDiffToBase st
  = Thrown "TypeError: this.layouter is undefined"
      (with_managerMonitor (after_leave (layouterManagerMonitor st)) st).
Proof.
  apply (switchLayout_session_gone threeDiffToBase
           (session_ended entered_manager)); reflexivity.
Defined.

Lemma zoom_requests_in_a_row_witness :
  ∃ st1 st2 st3 st4,
    managerMonitor_enter 1 active_manager = Returned tt st1
    ∧ handleWasZoomRequested 2 (ZoomOther 5) st1 = Suspended st2
    ∧ handleWasZoomRequested_granted (ZoomOther 3) st2 = Returned tt st3
    ∧ effects_since active_manager st3 = []
    ∧ handleWasZoomRequested_granted (ZoomOther 5) st3 = Returned tt st4
    ∧ effects_since active_manager st4 = [SetLayout 0 (ZoomOther 5)]
    ∧ layouterManagerMonitor st4 = Monitor.create.
Proof.
  apply (zoom_requests_in_a_row 1 2 (ZoomOther 3) (ZoomOther 5) active_manager
           sample_layouter); reflexivity.
Defined.

End LayoutsMoreFacts.

(** ** Facts on the methods outside the monitor's three *)

Module EditorFacts.
Import Layouts LayoutsFacts LayoutsMore LayoutsMoreFacts.

#[local] Abbreviation no_session_error :=
  (ShowErrorMessage "This requires the diff layout to be active").

(** X19.  [deactivateLayout] tells the session, if there is one, to
    deactivate, forgets session and factory, and frees the monitor; it
    shows nothing.  From then on no content counts as open, and
    [switchLayout] only reports that it needs an active layout. *)
Theorem deactivateLayout_ends_session me e :
  layouterManagerMonitor (manager e) = Monitor.create →
  ∃ e', deactivateLayout me e = Returned tt e'
    ∧ layouter (manager e') = None
    ∧ layouterFactory (manager e') = None
    ∧ manager_diffedURIs (manager e') = None
    ∧ layouterManagerMonitor (manager e') = Monitor.create
    ∧ effects (manager e') = effects (manager e)
    ∧ notices_since e e'
      = match layouter (manager e) with
        | Some l => [SessionDeactivate (layouterRef l)]
        | None => []
        end
    ∧ (∀ uris, already_open uris (manager e') = false)
    ∧ ∀ me' layoutName pick,
        switchLayout me' layoutName pick (manager e')
        = Returned tt (log [no_session_error] (manager e')).
Proof.
  intros Hfree. destruct e as [st ns].
  destruct st as [fs df lf l m bar cfg eff ref]. cbn in Hfree. subst m.
  unfold deactivateLayout, bind, on_manager, managerMonitor_enter. cbn.
  unfold deactivateLayout_granted, try_finally, modify, deactivateLayout_try,
    on_manager, managerMonitor_leave.
  destruct l as [l|]; cbn; (eexists; split; [reflexivity|]); cbn;
    unfold notices_since; cbn; rewrite ?drop_app_length, ?drop_all;
    by split_and!.
Qed.

#[local] Abbreviation no_layout_error :=
  (ShowErrorMessage "No diff layout active.").
#[local] Abbreviation no_conflict_message :=
  (ShowInformationMessage "No merge conflict found.").

(** X20.  [focusMergeConflictInteractively] asks the session exactly when
    a session is active, and then hands on the session's answer: a
    boolean is returned as it is, with the message "No merge conflict
    found." for [false] and with no message for [true]; an error is shown
    as an error message and [undefined] is returned.  Without an active
    session it shows "No diff layout active." and returns [undefined].
    It changes nothing in the manager. *)
Theorem focusMergeConflictInteractively_result type sessionResult e :
  let r := (focusMergeConflictInteractively type sessionResult e).1 in
  let e' := (focusMergeConflictInteractively type sessionResult e).2 in
  let active := ∃ l, layouter (manager e) = Some l ∧ isActive l = true in
  same_session (manager e) (manager e')
  ∧ (active →
     (∃ l, layouter (manager e) = Some l
           ∧ notices_since e e'
             = SessionFocusMergeConflict (layouterRef l) type
               :: match sessionResult with
                  | inr false => [no_conflict_message]
                  | _ => []
                  end)
     ∧ r = match sessionResult with inl _ => None | inr b => Some b end
     ∧ effects_since (manager e) (manager e')
       = match sessionResult with
         | inl message => [ShowErrorMessage message]
         | inr _ => []
         end)
  ∧ (¬ active →
     r = None ∧ notices_since e e' = []
     ∧ effects_since (manager e) (manager e') = [no_layout_error]).
Proof.
  destruct e as [st ns]. destruct st as [fs df lf l m bar cfg eff ref].
  unfold focusMergeConflictInteractively, focusMergeConflict. cbn.
  destruct l as [[lr lu [] la]|]; cbn.
  - destruct sessionResult as [msg|[]]; cbn;
      unfold notices_since, effects_since; cbn;
      rewrite <- ?app_assoc, ?drop_app_length, ?drop_all;
      (split; [by repeat split|]);
      (split; [intros _; split; [eexists; split; reflexivity|done]|]);
      intros H; destruct H; eexists; split; reflexivity.
  - unfold notices_since, effects_since; cbn;
      rewrite ?drop_app_length, ?drop_all.
    split; [by repeat split|]. split; [|done].
    by intros (l & [= <-] & ?).
  - unfold notices_since, effects_since; cbn;
      rewrite ?drop_app_length, ?drop_all.
    split; [by repeat split|]. split; [|done].
    by intros (l & ? & ?).
Qed.

(** X21.  [resetMergedFile] copies at most once, and only the backup of
    the content of an active or activating session over its merged file;
    without such a session or without a backup nothing is copied.  It
    shows an error message unless that copy succeeded, and changes
    nothing in the manager. *)
Theorem resetMergedFile_copies copy e :
  let e' := resetMergedFile copy e in
  let resettable uris b :=
    manager_diffedURIs (manager e) = Some uris ∧ backup uris = Some b in
  same_session (manager e) (manager e')
  ∧ (∀ uris b, resettable uris b →
       notices_since e e' = [CopyFile (fsPath b) (fsPath (merged uris))]
       ∧ effects_since (manager e) (manager e')
         = match copy (fsPath b) (fsPath (merged uris)) with
           | Some message =>
               [ShowErrorMessage
                  ("Resetting the merged file failed: " +:+ message)]
           | None => []
           end)
  ∧ ((∀ uris b, ¬ resettable uris b) →
     notices_since e e' = []
     ∧ ∃ message,
         effects_since (manager e) (manager e') = [ShowErrorMessage message]).
Proof.
  destruct e as [st ns]. destruct st as [fs df lf l m bar cfg eff ref].
  unfold resetMergedFile, manager_diffedURIs. cbn.
  destruct l as [[lr lu la lg]|]; cbn.
  - destruct (lg || la) eqn:Hflags; cbn.
    + destruct (backup lu) as [b|] eqn:Hb; cbn.
      * split; [by destruct (copy _ _)|]. split.
        -- intros uris b' [[= <-] Hb']. rewrite Hb in Hb'.
           injection Hb' as <-.
           destruct (copy _ _); cbn; unfold notices_since, effects_since;
             cbn; by rewrite ?drop_app_length, ?drop_all.
        -- intros H. by destruct (H lu b).
      * split; [by repeat split|]. split.
        -- intros uris b' [[= <-] Hb']. congruence.
        -- intros _. unfold notices_since, effects_since. cbn.
           rewrite drop_app_length, drop_all. split; [done|]. by eexists.
    + split; [by repeat split|]. split; [by intros ? ? [? ?]|].
      intros _. unfold notices_since, effects_since. cbn.
      rewrite drop_app_length, drop_all. split; [done|]. by eexists.
  - split; [by repeat split|]. split; [by intros ? ? [? ?]|].
    intros _. unfold notices_since, effects_since. cbn.
    rewrite drop_app_length, drop_all. split; [done|]. by eexists.
Qed.

Section Notification.

Variable extensionID : string.
Variable containsMergeConflictIndicators : string → bool.

#[local] Abbreviation handleLayouterDidDeactivate :=
  (LayoutsMore.handleLayouterDidDeactivate extensionID
     containsMergeConflictIndicators).
#[local] Abbreviation layoutSettingID := (Layouts.layoutSettingID extensionID).
#[local] Abbreviation asks_to_reopen :=
  (LayoutsMore.asks_to_reopen containsMergeConflictIndicators).
#[local] Abbreviation conflict_warning result :=
  (ShowWarningMessage "Merge conflict markers are included in closed file."
     ["Reopen"; "Keep closed"] result).
#[local] Abbreviation opening_failed :=
  (ShowErrorMessage
     "Opening failed, probably because one of the files was removed.").

(** X22.  When a session reports that it has ended and the content is
    not reopened, the manager forgets the session, but not its factory,
    drops the status bar item and fires the deactivation event first of
    all; it shows no error message and does not touch the monitor.  The
    merged file is read exactly when the deactivation did not come from
    the merge tool, and the user is warned exactly when, moreover, the
    file was read and has conflict markers. *)
Theorem session_end_without_reopen me l wasInitiatedByMergetool text result
    answers e :
  asks_to_reopen wasInitiatedByMergetool text = false
  ∨ result ≠ Some "Reopen" →
  ∃ e', handleLayouterDidDeactivate me l wasInitiatedByMergetool text result
          answers e = Returned tt e'
    ∧ manager e' = session_ended (manager e)
    ∧ notices_since e e'
      = FireDidLayoutDeactivate (layouterRef l)
        :: (if wasInitiatedByMergetool then []
            else [ReadFile (fsPath (merged (diffedURIs l)))])
        ++ (if asks_to_reopen wasInitiatedByMergetool text
            then [conflict_warning result] else []).
Proof.
  intros Hno. unfold LayoutsMore.handleLayouterDidDeactivate,
    LayoutsMore.asks_to_reopen in *.
  destruct wasInitiatedByMergetool; cbn in *.
  { eexists. split; [done|]. split; [done|].
    unfold notices_since. cbn. by rewrite drop_app_length. }
  destruct text as [data|]; cbn in *.
  2: { eexists. split; [done|]. split; [done|].
       unfold notices_since. cbn. by rewrite <- app_assoc, drop_app_length. }
  destruct (containsMergeConflictIndicators data); cbn in *.
  2: { eexists. split; [done|]. split; [done|].
       unfold notices_since. cbn. by rewrite <- app_assoc, drop_app_length. }
  destruct Hno as [?|Hno]; [done|].
  rewrite bool_decide_eq_false_2 by done.
  eexists. split; [done|]. split; [done|].
  unfold notices_since. cbn. by rewrite <- !app_assoc, drop_app_length.
Qed.

(** X23.  Let the user answer the warning with "Reopen" while the monitor
    is free.  If a factory answers to the configured kind, a session for
    the same content is created; since the manager has forgotten the
    ended session by then, that one is not told to deactivate, and the new
    one is activated as a first activation, not as a switch.  If no
    factory answers and the user cancels the repair prompt, the manager
    stays without a session and "Opening failed, probably because one of
    the files was removed." is shown. *)
Theorem session_end_with_reopen me l data answers e :
  containsMergeConflictIndicators data = true →
  layouterManagerMonitor (manager e) = Monitor.create →
  let run :=
    handleLayouterDidDeactivate me l false (Some data) (Some "Reopen") in
  let kind := prop (configuration (manager e)) layoutSettingID in
  let ref := nextRef (manager e) in
  (∀ f, factory_for kind (manager e) = Some f →
     ∃ e', run answers e = Returned tt e'
       ∧ effects_since (manager e) (manager e')
         = [Create f ref (diffedURIs l); OnDidDeactivate ref;
            TryActivate ref ZoomDefault false; FireDidLayoutActivate ref]
       ∧ layouter (manager e')
         = Some (tryActivate (create ref (diffedURIs l)))
       ∧ layouterFactory (manager e') = Some f
       ∧ layouterManagerMonitor (manager e') = Monitor.create)
  ∧ (factory_for kind (manager e) = None →
     ∀ rest, ∃ e', run (Cancel :: rest) e = Returned tt e'
       ∧ effects_since (manager e) (manager e')
         = [AskUnknownLayout Cancel; opening_failed]
       ∧ layouter (manager e') = None
       ∧ layouterManagerMonitor (manager e') = Monitor.create).
Proof.
  intros Hmarkers Hfree. cbn zeta.
  destruct e as [st ns]. destruct st as [fs df lf ol m bar cfg eff ref].
  cbn in Hfree. subst m.
  unfold LayoutsMore.handleLayouterDidDeactivate. rewrite Hmarkers. cbn.
  unfold bind, on_manager, openDiffedURIs, bind, managerMonitor_enter. cbn.
  unfold openDiffedURIs_granted, bind, try_finally, openDiffedURIs_try.
  cbn. unfold bind, getLayoutFactory. split.
  - intros f Hf. unfold factory_for in Hf. cbn in Hf.
    destruct answers; cbn; unfold factory_for; cbn; rewrite Hf; cbn;
      (eexists; split; [reflexivity|]); cbn;
      unfold effects_since; cbn;
      by rewrite <- ?app_assoc, drop_app_length.
  - intros Hf rest. unfold factory_for in Hf. cbn in Hf.
    cbn. unfold factory_for. cbn. rewrite Hf. cbn.
    eexists. split; [reflexivity|]. cbn.
    unfold effects_since. cbn.
    by rewrite <- ?app_assoc, drop_app_length.
Qed.

End Notification.

Lemma deactivateLayout_ends_session_witness :
  ∃ e', deactivateLayout 1 sample_editor = Returned tt e'
    ∧ layouter (manager e') = None
    ∧ layouterFactory (manager e') = None
    ∧ manager_diffedURIs (manager e') = None
    ∧ layouterManagerMonitor (manager e') = Monitor.create
    ∧ effects (manager e') = effects (manager sample_editor)
    ∧ notices_since sample_editor e' = [SessionDeactivate 0]
    ∧ (∀ uris, already_open uris (manager e') = false)
    ∧ ∀ me' layoutName pick,
        switchLayout me' layoutName pick (manager e')
        = Returned tt
            (log [ShowErrorMessage
                    "This requires the diff layout to be active"]
               (manager e')).
Proof.
  apply (deactivateLayout_ends_session 1 sample_editor). reflexivity.
Defined.

Lemma session_end_without_reopen_witness :
  ∃ e', handleLayouterDidDeactivate "vscode-as-git-mergetool" (λ _, true) 1
          sample_layouter false (Some "<<<<<<< HEAD") (Some "Keep closed") []
          sample_editor
        = Returned tt e'
    ∧ manager e' = session_ended (manager sample_editor)
    ∧ notices_since sample_editor e'
      = [FireDidLayoutDeactivate 0; ReadFile "/repo/a";
         ShowWarningMessage
           "Merge conflict markers are included in closed file."
           ["Reopen"; "Keep closed"] (Some "Keep closed")].
Proof.
  apply (session_end_without_reopen "vscode-as-git-mergetool" (λ _, true) 1
           sample_layouter false (Some "<<<<<<< HEAD") (Some "Keep closed")
           [] sample_editor).
  right. discriminate.
Defined.

Lemma session_end_with_reopen_witness :
  let e := sample_editor in
  let run :=
    handleLayouterDidDeactivate "vscode-as-git-mergetool" (λ _, true) 1
      sample_layouter false (Some "<<<<<<< HEAD") (Some "Reopen") in
  let kind :=
    prop (configuration (manager e))
      (layoutSettingID "vscode-as-git-mergetool") in
  let ref := nextRef (manager e) in
  (∀ f, factory_for kind (manager e) = Some f →
     ∃ e', run [] e = Returned tt e'
       ∧ effects_since (manager e) (manager e')
         = [Create f ref sample_uris; OnDidDeactivate ref;
            TryActivate ref ZoomDefault false; FireDidLayoutActivate ref]
       ∧ layouter (manager e') = Some (tryActivate (create ref sample_uris))
       ∧ layouterFactory (manager e') = Some f
       ∧ layouterManagerMonitor (manager e') = Monitor.create)
  ∧ (factory_for kind (manager e) = None →
     ∀ rest, ∃ e', run (Cancel :: rest) e = Returned tt e'
       ∧ effects_since (manager e) (manager e')
         = [AskUnknownLayout Cancel;
            ShowErrorMessage
              "Opening failed, probably because one of the files was removed."]
       ∧ layouter (manager e') = None
       ∧ layouterManagerMonitor (manager e') = Monitor.create).
Proof.
  apply (session_end_with_reopen "vscode-as-git-mergetool" (λ _, true) 1
           sample_layouter "<<<<<<< HEAD" [] sample_editor); reflexivity.
Defined.

End EditorFacts.

(** ** Further facts on the merge of arbitrary files *)

Module MergerMoreFacts.
Import Merger.

Section Facts.

Variable ManagerState : Type.
Variable openDiffedURIs : DiffedURIs → bool → Task ManagerState bool.
Variable dirname : string → string.
Variable readonlyFileURI : string → Uri.
Variable StringToNumber : string → option Z.

#[local] Abbreviation World := (Merger.MergerWorld ManagerState).
#[local] Abbreviation mergeArbitraryFiles :=
  (Merger.mergeArbitraryFiles ManagerState openDiffedURIs dirname
     readonlyFileURI StringToNumber).
#[local] Abbreviation git_failed := (Merger.git_failed StringToNumber).
#[local] Abbreviation call_openDiffedURIs :=
  (Merger.call_openDiffedURIs ManagerState openDiffedURIs).
#[local] Abbreviation merge_file_call := (Merger.merge_file_call dirname).
#[local] Abbreviation selected_uris := (Merger.selected_uris readonlyFileURI).
#[local] Abbreviation mergerEffects_since :=
  (Merger.mergerEffects_since ManagerState).
#[local] Abbreviation record := (Merger.record ManagerState).
#[local] Abbreviation git_message gitResult :=
  ("Error when merging files by Git: " +:+ stderr gitResult +:+ ".").

Lemma call_openDiffedURIs_log uris closeActiveEditor (w : World) :
  mergerEffects _ (outcome_state (call_openDiffedURIs uris closeActiveEditor w))
  = mergerEffects _ w ++ [OpenDiffedURIs uris closeActiveEditor].
Proof.
  unfold Merger.call_openDiffedURIs.
  by destruct (openDiffedURIs uris closeActiveEditor (manager _ w)).
Qed.

(** The command, step by step. *)
Lemma mergeArbitraryFiles_steps env (w : World) selectionResult gitPath :
  doSelection env = Some selectionResult →
  getVSCGitPathInteractively env = Some gitPath →
  let call := merge_file_call gitPath selectionResult in
  let gitResult := execFilePromise env call in
  let mergedPath := selectedPath (selMerged selectionResult) in
  let open := call_openDiffedURIs (selected_uris selectionResult) false in
  mergeArbitraryFiles env w
  = if has_emptyLoc (selMerged selectionResult) then
      if git_failed gitResult then
        Returned false
          (record [ExecFile call; ErrorMessage (git_message gitResult)] w)
      else
        let w1 :=
          record [ExecFile call; WriteFile mergedPath (stdout gitResult)] w in
        if writeFile env mergedPath (stdout gitResult) then open w1
        else Returned false w1
    else open w.
Proof.
  intros Hsel Hgit. cbn zeta. unfold Merger.mergeArbitraryFiles.
  rewrite Hsel, Hgit.
  destruct (has_emptyLoc (selMerged selectionResult)); [|done].
  unfold bind, modify. cbn.
  destruct (git_failed _); cbn.
  - unfold Merger.record. cbn. by rewrite <- app_assoc.
  - unfold Merger.record. cbn. rewrite <- app_assoc. cbn.
    by destruct (writeFile env _ _).
Qed.

(** What the command has done when it ends or is parked. *)
Lemma mergeArbitraryFiles_log env (w : World) :
  mergerEffects_since w (outcome_state (mergeArbitraryFiles env w))
  = match doSelection env, getVSCGitPathInteractively env with
    | Some selectionResult, Some gitPath =>
        let call := merge_file_call gitPath selectionResult in
        let gitResult := execFilePromise env call in
        let mergedPath := selectedPath (selMerged selectionResult) in
        let open := OpenDiffedURIs (selected_uris selectionResult) false in
        if has_emptyLoc (selMerged selectionResult) then
          ExecFile call
          :: (if git_failed gitResult
              then [ErrorMessage (git_message gitResult)]
              else WriteFile mergedPath (stdout gitResult)
                   :: (if writeFile env mergedPath (stdout gitResult)
                       then [open] else []))
        else [open]
    | _, _ => []
    end.
Proof.
  destruct (doSelection env) as [sel|] eqn:Hsel.
  2: { unfold Merger.mergeArbitraryFiles. rewrite Hsel. cbn.
       apply drop_all. }
  destruct (getVSCGitPathInteractively env) as [gitPath|] eqn:Hgit.
  2: { unfold Merger.mergeArbitraryFiles. rewrite Hsel, Hgit. cbn.
       apply drop_all. }
  rewrite (mergeArbitraryFiles_steps env w sel gitPath Hsel Hgit).
  unfold Merger.mergerEffects_since.
  destruct (has_emptyLoc (selMerged sel)).
  2: { by rewrite call_openDiffedURIs_log, drop_app_length. }
  destruct (git_failed _); cbn.
  { by rewrite drop_app_length. }
  destruct (writeFile env _ _); cbn.
  - rewrite call_openDiffedURIs_log. cbn.
    by rewrite <- app_assoc, drop_app_length.
  - by rewrite drop_app_length.
Qed.

(** X24.  Git is run exactly when files were selected, Git was found and
    the merged location is empty; the call is then [git merge-file
    --stdout local base remote] in the directory of the merged file.  A
    file is written exactly when, moreover, Git ended without error, or
    with an error whose code is a number from 0 to 127, or is [null], as
    after a kill by the timeout, or is a string that reads as such a
    number or as no number at all, as "ENOENT" does when Git could not be
    started; what is written then is Git's standard output, to the merged
    path. *)
Theorem mergeArbitraryFiles_git_and_write env (w : World) :
  let done := mergerEffects_since w (outcome_state (mergeArbitraryFiles env w)) in
  let git_is_run selectionResult gitPath :=
    doSelection env = Some selectionResult
    ∧ getVSCGitPathInteractively env = Some gitPath
    ∧ has_emptyLoc (selMerged selectionResult) = true in
  let in_range (c : Z) := (0 ≤ c ≤ 127)%Z in
  let accepted gitResult :=
    match error gitResult with
    | None => True
    | Some e =>
        match code e with
        | CodeUndefined => False
        | CodeNull => True
        | CodeNumber c => in_range c
        | CodeString s =>
            match StringToNumber s with
            | Some c => in_range c
            | None => True
            end
        end
    end in
  (∀ call,
     ExecFile call ∈ done
     ↔ ∃ selectionResult gitPath,
         git_is_run selectionResult gitPath
         ∧ call = merge_file_call gitPath selectionResult)
  ∧ (∀ path data,
       WriteFile path data ∈ done
       ↔ ∃ selectionResult gitPath,
           let gitResult :=
             execFilePromise env (merge_file_call gitPath selectionResult) in
           git_is_run selectionResult gitPath
           ∧ accepted gitResult
           ∧ path = selectedPath (selMerged selectionResult)
           ∧ data = stdout gitResult).
Proof.
  cbn zeta. rewrite mergeArbitraryFiles_log.
  destruct (doSelection env) as [sel|].
  2: { split; intros; (split; [by intros ?%elem_of_nil|]);
       by intros (? & ? & (? & _) & _). }
  destruct (getVSCGitPathInteractively env) as [gitPath|].
  2: { split; intros; (split; [by intros ?%elem_of_nil|]);
       by intros (? & ? & (_ & ? & _) & _). }
  cbn zeta.
  set (gitResult := execFilePromise env (merge_file_call gitPath sel)).
  assert (git_failed gitResult = false
          ↔ match error gitResult with
            | None => True
            | Some e =>
                match code e with
                | CodeUndefined => False
                | CodeNull => True
                | CodeNumber c => (0 ≤ c ≤ 127)%Z
                | CodeString s =>
                    match StringToNumber s with
                    | Some c => (0 ≤ c ≤ 127)%Z
                    | None => True
                    end
                end
            end) as Haccepted.
  { unfold Merger.git_failed.
    destruct (error gitResult) as [[[| |c|s]]|]; cbn; [done|done| | |done].
    - rewrite orb_false_iff, Z.ltb_ge, Z.ltb_ge. split; lia.
    - destruct (StringToNumber s) as [c|]; [|done].
      rewrite orb_false_iff, Z.ltb_ge, Z.ltb_ge. split; lia. }
  destruct (has_emptyLoc (selMerged sel)) eqn:Hempty.
  2: { split; intros.
       - rewrite list_elem_of_singleton. split; [done|].
         intros (? & ? & ([= <-] & _ & ?) & _). congruence.
       - rewrite list_elem_of_singleton. split; [done|].
         intros (? & ? & ([= <-] & _ & ?) & _). congruence. }
  split.
  - intros call. split.
    + intros Hin. exists sel, gitPath. split; [done|].
      apply elem_of_cons in Hin as [[= ->]|Hin]; [done|]. exfalso.
      destruct (git_failed gitResult).
      * by apply list_elem_of_singleton in Hin.
      * apply elem_of_cons in Hin as [?|Hin]; [done|].
        destruct (writeFile env _ _);
          [by apply list_elem_of_singleton in Hin|by apply elem_of_nil in Hin].
    + intros (? & ? & ([= <-] & [= <-] & _) & ->). apply list_elem_of_here.
  - intros path data. split.
    + intros Hin. exists sel, gitPath. cbn zeta. fold gitResult.
      apply elem_of_cons in Hin as [?|Hin]; [done|].
      destruct (git_failed gitResult).
      { by apply list_elem_of_singleton in Hin. }
      apply elem_of_cons in Hin as [[= -> ->]|Hin].
      { split; [done|]. split; [by apply Haccepted|done]. }
      exfalso. destruct (writeFile env _ _);
        [by apply list_elem_of_singleton in Hin|by apply elem_of_nil in Hin].
    + intros (? & ? & ([= <-] & [= <-] & _) & Hok & -> & ->).
      fold gitResult in Hok |- *. apply Haccepted in Hok. rewrite Hok.
      apply list_elem_of_further, list_elem_of_here.
Qed.

(** X25.  An error message is shown exactly when Git was run and ended
    with an error whose code is missing, negative or above 127, and it
    quotes Git's standard error output; a cancelled selection, a missing
    Git and a failed write are silent.  After the message the command
    returns [false], having written no file and left the layout manager
    alone. *)
Theorem mergeArbitraryFiles_error_message env (w : World) :
  let w' := outcome_state (mergeArbitraryFiles env w) in
  let done := mergerEffects_since w w' in
  (∀ message,
     ErrorMessage message ∈ done
     ↔ ∃ selectionResult gitPath,
         let gitResult :=
           execFilePromise env (merge_file_call gitPath selectionResult) in
         doSelection env = Some selectionResult
         ∧ getVSCGitPathInteractively env = Some gitPath
         ∧ has_emptyLoc (selMerged selectionResult) = true
         ∧ git_failed gitResult = true
         ∧ message = git_message gitResult)
  ∧ ((∃ message, ErrorMessage message ∈ done) →
     mergeArbitraryFiles env w = Returned false w'
     ∧ manager _ w' = manager _ w
     ∧ ∀ e, e ∈ done → match e with
                       | ExecFile _ | ErrorMessage _ => True
                       | WriteFile _ _ | OpenDiffedURIs _ _ => False
                       end).
Proof.
  cbn zeta.
  assert (∀ message,
     ErrorMessage message
       ∈ mergerEffects_since w (outcome_state (mergeArbitraryFiles env w))
     ↔ ∃ selectionResult gitPath,
         doSelection env = Some selectionResult
         ∧ getVSCGitPathInteractively env = Some gitPath
         ∧ has_emptyLoc (selMerged selectionResult) = true
         ∧ git_failed
             (execFilePromise env (merge_file_call gitPath selectionResult))
           = true
         ∧ message
           = git_message
               (execFilePromise env (merge_file_call gitPath selectionResult)))
    as Hiff.
  { intros message. rewrite mergeArbitraryFiles_log.
    destruct (doSelection env) as [sel|].
    2: { split; [by intros ?%elem_of_nil|]. by intros (? & ? & ? & _). }
    destruct (getVSCGitPathInteractively env) as [gitPath|].
    2: { split; [by intros ?%elem_of_nil|]. by intros (? & ? & _ & ? & _). }
    cbn zeta.
    set (gitResult := execFilePromise env (merge_file_call gitPath sel)).
    destruct (has_emptyLoc (selMerged sel)) eqn:Hempty.
    2: { rewrite list_elem_of_singleton. split; [done|].
         intros (? & ? & [= <-] & _ & ? & _). congruence. }
    destruct (git_failed gitResult) eqn:Hfailed.
    - split.
      + intros Hin. apply elem_of_cons in Hin as [?|Hin]; [done|].
        apply list_elem_of_singleton in Hin as [= ->].
        by exists sel, gitPath.
      + intros (? & ? & [= <-] & [= <-] & _ & _ & ->).
        apply list_elem_of_further, list_elem_of_here.
    - split.
      + intros Hin. apply elem_of_cons in Hin as [?|Hin]; [done|].
        apply elem_of_cons in Hin as [?|Hin]; [done|].
        destruct (writeFile env _ _);
          [by apply list_elem_of_singleton in Hin|by apply elem_of_nil in Hin].
      + intros (? & ? & [= <-] & [= <-] & _ & ? & _).
        unfold gitResult in *. congruence. }
  split; [exact Hiff|].
  intros [message Hin]. apply Hiff in Hin
    as (sel & gitPath & Hsel & Hgit & Hempty & Hfailed & _).
  rewrite (mergeArbitraryFiles_steps env w sel gitPath Hsel Hgit).
  rewrite Hempty, Hfailed. cbn. split; [done|]. split; [done|].
  unfold Merger.mergerEffects_since. cbn. rewrite drop_app_length.
  intros e [->|[->|?%elem_of_nil]%elem_of_cons]%elem_of_cons; done.
Qed.

End Facts.

Section WithLayoutsManager.

Variable extensionID : string.
Variable dirname : string → string.
Variable readonlyFileURI : string → Uri.
Variable StringToNumber : string → option Z.

#[local] Abbreviation layoutSettingID := (Layouts.layoutSettingID extensionID).
#[local] Abbreviation git_failed := (Merger.git_failed StringToNumber).
#[local] Abbreviation selected_uris := (Merger.selected_uris readonlyFileURI).

(** The command as the extension wires it: the injected manager is the
    layout manager, called without a deactivation handler. *)
#[local] Abbreviation mergeArbitraryFiles me answers :=
  (Merger.mergeArbitraryFiles Layouts.Manager
     (λ uris closeActiveEditor,
        Layouts.openDiffedURIs extensionID me uris closeActiveEditor None
          answers)
     dirname readonlyFileURI StringToNumber).

(** X26.  Let the command get as far as opening the layout, while nobody
    holds the monitor of the layout manager, the selected files are not
    shown already and a factory answers to the configured kind.  Then it
    returns [true]; the manager has a new session for the selected
    files, with base, local and remote read-only and without a backup;
    the session shown before, if any, has been deactivated; the active
    editor has not been closed and the user has not been asked for the
    kind of layout; the monitor is free again. *)
Theorem mergeArbitraryFiles_opens_layout me answers env selectionResult
    gitPath f (w : Merger.MergerWorld Layouts.Manager) :
  doSelection env = Some selectionResult →
  getVSCGitPathInteractively env = Some gitPath →
  (has_emptyLoc (selMerged selectionResult) = true →
   let gitResult :=
     execFilePromise env
       (Merger.merge_file_call dirname gitPath selectionResult) in
   git_failed gitResult = false
   ∧ writeFile env (selectedPath (selMerged selectionResult))
       (stdout gitResult) = true) →
  Layouts.layouterManagerMonitor (manager _ w) = Monitor.create →
  Layouts.already_open (selected_uris selectionResult) (manager _ w)
  = false →
  Layouts.factory_for
    (prop (Layouts.configuration (manager _ w)) layoutSettingID)
    (manager _ w) = Some f →
  let st := manager _ w in
  ∃ w', mergeArbitraryFiles me answers env w = Returned true w'
    ∧ Layouts.layouter (manager _ w')
      = Some (Layouts.tryActivate
                (Layouts.create (Layouts.nextRef st)
                   {| base := readonlyFileURI
                                (selectedPath (selBase selectionResult));
                      local := readonlyFileURI
                                 (selectedPath (selLocal selectionResult));
                      remote := readonlyFileURI
                                  (selectedPath (selRemote selectionResult));
                      merged := Uri_file
                                  (selectedPath (selMerged selectionResult));
                      backup := None |}))
    ∧ Layouts.effects_since st (manager _ w')
      = match Layouts.layouter st with
        | Some old => [Layouts.Deactivate (Layouts.layouterRef old) true]
        | None => []
        end
        ++ [Layouts.Create f (Layouts.nextRef st)
              (selected_uris selectionResult);
            Layouts.OnDidDeactivate (Layouts.nextRef st);
            Layouts.TryActivate (Layouts.nextRef st) Layouts.ZoomDefault
              (bool_decide (is_Some (Layouts.layouter st)));
            Layouts.FireDidLayoutActivate (Layouts.nextRef st)]
    ∧ Layouts.layouterManagerMonitor (manager _ w') = Monitor.create.
Proof.
  intros Hsel Hgit Hsteps Hfree Hopen Hf. cbn zeta in Hsteps |- *.
  rewrite (mergeArbitraryFiles_steps _ _ dirname readonlyFileURI
             StringToNumber env w
             selectionResult gitPath Hsel Hgit).
  cbn zeta.
  set (w1 := Merger.record _ _ w).
  assert (∀ v : Merger.MergerWorld Layouts.Manager,
            manager _ v = manager _ w →
            ∃ w', Merger.call_openDiffedURIs Layouts.Manager
                    (λ uris closeActiveEditor,
                       Layouts.openDiffedURIs extensionID me uris
                         closeActiveEditor None answers)
                    (selected_uris selectionResult) false v
                  = Returned true w'
              ∧ Layouts.layouter (manager _ w')
                = Some (Layouts.tryActivate
                          (Layouts.create (Layouts.nextRef (manager _ w))
                             (selected_uris selectionResult)))
              ∧ Layouts.effects_since (manager _ w) (manager _ w')
                = match Layouts.layouter (manager _ w) with
                  | Some old =>
                      [Layouts.Deactivate (Layouts.layouterRef old) true]
                  | None => []
                  end
                  ++ [Layouts.Create f (Layouts.nextRef (manager _ w))
                        (selected_uris selectionResult);
                      Layouts.OnDidDeactivate (Layouts.nextRef (manager _ w));
                      Layouts.TryActivate (Layouts.nextRef (manager _ w))
                        Layouts.ZoomDefault
                        (bool_decide (is_Some (Layouts.layouter (manager _ w))));
                      Layouts.FireDidLayoutActivate
                        (Layouts.nextRef (manager _ w))]
              ∧ Layouts.layouterManagerMonitor (manager _ w')
                = Monitor.create) as Hcall.
  { intros v Hv. unfold Merger.call_openDiffedURIs. rewrite Hv.
    destruct (manager _ w) as [fs df lf l m bar cfg eff ref].
    unfold Layouts.already_open in Hopen. cbn in Hfree, Hopen, Hf. subst m.
    unfold Layouts.openDiffedURIs, bind, Layouts.managerMonitor_enter. cbn.
    unfold Layouts.openDiffedURIs_granted, bind, try_finally,
      Layouts.openDiffedURIs_try, Layouts.already_open. cbn. rewrite Hopen.
    unfold bind, Layouts.getLayoutFactory.
    destruct answers; cbn; unfold Layouts.factory_for in Hf |- *; cbn in Hf |- *;
      rewrite Hf; cbn;
      (eexists; split; [reflexivity|]); cbn;
      destruct l; cbn; unfold Layouts.effects_since; cbn;
      rewrite <- ?app_assoc, drop_app_length; by split_and!. }
  destruct (has_emptyLoc (selMerged selectionResult)).
  - destruct Hsteps as [-> ->]; [done|]. by apply Hcall.
  - by apply Hcall.
Qed.

End WithLayoutsManager.

Lemma mergeArbitraryFiles_opens_layout_witness :
  let w := {| manager := LayoutsMore.configured_manager;
              mergerEffects := [] |} in
  ∃ w', Merger.mergeArbitraryFiles Layouts.Manager
          (λ uris closeActiveEditor,
             Layouts.openDiffedURIs "vscode-as-git-mergetool" 1 uris
               closeActiveEditor None [])
          sample_dirname sample_readonlyFileURI sample_StringToNumber
          MergerMore.conflicting_git w
        = Returned true w'
    ∧ Layouts.layouter (manager _ w')
      = Some (Layouts.tryActivate (Layouts.create 1 Layouts.other_uris))
    ∧ Layouts.effects_since LayoutsMore.configured_manager (manager _ w')
      = [Layouts.Deactivate 0 true;
         Layouts.Create Layouts.threeDiffToBase 1 Layouts.other_uris;
         Layouts.OnDidDeactivate 1;
         Layouts.TryActivate 1 Layouts.ZoomDefault true;
         Layouts.FireDidLayoutActivate 1]
    ∧ Layouts.layouterManagerMonitor (manager _ w') = Monitor.create.
Proof.
  apply (mergeArbitraryFiles_opens_layout "vscode-as-git-mergetool"
           sample_dirname sample_readonlyFileURI sample_StringToNumber 1 []
           MergerMore.conflicting_git MergerMore.other_selection
           "/usr/bin/git" Layouts.threeDiffToBase
           {| manager := LayoutsMore.configured_manager;
              mergerEffects := [] |});
    [reflexivity | reflexivity | intros _; split; reflexivity
    | reflexivity | reflexivity | vm_compute; reflexivity].
Defined.

End MergerMoreFacts.
